(** * Astra three-party protocol engine: share algebra, tape and exchange

    A shallow embedding of the Astra share types, the preprocessing and
    online multiplication protocols, the opening protocol, the wire buffer
    [octetStream], the correlated PRNG setup and the truncation tuples,
    together with the properties the specification states about them. *)

From Stdlib Require Import ZArith String List Lia Bool Permutation.
From coqutil Require Import Byte Word.LittleEndianList Z.PushPullMod.
Import ListNotations.
Local Open Scope Z_scope.

(* ===================================================================== *)
(** ** Outcomes of fallible code *)
(* ===================================================================== *)

(** A C++ call either returns, throws ([throw runtime_error(what)] and
    friends), aborts on a failed [assert], or performs an unchecked access
    outside a buffer, which the language leaves undefined. *)
Inductive outcome (A : Type) : Type :=
| Ok (a : A)
| Throw (what : string)
| AssertFail (cond : string)
| Undefined (why : string).

Arguments Ok {A} a.
Arguments Throw {A} what.
Arguments AssertFail {A} cond.
Arguments Undefined {A} why.

Definition bind {A B} (c : outcome A) (k : A -> outcome B) : outcome B :=
  match c with
  | Ok a => k a
  | Throw w => Throw w
  | AssertFail w => AssertFail w
  | Undefined w => Undefined w
  end.

Notation "x <- c ;; k" := (bind c (fun x => k))
  (at level 61, c at next level, right associativity).
Notation "' p <- c ;; k" := (bind c (fun x => let p := x in k))
  (at level 61, p pattern, c at next level, right associativity).

Definition assert (b : bool) (cond : string) : outcome unit :=
  if b then Ok tt else AssertFail cond.

Definition throw_if (b : bool) (what : string) : outcome unit :=
  if b then Throw what else Ok tt.

(* ===================================================================== *)
(** ** The ring Z/2^K *)
(* ===================================================================== *)

(** The template parameter [K] of [Z2<K>] / [SignedZ2<K>]. *)
Class Z2k := { N_BITS : nat }.

(** Modelled from the spec: [Math/Z2k.h] is not part of the sources at hand;
    limbs are integers modulo 2^K and a limb is serialised on ceil(K/8)
    bytes in little-endian order. *)
Module Z2.
Section WithDomain.
Context {D : Z2k}.

Definition modulus : Z := 2 ^ Z.of_nat N_BITS.
Definition wrap (z : Z) : Z := z mod modulus.

Definition add (a b : Z) : Z := wrap (a + b).
Definition sub (a b : Z) : Z := wrap (a - b).
Definition mul (a b : Z) : Z := wrap (a * b).
Definition neg (a : Z) : Z := wrap (- a).

(** [T::size()]: bytes of one limb. *)
Definition size : Z := (Z.of_nat N_BITS + 7) / 8.

(** [pack] / [get_ptr]: the raw little-endian bytes of a limb. *)
Definition to_bytes (a : Z) : list byte := le_split (Z.to_nat size) a.
(** [assign] from a byte pointer: load [size()] bytes and normalise. *)
Definition of_bytes (bs : list byte) : Z := wrap (le_combine bs).

End WithDomain.
End Z2.

(** The ring used by the end-to-end scenarios of the specification. *)
Definition Z2_64 : Z2k := {| N_BITS := 64 |}.

(* ===================================================================== *)
(** ** Share algebra (AstraShare.h, Astra.hpp) *)
(* ===================================================================== *)

(** [FixedVec<T, 2>]: the two limbs of a share.  The default constructor
    zero-initialises both. *)
Record FixedVec : Type := mkVec { limb0 : Z; limb1 : Z }.

Definition FixedVec_zero : FixedVec := mkVec 0 0.

Section FixedVecOps.
Context {D : Z2k}.

(** [FixedVec::sum()]: the sum of the components. *)
Definition FixedVec_sum (x : FixedVec) : Z := Z2.add (limb0 x) (limb1 x).

(** [operator+]: component-wise. *)
Definition FixedVec_add (x y : FixedVec) : FixedVec :=
  mkVec (Z2.add (limb0 x) (limb0 y)) (Z2.add (limb1 x) (limb1 y)).
End FixedVecOps.

(** [AstraShare<T>]: the share type of the online parties. *)
Module AstraShare.
Section WithDomain.
Context {D : Z2k}.

(** [m(int)] ignores the party number and designates limb 0. *)
Definition m (x : FixedVec) (my_num : Z) : Z := limb0 x.
Definition set_m (x : FixedVec) (my_num : Z) (v : Z) : FixedVec :=
  mkVec v (limb1 x).

(** [neg_lambda(int)] ignores the party number and designates limb 1. *)
Definition neg_lambda (x : FixedVec) (my_num : Z) : Z := limb1 x.
Definition lambda (x : FixedVec) (my_num : Z) : Z :=
  Z2.neg (neg_lambda x my_num).

(** [constant(value, my_num = -1)]: [res.m(my_num + 1) = value]. *)
Definition constant (value : Z) (my_num : Z) : FixedVec :=
  set_m FixedVec_zero (my_num + 1) value.

Definition local_mul_P0 (x other : FixedVec) : outcome Z :=
  Throw "P0 should be absent".

Definition local_mul_P1 (x other : FixedVec) : Z :=
  Z2.add (Z2.mul (m x 1) (neg_lambda other 1))
         (Z2.mul (m other 1) (neg_lambda x 1)).

Definition local_mul_P2 (x other : FixedVec) : Z :=
  Z2.add (Z2.mul (m x 2) (m other 2)) (local_mul_P1 x other).
End WithDomain.
End AstraShare.

(** [AstraPrepShare<T>]: the share type of the preprocessing roles. *)
Module AstraPrepShare.
Section WithDomain.
Context {D : Z2k}.

(** [constant(value, my_num)] returns the default (all-zero) share. *)
Definition constant (value : Z) (my_num : Z) : FixedVec := FixedVec_zero.

Definition local_mul_P0 (x other : FixedVec) : Z :=
  Z2.mul (FixedVec_sum x) (FixedVec_sum other).

Definition local_mul_P1 (x other : FixedVec) : Z := local_mul_P0 x other.

Definition local_mul_P2 (x other : FixedVec) : Z := 0.
End WithDomain.
End AstraPrepShare.

(* ===================================================================== *)
(** ** Opening (AstraMC.hpp) *)
(* ===================================================================== *)

Module AstraMC.
Section WithDomain.
Context {D : Z2k}.

Definition prepare_summand (secret : FixedVec) (my_num : Z) : Z :=
  if my_num =? 1
  then Z2.sub (AstraShare.m secret my_num) (AstraShare.lambda secret my_num)
  else Z2.neg (AstraShare.lambda secret my_num).

(** Modelled from the spec: the opener [SemiMC] is not part of the sources
    at hand; it sends every prepared summand to the other party and each
    party adds the received value to its own summand. *)
Fixpoint opener_finalize (mine received : list Z) : outcome (list Z) :=
  match mine, received with
  | [], _ => Ok []
  | a :: mine', b :: received' =>
      rest <- opener_finalize mine' received' ;;
      Ok (Z2.add a b :: rest)
  | _ :: _, [] => Throw "insufficient data"
  end.

(** The summands a party puts on the wire: the loop of [exchange] over
    [secrets], with [my_num = P.my_num() + 1]. *)
Definition summands (P_my_num : Z) (secrets : list FixedVec) : list Z :=
  let my_num := P_my_num + 1 in
  map (fun secret =>
         if P_my_num =? 1 then prepare_summand secret my_num
         else prepare_summand secret my_num) secrets.

(** [exchange(P)]: [values] receives one opened value per secret;
    [received] are the summands the other party sent. *)
Definition exchange (P_my_num : Z) (secrets : list FixedVec)
           (received : list Z) : outcome (list Z) :=
  opener_finalize (summands P_my_num secrets) received.
End WithDomain.
End AstraMC.

(* ===================================================================== *)
(** ** Wire buffer (Tools/octetStream.h, Tools/octetStream.cpp) *)
(* ===================================================================== *)

(** Arithmetic on [size_t]: unsigned, 64 bits. *)
Definition size_t_wrap (z : Z) : Z := z mod 2 ^ 64.

(** [#define LENGTH_SIZE 4] ("32-bit length fields for compatibility"),
    the value in force unless the build overrides the macro. *)
Definition LENGTH_SIZE : Z := 4.

(** Modelled from the spec: [encode_length] of [Networking/data.h] is not
    part of the sources at hand; a length is laid out on [n_bytes] bytes in
    little-endian order. *)
Definition encode_length (len : Z) (n_bytes : Z) : list byte :=
  le_split (Z.to_nat n_bytes) len.

(** The buffer: [data .. end) holds the content, [ptr] is the read head
    (as an offset from [data]) and [data_end - data] the allocation. *)
Record octetStream : Type := mkOS {
  os_data : list byte;
  os_ptr : Z;
  os_max_length : Z
}.

Module OS.
Definition empty : octetStream := mkOS [] 0 0.

Definition get_length (o : octetStream) : Z := Z.of_nat (length (os_data o)).
Definition get_max_length (o : octetStream) : Z := os_max_length o.

(** [left()]: [end - ptr], a [size_t]. *)
Definition left (o : octetStream) : Z :=
  size_t_wrap (get_length o - os_ptr o).

(** [clear()]: frees the buffer. *)
Definition clear (o : octetStream) : octetStream := empty.

(** [resize_precise(l)] moves the content into an allocation of [l] bytes;
    the callers below never shrink under the content. *)
Definition resize_precise (o : octetStream) (l : Z) : octetStream :=
  if l =? get_max_length o then o
  else mkOS (os_data o) (os_ptr o) l.

Definition resize_min (o : octetStream) (l : Z) : octetStream :=
  if l >? get_max_length o then resize_precise o l else o.

Definition reserve (o : octetStream) (l : Z) : octetStream :=
  if size_t_wrap (get_length o + l) >? get_max_length o
  then resize_precise o (size_t_wrap (get_length o + l))
  else o.

(** [append_no_resize]: copies without looking at the allocation. *)
Definition append_no_resize (o : octetStream) (x : list byte)
  : outcome octetStream :=
  if get_length o + Z.of_nat (length x) <=? get_max_length o
  then Ok (mkOS (os_data o ++ x) (os_ptr o) (os_max_length o))
  else Undefined "append_no_resize beyond the allocation".

(** [consume_no_check(l)]: hands out the next [l] bytes and advances the
    read head without looking at [end]. *)
Definition consume_no_check (o : octetStream) (l : Z)
  : outcome (list byte * octetStream) :=
  if (0 <=? os_ptr o) && (os_ptr o + l <=? get_length o)
  then Ok (firstn (Z.to_nat l) (skipn (Z.to_nat (os_ptr o)) (os_data o)),
           mkOS (os_data o) (os_ptr o + l) (os_max_length o))
  else Undefined "consume_no_check beyond the end".

(** [Send(socket)]: the bytes put on the socket. *)
Definition Send (o : octetStream) : list byte :=
  encode_length (get_length o) LENGTH_SIZE ++ os_data o.

(** [Receive(socket)] once the length field has been read: the content is
    overwritten by the [payload] and the read head reset. *)
Definition Receive (o : octetStream) (payload : list byte) : octetStream :=
  let nlen := Z.of_nat (length payload) in
  mkOS payload 0 (os_max_length (resize_min o nlen)).

(** [output(ostream&)]: [len] is a [size_t], written as it lies in memory
    (eight bytes, least significant first on the supported hosts). *)
Definition output (o : octetStream) (s : list byte) : list byte :=
  s ++ le_split 8 (get_length o) ++ os_data o.

(** [istream::read(n)] on the unread remainder of a file: [None] when the
    stream runs dry (the stream is then no longer [good()]). *)
Definition istream_read (s : list byte) (n : Z) : option (list byte * list byte) :=
  if Z.of_nat (length s) <? n then None
  else Some (firstn (Z.to_nat n) s, skipn (Z.to_nat n) s).

(** [input(istream&)]. *)
Definition input (o : octetStream) (s : list byte)
  : outcome (octetStream * list byte) :=
  match istream_read s 8 with
  | None => Throw "not enough data"
  | Some (hdr, s1) =>
      let size := le_combine hdr in
      let o1 := resize_min o size in
      match istream_read s1 size with
      | None => Throw "not enough data"
      | Some (payload, s2) => Ok (mkOS payload 0 (os_max_length o1), s2)
      end
  end.

Section Typed.
Context {D : Z2k}.

(** [store_no_resize(x)]. *)
Definition store_no_resize (o : octetStream) (x : Z) : outcome octetStream :=
  append_no_resize o (Z2.to_bytes x).

(** [get_no_check<T>()]. *)
Definition get_no_check (o : octetStream) : outcome (Z * octetStream) :=
  '(bs, o') <- consume_no_check o Z2.size ;;
  Ok (Z2.of_bytes bs, o').
End Typed.
End OS.

(* ===================================================================== *)
(** ** Correlated randomness (Protocols/Replicated.hpp) *)
(* ===================================================================== *)

(** Modelled from the spec: the generator of [Tools/random.h] is not part
    of the sources at hand; it is a stream cipher, deterministic in its
    seed.  [keystream seed i] is the [i]-th value drawn after seeding. *)
Class StreamCipher := { keystream : Z -> nat -> Z }.

Record PRNG : Type := mkPRNG { prng_seed : Z; prng_cnt : nat }.

Module Prng.
Section WithCipher.
Context {D : Z2k} {C : StreamCipher}.

Definition SetSeed (seed : Z) : PRNG := mkPRNG seed 0.

(** [get<T>()] / [T::randomize(G)]: the next ring element of the stream. *)
Definition get (G : PRNG) : Z * PRNG :=
  (Z2.wrap (keystream (prng_seed G) (prng_cnt G)),
   mkPRNG (prng_seed G) (S (prng_cnt G))).

Fixpoint draws (n : nat) (G : PRNG) : list Z :=
  match n with
  | O => []
  | S n' => let '(v, G') := get G in v :: draws n' G'
  end.
End WithCipher.
End Prng.

(** [ReplicatedBase]: the pair [shared_prngs]. *)
Record ReplicatedBase : Type := mkRep {
  shared_prngs0 : PRNG;
  shared_prngs1 : PRNG
}.

Module Replicated.
(** Modelled from the spec: [Player::pass_around(os, offset)] is not part
    of the sources at hand; every party sends its buffer to the party
    [offset] places up the ring and receives, in the same buffer, what
    the party [offset] places down the ring sent. *)
Definition pass_around {A} (num_players offset : Z) (sent : Z -> A)
           (my_num : Z) : A :=
  sent ((my_num - offset) mod num_players).

Section WithCipher.
Context {D : Z2k} {C : StreamCipher}.

(** [ReplicatedBase(Player& P)]: [own_seed] is what [ReSeed()] draws,
    [received] what [pass_around(os, 1)] leaves in [os]. *)
Definition ReplicatedBase_ctor (own_seed received : Z) : ReplicatedBase :=
  mkRep (Prng.SetSeed own_seed) (Prng.SetSeed received).

(** The three constructors run together; [seeds i] is the seed party
    [i] draws. *)
Definition setup (seeds : Z -> Z) (my_num : Z) : ReplicatedBase :=
  ReplicatedBase_ctor (seeds my_num) (pass_around 3 1 seeds my_num).

(** [shared_prngs[i].get<T>()] for [i] in {0, 1}. *)
Definition get_at (G : ReplicatedBase) (i : Z) : Z * ReplicatedBase :=
  if i =? 0
  then let '(v, g) := Prng.get (shared_prngs0 G) in
       (v, mkRep g (shared_prngs1 G))
  else let '(v, g) := Prng.get (shared_prngs1 G) in
       (v, mkRep (shared_prngs0 G) g).
End WithCipher.
End Replicated.

(* ===================================================================== *)
(** ** Result queue (Tools/PointerVector.h) *)
(* ===================================================================== *)

(** [IteratorVector<T>]: a vector with a read iterator [it], kept as an
    index from [begin()]. *)
Record IteratorVector (T : Type) : Type := mkIV {
  iv_elems : list T;
  iv_it : nat
}.
Arguments mkIV {T} iv_elems iv_it.
Arguments iv_elems {T} i.
Arguments iv_it {T} i.

Module IV.
Section Ops.
Context {T : Type}.

Definition empty : IteratorVector T := mkIV [] 0.
Definition size (v : IteratorVector T) : Z := Z.of_nat (length (iv_elems v)).
Definition clear (v : IteratorVector T) : IteratorVector T := mkIV [] 0.
Definition reset (v : IteratorVector T) : IteratorVector T :=
  mkIV (iv_elems v) 0.
Definition push_back (v : IteratorVector T) (x : T) : IteratorVector T :=
  mkIV (iv_elems v ++ [x]) (iv_it v).

(** [next()]: [*it++], unchecked. *)
Definition next (v : IteratorVector T) : outcome (T * IteratorVector T) :=
  match nth_error (iv_elems v) (iv_it v) with
  | Some x => Ok (x, mkIV (iv_elems v) (S (iv_it v)))
  | None => Undefined "IteratorVector::next past the end"
  end.
End Ops.
End IV.

(* ===================================================================== *)
(** ** Protocol base (Protocols/Astra.h, Astra.hpp, Replicated.hpp) *)
(* ===================================================================== *)

(** The per-share-type local multiplications the protocols dispatch on. *)
Class ShareType := {
  local_mul_P0 : FixedVec -> FixedVec -> outcome Z;
  local_mul_P1 : FixedVec -> FixedVec -> outcome Z;
  local_mul_P2 : FixedVec -> FixedVec -> outcome Z
}.

Definition AstraShare_type {D : Z2k} : ShareType := {|
  local_mul_P0 := AstraShare.local_mul_P0;
  local_mul_P1 := fun x y => Ok (AstraShare.local_mul_P1 x y);
  local_mul_P2 := fun x y => Ok (AstraShare.local_mul_P2 x y)
|}.

Definition AstraPrepShare_type {D : Z2k} : ShareType := {|
  local_mul_P0 := fun x y => Ok (AstraPrepShare.local_mul_P0 x y);
  local_mul_P1 := fun x y => Ok (AstraPrepShare.local_mul_P1 x y);
  local_mul_P2 := fun x y => Ok (AstraPrepShare.local_mul_P2 x y)
|}.

(** The members of [AstraBase<T>] the multiplication round uses. *)
Record AstraBase : Type := mkBase {
  inputs : list Z;
  input_pairs : list (FixedVec * FixedVec);
  results : IteratorVector FixedVec;
  n_mults : Z
}.

Module AstraBaseOps.
Section WithShare.
Context {D : Z2k} {S : ShareType}.

Definition initial : AstraBase := mkBase [] [] IV.empty 0.

Definition init_mul (b : AstraBase) : AstraBase :=
  mkBase [] [] (IV.clear (results b)) 0.

Definition prepare_mul (b : AstraBase) (x y : FixedVec) : AstraBase :=
  mkBase (inputs b) (input_pairs b ++ [(x, y)]) (results b) (n_mults b).

Definition init_dotprod (b : AstraBase) : AstraBase := init_mul b.

Definition prepare_dotprod (b : AstraBase) (x y : FixedVec) : AstraBase :=
  prepare_mul b x y.

(** The loop [inputs.back() += x[0].local_mul_P(x[1])] over [input_pairs],
    started from the default element. *)
Fixpoint accumulate (lm : FixedVec -> FixedVec -> outcome Z)
         (pairs : list (FixedVec * FixedVec)) (back : Z) : outcome Z :=
  match pairs with
  | [] => Ok back
  | x :: rest =>
      v <- lm (fst x) (snd x) ;;
      accumulate lm rest (Z2.add back v)
  end.

(** One expansion of the macro [X(Pi)] of [next_dotprod]. *)
Definition next_dotprod_X (my_astra_num Pi : Z)
           (lm : FixedVec -> FixedVec -> outcome Z) (b : AstraBase)
  : outcome AstraBase :=
  if my_astra_num =? Pi
  then back <- accumulate lm (input_pairs b) 0 ;;
       Ok (mkBase (inputs b ++ [back]) (input_pairs b) (results b) (n_mults b))
  else Ok b.

Definition next_dotprod (my_astra_num : Z) (b : AstraBase)
  : outcome AstraBase :=
  b0 <- next_dotprod_X my_astra_num 0 local_mul_P0 b ;;
  b1 <- next_dotprod_X my_astra_num 1 local_mul_P1 b0 ;;
  b2 <- next_dotprod_X my_astra_num 2 local_mul_P2 b1 ;;
  Ok (mkBase (inputs b2) [] (results b2) (size_t_wrap (n_mults b2 + 1))).

(** [Astra::finalize_mul(int)] and [AstraPrepProtocol::finalize_mul(int)]:
    [return this->results.next()]. *)
Definition finalize_mul (n : Z) (b : AstraBase)
  : outcome (FixedVec * AstraBase) :=
  '(r, res') <- IV.next (results b) ;;
  Ok (r, mkBase (inputs b) (input_pairs b) res' (n_mults b)).

(** [AstraBase::finalize_dotprod(int)]: [return this->finalize_mul()],
    the argument of [finalize_mul] defaulting to -1. *)
Definition finalize_dotprod (length : Z) (b : AstraBase)
  : outcome (FixedVec * AstraBase) :=
  finalize_mul (-1) b.
End WithShare.
End AstraBaseOps.

(** [ProtocolBase<T>]: the counters of the generic base class, over any
    protocol state [St] with a [finalize_mul]. *)
Record ProtocolBase (St : Type) : Type := mkProto {
  counter : Z;
  dot_counter : Z;
  proto_state : St
}.
Arguments mkProto {St} counter dot_counter proto_state.
Arguments counter {St} p.
Arguments dot_counter {St} p.
Arguments proto_state {St} p.

Module ProtocolBaseOps.
Section Generic.
Context {D : Z2k} {St : Type}.
Variable finalize_mul : St -> outcome (FixedVec * St).

(** The loop [for (int i = 0; i < length; i++) res += finalize_mul()]. *)
Fixpoint sum_results (n : nat) (res : FixedVec) (st : St)
  : outcome (FixedVec * St) :=
  match n with
  | O => Ok (res, st)
  | S n' =>
      '(r, st') <- finalize_mul st ;;
      sum_results n' (FixedVec_add res r) st'
  end.

(** [ProtocolBase<T>::finalize_dotprod(int length)]. *)
Definition finalize_dotprod (length : Z) (p : ProtocolBase St)
  : outcome (FixedVec * ProtocolBase St) :=
  let counter' := counter p + length in
  let dot_counter' := dot_counter p + 1 in
  '(res, st') <- sum_results (Z.to_nat length) FixedVec_zero (proto_state p) ;;
  Ok (res, mkProto counter' dot_counter' st').
End Generic.
End ProtocolBaseOps.

(* ===================================================================== *)
(** ** Preprocessing protocol (AstraPrepProtocol, Astra.hpp) *)
(* ===================================================================== *)

Record AstraPrepProtocol : Type := mkPrep {
  prep_base : AstraBase;
  prep_my_num : Z;                  (* [my_num = P.my_num()] *)
  prep_os : octetStream;            (* [os] *)
  prep_os_prep : octetStream;       (* [os_prep] *)
  prng_protocol : ReplicatedBase;
  prep_file : list byte             (* what [ofstream prep] holds *)
}.

Module AstraPrep.
Section WithCipher.
Context {D : Z2k} {C : StreamCipher}.
#[local] Existing Instance AstraPrepShare_type.

(** The locals and members one iteration of the loops of [pre] touches. *)
Record loop_state : Type := mkLoop {
  l_res : FixedVec;
  l_gamma : Z;
  l_os : octetStream;
  l_os_prep : octetStream;
  l_prng : ReplicatedBase;
  l_results : IteratorVector FixedVec
}.

(** [pre_element<my_num>(res)]. *)
Definition pre_element (my_num : Z) (l : loop_state) : loop_state :=
  if my_num =? 0 then
    let '(r0, g0) := Replicated.get_at (l_prng l) 0 in
    let '(r1, g1) := Replicated.get_at g0 1 in
    mkLoop (mkVec r0 r1) (l_gamma l) (l_os l) (l_os_prep l) g1 (l_results l)
  else
    let '(r1, g1) := Replicated.get_at (l_prng l) (2 - my_num) in
    mkLoop (mkVec (limb0 (l_res l)) r1) (l_gamma l) (l_os l) (l_os_prep l)
           g1 (l_results l).

(** [post(res, gamma)]. *)
Definition post (os_prep : octetStream) (res : FixedVec) (gamma : Z)
  : outcome octetStream :=
  o1 <- OS.store_no_resize os_prep gamma ;;
  OS.store_no_resize o1 (limb1 res).

(** [pre_gamma<my_num>(res, gamma, input)]. *)
Definition pre_gamma (my_num : Z) (l : loop_state) (input : Z)
  : outcome loop_state :=
  if my_num <? 2 then
    let '(gamma, g) := Replicated.get_at (l_prng l) my_num in
    if my_num =? 0 then
      o <- OS.store_no_resize (l_os l) (Z2.sub input gamma) ;;
      Ok (mkLoop (l_res l) gamma o (l_os_prep l) g (l_results l))
    else
      o <- post (l_os_prep l) (l_res l) gamma ;;
      Ok (mkLoop (l_res l) gamma (l_os l) o g (l_results l))
  else Ok l.

(** The body shared by the two loops of [pre]. *)
Definition pre_step (my_num : Z) (l : loop_state) (input : Z)
  : outcome loop_state :=
  let l1 := pre_element my_num l in
  l2 <- pre_gamma my_num l1 input ;;
  Ok (mkLoop (l_res l2) (l_gamma l2) (l_os l2) (l_os_prep l2) (l_prng l2)
             (IV.push_back (l_results l2) (l_res l2))).

Fixpoint pre_inputs (my_num : Z) (ins : list Z) (l : loop_state)
  : outcome loop_state :=
  match ins with
  | [] => Ok l
  | input :: rest =>
      l' <- pre_step my_num l input ;;
      pre_inputs my_num rest l'
  end.

(** The macro [X(I)] inside the second loop: the local product of party
    [my_num]; the default value when [my_num] is none of 0, 1, 2. *)
Definition local_mul_for_party (my_num : Z) (x : FixedVec * FixedVec)
  : outcome Z :=
  i0 <- (if my_num =? 0 then local_mul_P0 (fst x) (snd x) else Ok 0) ;;
  i1 <- (if my_num =? 1 then local_mul_P1 (fst x) (snd x) else Ok i0) ;;
  if my_num =? 2 then local_mul_P2 (fst x) (snd x) else Ok i1.

Fixpoint pre_pairs (my_num : Z) (pairs : list (FixedVec * FixedVec))
         (l : loop_state) : outcome loop_state :=
  match pairs with
  | [] => Ok l
  | x :: rest =>
      input <- local_mul_for_party my_num x ;;
      l' <- pre_step my_num l input ;;
      pre_pairs my_num rest l'
  end.

(** [pre<my_num>()]. *)
Definition pre (my_num : Z) (st : AstraPrepProtocol)
  : outcome AstraPrepProtocol :=
  let b := prep_base st in
  let n_mults' := size_t_wrap (n_mults b + Z.of_nat (length (input_pairs b))) in
  let os' := if my_num =? 0
             then OS.reserve (OS.clear (prep_os st))
                             (size_t_wrap (n_mults' * Z2.size))
             else prep_os st in
  let os_prep' := if my_num =? 0 then prep_os_prep st
                  else OS.reserve (OS.clear (prep_os_prep st))
                                  (size_t_wrap (size_t_wrap (n_mults' * 2) * Z2.size)) in
  let l0 := mkLoop FixedVec_zero 0 os' os_prep' (prng_protocol st) (results b) in
  l1 <- pre_inputs my_num (inputs b) l0 ;;
  l2 <- pre_pairs my_num (input_pairs b) l1 ;;
  Ok (mkPrep (mkBase (inputs b) (input_pairs b) (l_results l2) n_mults')
             (prep_my_num st) (l_os l2) (l_os_prep l2) (l_prng l2)
             (prep_file st)).

(** The loop [for (auto& res : results) post(res, os.get_no_check())]. *)
Fixpoint post_all (rs : list FixedVec) (os os_prep : octetStream)
  : outcome (octetStream * octetStream) :=
  match rs with
  | [] => Ok (os, os_prep)
  | res :: rest =>
      '(gamma, os') <- OS.get_no_check os ;;
      os_prep' <- post os_prep res gamma ;;
      post_all rest os' os_prep'
  end.

(** [store(const octetStream& os)]: parties 1 and 2 append the record to
    their tape. *)
Definition store (st_my_num : Z) (file : list byte) (os : octetStream)
  : list byte :=
  if st_my_num >? 0 then OS.output os file else file.

(** [exchange()].  [incoming] is the content [P.receive_player(0, os)]
    delivers (read by party 2 only); the second component of the result
    is the content [P.send_to(2, os)] ships (party 0 only). *)
Definition exchange (st : AstraPrepProtocol) (incoming : list byte)
  : outcome (AstraPrepProtocol * option (list byte)) :=
  let my_num := prep_my_num st in
  _ <- assert (IV.size (results (prep_base st)) =? 0) "results.size() == 0" ;;
  st1 <- (if (my_num =? 0) || (my_num =? 1) || (my_num =? 2)
          then pre my_num st else Ok st) ;;
  let sent := if my_num =? 0 then Some (os_data (prep_os st1)) else None in
  let os1 := if my_num =? 0 then prep_os st1
             else if my_num =? 2 then OS.Receive (prep_os st1) incoming
             else prep_os st1 in
  let rs := results (prep_base st1) in
  '(os2, os_prep2) <-
    (if my_num =? 2 then
       _ <- throw_if (OS.left os1 <? size_t_wrap (Z2.size * IV.size rs))
                     "insufficient data in Astra" ;;
       post_all (iv_elems rs) os1 (prep_os_prep st1)
     else Ok (os1, prep_os_prep st1)) ;;
  let file' := store my_num (prep_file st1) os_prep2 in
  let b1 := prep_base st1 in
  Ok (mkPrep (mkBase (inputs b1) (input_pairs b1) (IV.reset rs) (n_mults b1))
             my_num os2 os_prep2 (prng_protocol st1) file',
      sent).

Definition finalize_mul (st : AstraPrepProtocol)
  : outcome (FixedVec * AstraPrepProtocol) :=
  '(r, b') <- AstraBaseOps.finalize_mul (-1) (prep_base st) ;;
  Ok (r, mkPrep b' (prep_my_num st) (prep_os st) (prep_os_prep st)
                (prng_protocol st) (prep_file st)).
End WithCipher.
End AstraPrep.

(* ===================================================================== *)
(** ** Online protocol (Astra, Astra.hpp) *)
(* ===================================================================== *)

Record Astra : Type := mkAstra {
  on_base : AstraBase;
  astra_num : Z;                   (* [astra_num = P.my_num() + 1] *)
  on_os : octetStream;             (* [os] *)
  on_os_prep : octetStream;        (* [os_prep] *)
  on_prep : list byte              (* the unread part of [ifstream prep] *)
}.

Module AstraOnline.
Section WithDomain.
Context {D : Z2k}.
#[local] Existing Instance AstraShare_type.

(** [Astra(Player& P)]. *)
Definition create (P_my_num : Z) (tape : list byte) : Astra :=
  mkAstra AstraBaseOps.initial (P_my_num + 1) OS.empty OS.empty tape.

(** [AstraOnlineBase::read(octetStream&)]: the next record of the tape;
    after a successful [input] the file stream is [good()]. *)
Definition read (os : octetStream) (tape : list byte)
  : outcome (octetStream * list byte) :=
  OS.input os tape.

(** [pre(input)]: returns the share [res] and the two buffers. *)
Definition pre (my_num : Z) (os os_prep : octetStream) (input : Z)
  : outcome (FixedVec * octetStream * octetStream) :=
  '(gamma, os_prep1) <- OS.get_no_check os_prep ;;
  let res := FixedVec_zero in
  '(r1, os_prep2) <- OS.get_no_check os_prep1 ;;
  let res := mkVec (limb0 res) r1 in
  let m_z := Z2.add (Z2.sub input (AstraShare.neg_lambda res my_num)) gamma in
  os' <- OS.store_no_resize os m_z ;;
  let res := AstraShare.set_m res my_num m_z in
  Ok (res, os', os_prep2).

(** [for (auto& input : inputs) results.push_back(pre(input))]. *)
Fixpoint pre_inputs (my_num : Z) (ins : list Z)
         (rs : IteratorVector FixedVec) (os os_prep : octetStream)
  : outcome (IteratorVector FixedVec * octetStream * octetStream) :=
  match ins with
  | [] => Ok (rs, os, os_prep)
  | input :: rest =>
      '(res, os', os_prep') <- pre my_num os os_prep input ;;
      pre_inputs my_num rest (IV.push_back rs res) os' os_prep'
  end.

(** [for (auto& x : input_pairs) results.push_back(pre(x[0].local_mul(x[1])))]. *)
Fixpoint pre_pairs (my_num : Z) (lm : FixedVec -> FixedVec -> outcome Z)
         (pairs : list (FixedVec * FixedVec))
         (rs : IteratorVector FixedVec) (os os_prep : octetStream)
  : outcome (IteratorVector FixedVec * octetStream * octetStream) :=
  match pairs with
  | [] => Ok (rs, os, os_prep)
  | x :: rest =>
      v <- lm (fst x) (snd x) ;;
      '(res, os', os_prep') <- pre my_num os os_prep v ;;
      pre_pairs my_num lm rest (IV.push_back rs res) os' os_prep'
  end.

(** [for (auto& res : results) res.m(my_num) += recv_os.get_no_check()]. *)
Fixpoint add_received (my_num : Z) (rs : list FixedVec) (recv_os : octetStream)
  : outcome (list FixedVec * octetStream) :=
  match rs with
  | [] => Ok ([], recv_os)
  | res :: rest =>
      '(v, recv_os') <- OS.get_no_check recv_os ;;
      let res' := AstraShare.set_m res my_num
                    (Z2.add (AstraShare.m res my_num) v) in
      '(rest', recv_os'') <- add_received my_num rest recv_os' ;;
      Ok (res' :: rest', recv_os'')
  end.

(** [exchange()] up to the call [P.exchange(1 - P.my_num(), os, recv_os)]:
    the state reached and the content of [os] handed to the network
    ([None] when [my_astra_num()] is not positive and nothing is sent). *)
Definition exchange_prepare (st : Astra)
  : outcome (Astra * option (list byte)) :=
  let b := on_base st in
  _ <- assert (IV.size (results b) =? 0) "results.size() == 0" ;;
  let n_mults_ := size_t_wrap (Z.of_nat (length (inputs b))
                               + Z.of_nat (length (input_pairs b))) in
  let my_num := astra_num st in
  if my_num >? 0 then
    '(os_prep, tape) <- read (on_os_prep st) (on_prep st) ;;
    let os := OS.reserve (OS.clear (on_os st))
                         (size_t_wrap (n_mults_ * Z2.size)) in
    _ <- throw_if (OS.left os_prep <? size_t_wrap (Z2.size * n_mults_))
                  "insufficient preprocessing" ;;
    '(rs1, os1, os_prep1) <- pre_inputs my_num (inputs b) (results b) os os_prep ;;
    '(rs2, os2, os_prep2) <-
      (if my_num =? 1
       then pre_pairs my_num local_mul_P1 (input_pairs b) rs1 os1 os_prep1
       else pre_pairs my_num local_mul_P2 (input_pairs b) rs1 os1 os_prep1) ;;
    Ok (mkAstra (mkBase (inputs b) (input_pairs b) rs2 (n_mults b))
                my_num os2 os_prep2 tape,
        Some (os_data os2))
  else Ok (st, None).

(** The rest of [exchange()]: [incoming] is the content the network
    delivers into the fresh [recv_os]. *)
Definition exchange_finish (st : Astra) (incoming : list byte)
  : outcome Astra :=
  let b := on_base st in
  let my_num := astra_num st in
  rs <-
    (if my_num >? 0 then
       let recv_os := OS.Receive OS.empty incoming in
       _ <- throw_if (OS.left recv_os <? size_t_wrap (Z2.size * IV.size (results b)))
                     "insufficient data in Astra" ;;
       '(elems, _) <- add_received my_num (iv_elems (results b)) recv_os ;;
       _ <- assert (OS.left (on_os_prep st) =? 0) "not os_prep.left()" ;;
       Ok (mkIV elems (iv_it (results b)))
     else Ok (results b)) ;;
  Ok (mkAstra (mkBase (inputs b) (input_pairs b) (IV.reset rs) (n_mults b))
              my_num (on_os st) (on_os_prep st) (on_prep st)).

(** [exchange()] as a whole. *)
Definition exchange (st : Astra) (incoming : list byte)
  : outcome (Astra * option (list byte)) :=
  '(st1, sent) <- exchange_prepare st ;;
  st2 <- exchange_finish st1 incoming ;;
  Ok (st2, sent).

Definition init_mul (st : Astra) : Astra :=
  mkAstra (AstraBaseOps.init_mul (on_base st)) (astra_num st) (on_os st)
          (on_os_prep st) (on_prep st).

Definition prepare_mul (st : Astra) (x y : FixedVec) : Astra :=
  mkAstra (AstraBaseOps.prepare_mul (on_base st) x y) (astra_num st)
          (on_os st) (on_os_prep st) (on_prep st).

Definition finalize_mul (st : Astra) : outcome (FixedVec * Astra) :=
  '(r, b') <- AstraBaseOps.finalize_mul (-1) (on_base st) ;;
  Ok (r, mkAstra b' (astra_num st) (on_os st) (on_os_prep st) (on_prep st)).
End WithDomain.
End AstraOnline.

(* ===================================================================== *)
(** ** The parties run together *)
(* ===================================================================== *)

(** A sharing as the five roles hold it: the helper and the two
    preprocessing parties during preprocessing, the two online parties
    during evaluation. *)
Record Sharing : Type := mkSharing {
  helper0 : FixedVec;     (* preprocessing role of party 0 *)
  prep1 : FixedVec;       (* preprocessing role of party 1 *)
  prep2 : FixedVec;       (* preprocessing role of party 2 *)
  online1 : FixedVec;     (* online party 1 *)
  online2 : FixedVec      (* online party 2 *)
}.

Module System.
Section WithCipher.
Context {D : Z2k} {C : StreamCipher}.

(** [AstraPrepProtocol(Player& P)] on a fresh tape. *)
Definition prep_create (my_num : Z) (G : ReplicatedBase) : AstraPrepProtocol :=
  mkPrep AstraBaseOps.initial my_num OS.empty OS.empty G [].

Definition prep_init_mul (st : AstraPrepProtocol) : AstraPrepProtocol :=
  mkPrep (AstraBaseOps.init_mul (prep_base st)) (prep_my_num st) (prep_os st)
         (prep_os_prep st) (prng_protocol st) (prep_file st).

Definition prep_prepare_mul (st : AstraPrepProtocol) (x y : FixedVec)
  : AstraPrepProtocol :=
  mkPrep (AstraBaseOps.prepare_mul (prep_base st) x y) (prep_my_num st)
         (prep_os st) (prep_os_prep st) (prng_protocol st) (prep_file st).

Definition payload (sent : option (list byte)) : list byte :=
  match sent with Some bs => bs | None => [] end.

(** The three [AstraPrepProtocol::exchange] calls of one round: party 0
    ships its buffer to party 2. *)
Definition prep_round (p0 p1 p2 : AstraPrepProtocol)
  : outcome (AstraPrepProtocol * AstraPrepProtocol * AstraPrepProtocol) :=
  '(p0', sent0) <- AstraPrep.exchange p0 [] ;;
  '(p1', _) <- AstraPrep.exchange p1 [] ;;
  '(p2', _) <- AstraPrep.exchange p2 (payload sent0) ;;
  Ok (p0', p1', p2').

(** The two [Astra::exchange] calls of one round: parties 1 and 2 swap
    their buffers. *)
Definition online_round (a1 a2 : Astra) : outcome (Astra * Astra) :=
  '(a1', sent1) <- AstraOnline.exchange_prepare a1 ;;
  '(a2', sent2) <- AstraOnline.exchange_prepare a2 ;;
  a1'' <- AstraOnline.exchange_finish a1' (payload sent2) ;;
  a2'' <- AstraOnline.exchange_finish a2' (payload sent1) ;;
  Ok (a1'', a2'').

(** [ProtocolBase::mul(x, y)] on every preprocessing role: [init_mul],
    [prepare_mul], [exchange], [finalize_mul]. *)
Definition prep_mul (p0 p1 p2 : AstraPrepProtocol) (x y : Sharing)
  : outcome (AstraPrepProtocol * AstraPrepProtocol * AstraPrepProtocol
             * (FixedVec * FixedVec * FixedVec)) :=
  let q0 := prep_prepare_mul (prep_init_mul p0) (helper0 x) (helper0 y) in
  let q1 := prep_prepare_mul (prep_init_mul p1) (prep1 x) (prep1 y) in
  let q2 := prep_prepare_mul (prep_init_mul p2) (prep2 x) (prep2 y) in
  '(q0, q1, q2) <- prep_round q0 q1 q2 ;;
  '(z0, q0) <- AstraPrep.finalize_mul q0 ;;
  '(z1, q1) <- AstraPrep.finalize_mul q1 ;;
  '(z2, q2) <- AstraPrep.finalize_mul q2 ;;
  Ok (q0, q1, q2, (z0, z1, z2)).

(** [ProtocolBase::mul(x, y)] on the two online parties. *)
Definition online_mul (a1 a2 : Astra) (x y : Sharing)
  : outcome (Astra * Astra * (FixedVec * FixedVec)) :=
  let b1 := AstraOnline.prepare_mul (AstraOnline.init_mul a1) (online1 x) (online1 y) in
  let b2 := AstraOnline.prepare_mul (AstraOnline.init_mul a2) (online2 x) (online2 y) in
  '(b1, b2) <- online_round b1 b2 ;;
  '(z1, b1) <- AstraOnline.finalize_mul b1 ;;
  '(z2, b2) <- AstraOnline.finalize_mul b2 ;;
  Ok (b1, b2, (z1, z2)).

(** Opening one value: both online parties run [AstraMC::exchange] and
    receive each other's summand ([P.my_num()] is 0 on online party 1
    and 1 on online party 2). *)
Definition Open (s1 s2 : FixedVec) : outcome (Z * Z) :=
  v1 <- AstraMC.exchange 0 [s1] (AstraMC.summands 1 [s2]) ;;
  v2 <- AstraMC.exchange 1 [s2] (AstraMC.summands 0 [s1]) ;;
  match v1, v2 with
  | [a], [b] => Ok (a, b)
  | _, _ => Undefined "one value per secret"
  end.

(** Preprocessing of one multiplication on fresh tapes, then the online
    multiplication from these tapes: the sharing of the product as the
    five roles hold it.  [G0], [G1], [G2] are the generator pairs of the
    three preprocessing parties. *)
Definition multiply_with (G0 G1 G2 : ReplicatedBase) (x y : Sharing)
  : outcome Sharing :=
  let p0 := prep_create 0 G0 in
  let p1 := prep_create 1 G1 in
  let p2 := prep_create 2 G2 in
  '(_, q1, q2, (z0, zp1, zp2)) <- prep_mul p0 p1 p2 x y ;;
  let a1 := AstraOnline.create 0 (prep_file q1) in
  let a2 := AstraOnline.create 1 (prep_file q2) in
  '(_, _, (z1, z2)) <- online_mul a1 a2 x y ;;
  Ok (mkSharing z0 zp1 zp2 z1 z2).

(** The same after the setup of [ReplicatedBase] from the seeds the
    parties draw. *)
Definition multiply (seeds : Z -> Z) (x y : Sharing) : outcome Sharing :=
  multiply_with (Replicated.setup seeds 0) (Replicated.setup seeds 1)
                (Replicated.setup seeds 2) x y.

(** ... and the opening of the product by the two online parties. *)
Definition multiply_and_open (seeds : Z -> Z) (x y : Sharing)
  : outcome (Z * Z) :=
  z <- multiply seeds x y ;;
  Open (online1 z) (online2 z).
End WithCipher.
End System.

(** A cipher for running the model on concrete inputs: the [i]-th value of
    the stream keyed by [seed] is [seed * 1000003 + i]. *)
Definition counter_cipher : StreamCipher :=
  {| keystream := fun seed i => seed * 1000003 + Z.of_nat i |}.

(* ===================================================================== *)
(** ** Truncation tuples (Processor/TruncPrTuple.h) *)
(* ===================================================================== *)

(** What the tuple classes ask of the clear type [T]: [T::N_BITS],
    [T::n_bits()] and [T::prime_field]. *)
Class ClearType := {
  T_N_BITS : Z;
  T_n_bits : Z;
  T_prime_field : bool
}.

(** The clear type [SignedZ2<K>] of the ring engine. *)
Definition ring_clear (D : Z2k) : ClearType :=
  {| T_N_BITS := Z.of_nat N_BITS; T_n_bits := Z.of_nat N_BITS;
     T_prime_field := false |}.

(** The option of [OnlineOptions::singleton] the tuples read. *)
Record OnlineOptions : Type := mkOptions { trunc_error : Z }.

(** Modelled from the spec: the constructor of [OnlineOptions] is not part
    of the sources at hand; the statistical-security parameter defaults
    to 40. *)
Definition default_options : OnlineOptions := mkOptions 40.

Record TruncPrTuple : Type := mkTuple {
  dest_base : Z;
  source_base : Z;
  tp_k : Z;
  tp_m : Z;
  n_shift : Z
}.

Record TruncPrTupleWithGap : Type := mkGap {
  tuple : TruncPrTuple;
  big_gap_ : bool
}.

Module TruncPr.
Section WithClear.
Context {T : ClearType}.
(** [trunc_pr_check(k, m, n_bits)] is declared in the header and defined
    elsewhere; it either returns or throws. *)
Variable trunc_pr_check : Z -> Z -> Z -> outcome unit.
Variable opts : OnlineOptions.

(** [TruncPrTuple(vector<int>::const_iterator it)]: four unchecked reads
    [*it++]. *)
Definition TruncPrTuple_ctor (it : list Z) : outcome TruncPrTuple :=
  match it with
  | d :: s :: k :: m :: _ =>
      let n_shift := T_N_BITS - 1 - k in
      _ <- trunc_pr_check k m T_n_bits ;;
      _ <- assert (m <? k) "m < k" ;;
      _ <- assert (0 <? k) "0 < k" ;;
      _ <- assert (m <? T_n_bits) "m < T::n_bits()" ;;
      Ok (mkTuple d s k m n_shift)
  | _ => Undefined "iterator past the end of regs"
  end.

Definition big_gap (t : TruncPrTupleWithGap) : bool := big_gap_ t.
Definition small_gap (t : TruncPrTupleWithGap) : bool := negb (big_gap t).

(** [TruncPrTupleWithGap(vector<int>::const_iterator it)]. *)
Definition TruncPrTupleWithGap_ctor (it : list Z)
  : outcome TruncPrTupleWithGap :=
  base <- TruncPrTuple_ctor it ;;
  let t := mkGap base (tp_k base <=? T_n_bits - trunc_error opts) in
  _ <- throw_if (T_prime_field && small_gap t)
                "domain too small for chosen truncation error" ;;
  Ok t.

(** [TruncPrTupleWithGap(const vector<int>& regs, size_t base)]. *)
Definition TruncPrTupleWithGap_at (regs : list Z) (base : nat)
  : outcome TruncPrTupleWithGap :=
  TruncPrTupleWithGap_ctor (skipn base regs).

(** [TruncPrTupleList::get_big_gap()] and [get_small_gap()]. *)
Definition get_big_gap (l : list TruncPrTupleWithGap) : list TruncPrTupleWithGap :=
  filter big_gap l.
Definition get_small_gap (l : list TruncPrTupleWithGap) : list TruncPrTupleWithGap :=
  filter small_gap l.

End WithClear.
End TruncPr.

(* ===================================================================== *)
(** ** Tape and message contents, for stating properties *)
(* ===================================================================== *)

Section Contents.
Context {D : Z2k}.

(** The bytes of a sequence of limbs, in order and without framing. *)
Definition limbs_bytes (vs : list Z) : list byte :=
  flat_map Z2.to_bytes vs.

(** The bytes of a sequence of pairs [(gamma, t)] as [post] writes them:
    first [gamma], then the limb kept as [res[1]]. *)
Definition pairs_bytes (gts : list (Z * Z)) : list byte :=
  flat_map (fun gt => Z2.to_bytes (fst gt) ++ Z2.to_bytes (snd gt)) gts.

(** The value [Astra::pre] forms from the local product [V] and the pair
    [(gamma, t)] read from the tape: [input - res.neg_lambda + gamma]. *)
Definition M_z (V gamma t : Z) : Z := Z2.add (Z2.sub V t) gamma.

(** The local product [Astra::exchange] hands to [pre] on online party
    [i]: [local_mul_P1] on party 1, [local_mul_P2] otherwise. *)
Definition online_local_mul (i : Z) (x : FixedVec * FixedVec) : Z :=
  if i =? 1 then AstraShare.local_mul_P1 (fst x) (snd x)
  else AstraShare.local_mul_P2 (fst x) (snd x).

(** The shares [Astra::pre] returns over a batch of local products. *)
Fixpoint online_shares (Vs : list Z) (gts : list (Z * Z)) : list FixedVec :=
  match Vs, gts with
  | V :: Vs', gt :: gts' =>
      mkVec (M_z V (Z2.wrap (fst gt)) (Z2.wrap (snd gt))) (Z2.wrap (snd gt))
      :: online_shares Vs' gts'
  | _, _ => []
  end.

(** The shares after the received values have been added to the m-limbs. *)
Fixpoint add_to_m (rs : list FixedVec) (received : list Z) : list FixedVec :=
  match rs, received with
  | r :: rs', v :: received' =>
      mkVec (Z2.add (limb0 r) (Z2.wrap v)) (limb1 r) :: add_to_m rs' received'
  | _, _ => []
  end.

(** A sharing is well formed when the two online parties hold the same
    masked value and the helper holds, limb for limb, the mask shares of
    the two online parties (the helper draws limb [i] from the generator
    it shares with the party that draws its own [res[1]] from it). *)
Definition well_formed (s : Sharing) : Prop :=
  limb0 (online1 s) = limb0 (online2 s) /\
  limb0 (helper0 s) = limb1 (online1 s) /\
  limb1 (helper0 s) = limb1 (online2 s).

(** The value a sharing stands for: [m - lambda1 - lambda2], the mask
    shares being kept negated in limb 1. *)
Definition shared_value (s : Sharing) : Z :=
  Z2.wrap (limb0 (online1 s) + limb1 (online1 s) + limb1 (online2 s)).
End Contents.

Section ProductContents.
Context {D : Z2k} {C : StreamCipher}.

(** The sharing one multiplication produces, in terms of the three
    values the parties draw from their shared generators. *)
Definition product_sharing (seeds : Z -> Z) (x y : Sharing) : Sharing :=
  let gamma := Z2.wrap (keystream (seeds 0) 1) in
  let t1 := Z2.wrap (keystream (seeds 0) 0) in
  let t2 := Z2.wrap (keystream (seeds 2) 0) in
  let d := Z2.sub (AstraPrepShare.local_mul_P0 (helper0 x) (helper0 y)) gamma in
  let M1 := M_z (AstraShare.local_mul_P1 (online1 x) (online1 y)) gamma t1 in
  let M2 := M_z (AstraShare.local_mul_P2 (online2 x) (online2 y)) d t2 in
  mkSharing (mkVec t1 t2) (mkVec 0 t1) (mkVec 0 t2)
            (mkVec (Z2.add M1 M2) t1) (mkVec (Z2.add M2 M1) t2).

(** A read head that has moved stayed inside the content. *)
Definition advanced (o o' : octetStream) (l : Z) : Prop :=
  os_data o' = os_data o /\ os_ptr o' = os_ptr o + l /\
  os_max_length o' = os_max_length o /\
  (0 <= os_ptr o <= OS.get_length o -> 0 <= os_ptr o' <= OS.get_length o').
End ProductContents.

(* ===================================================================== *)
(** ** Wire buffer: checked access, integers and bit packing
       (Tools/octetStream.h, Tools/octetStream.cpp) *)
(* ===================================================================== *)

(** Arithmetic on [uint8_t]. *)
Definition uint8_wrap (z : Z) : Z := z mod 2 ^ 8.

(** [BitBuffer]: a byte under construction, [n] of its bits in use. *)
Record BitBuffer : Type := mkBits { bb_n : Z; bb_buffer : Z }.

(** The buffer together with [bits]: [bits[0]] packs on the write side,
    [bits[1]] unpacks on the read side. *)
Record octetStreamBits : Type := mkOSB {
  osb_stream : octetStream;
  osb_bits0 : BitBuffer;
  osb_bits1 : BitBuffer
}.

Module OSB.
(** [octetStream()]: nothing allocated, both bit buffers empty. *)
Definition empty : octetStreamBits :=
  mkOSB OS.empty (mkBits 0 0) (mkBits 0 0).

(** [resize(l)]: at least doubles the request. *)
Definition resize (s : octetStream) (l : Z) : octetStream :=
  if l <? OS.get_max_length s then s
  else OS.resize_precise s (size_t_wrap (2 * l)).

(** [require<T>(n_items)]. *)
Definition require {D : Z2k} (s : octetStream) (n_items : Z) : outcome unit :=
  throw_if (OS.left s <? size_t_wrap (n_items * Z2.size)) "insufficient data".

(** What [reset_read_head()] and [reset_write_head()] do to the pointers. *)
Definition reset_read_head_stream (s : octetStream) : octetStream :=
  mkOS (os_data s) 0 (os_max_length s).
Definition reset_write_head_stream (s : octetStream) : octetStream :=
  reset_read_head_stream (mkOS [] (os_ptr s) (os_max_length s)).

(** [reset_read_head()]: [ptr = data; bits[1].n = 0]. *)
Definition reset_read_head (o : octetStreamBits) : octetStreamBits :=
  mkOSB (reset_read_head_stream (osb_stream o)) (osb_bits0 o)
        (mkBits 0 (bb_buffer (osb_bits1 o))).

(** [reset_write_head()]: [end = data; bits[0].n = 0; reset_read_head()]. *)
Definition reset_write_head (o : octetStreamBits) : octetStreamBits :=
  reset_read_head
    (mkOSB (mkOS [] (os_ptr (osb_stream o)) (os_max_length (osb_stream o)))
           (mkBits 0 (bb_buffer (osb_bits0 o))) (osb_bits1 o)).

(** [append(l)] once pending bits are out of the way, and the copy of [x]
    to the region it returns: the allocation grows when [end + l] passes
    [data_end]. *)
Definition append_stream (s : octetStream) (x : list byte)
  : outcome octetStream :=
  let l := Z.of_nat (length x) in
  let s1 := if OS.get_length s + l >? OS.get_max_length s
            then resize s (size_t_wrap (OS.get_length s + l)) else s in
  if OS.get_length s1 + l <=? OS.get_max_length s1
  then Ok (mkOS (os_data s1 ++ x) (os_ptr s1) (os_max_length s1))
  else Undefined "append beyond the allocation".

(** [flush_bits()]: the counter is already zero when [store_int<1>] runs,
    so the [append] inside it goes straight to the copy of the low byte
    of [htole64(buffer)]. *)
Definition flush_bits (o : octetStreamBits) : outcome octetStreamBits :=
  s <- append_stream (osb_stream o)
         (firstn 1 (le_split 8 (bb_buffer (osb_bits0 o)))) ;;
  Ok (mkOSB s (mkBits 0 0) (osb_bits1 o)).

(** [append(x, l)]: pending bits are flushed first. *)
Definition append (o : octetStreamBits) (x : list byte)
  : outcome octetStreamBits :=
  o1 <- (if bb_n (osb_bits0 o) =? 0 then Ok o else flush_bits o) ;;
  s <- append_stream (osb_stream o1) x ;;
  Ok (mkOSB s (osb_bits0 o1) (osb_bits1 o1)).

(** [concat(os)]. *)
Definition concat (o : octetStreamBits) (other : octetStream)
  : outcome octetStreamBits :=
  append o (os_data other).

(** [consume(l)]: the checked read. *)
Definition consume (o : octetStreamBits) (l : Z)
  : outcome (list byte * octetStreamBits) :=
  let s := osb_stream o in
  _ <- throw_if (os_ptr s + l >? OS.get_length s) "insufficient data" ;;
  '(bs, s') <- OS.consume_no_check s l ;;
  Ok (bs, mkOSB s' (osb_bits0 o) (mkBits 0 (bb_buffer (osb_bits1 o)))).

(** [store_int<N_BYTES>(l)]: the first [N_BYTES] bytes of [htole64(l)]. *)
Definition store_int (N_BYTES : nat) (o : octetStreamBits) (l : Z)
  : outcome octetStreamBits :=
  _ <- assert (Z.of_nat N_BYTES <=? 8) "N_BYTES <= 8" ;;
  append o (firstn N_BYTES (le_split 8 l)).

(** [get_int<N_BYTES>()]: [N_BYTES] bytes copied over a zeroed [size_t],
    read in little-endian order. *)
Definition get_int (N_BYTES : nat) (o : octetStreamBits)
  : outcome (Z * octetStreamBits) :=
  _ <- assert (Z.of_nat N_BYTES <=? 8) "N_BYTES <= 8" ;;
  '(bs, o') <- consume o (Z.of_nat N_BYTES) ;;
  Ok (le_combine (bs ++ skipn N_BYTES (le_split 8 0)), o').

(** [store_bits<N_BITS>(a)]. *)
Definition store_bits_N (N_BITS : Z) (o : octetStreamBits) (a : Z)
  : outcome octetStreamBits :=
  o1 <- (if bb_n (osb_bits0 o) >? 8 - N_BITS then append o [] else Ok o) ;;
  let n := bb_n (osb_bits0 o1) in
  let buffer := bb_buffer (osb_bits0 o1) in
  let buffer' :=
    uint8_wrap (Z.lor buffer
                  (Z.shiftl (Z.land a (Z.shiftl 1 N_BITS - 1)) n)) in
  Ok (mkOSB (osb_stream o1) (mkBits (uint8_wrap (n + N_BITS)) buffer')
            (osb_bits1 o1)).

(** [get_bits<N_BITS>()]. *)
Definition get_bits_N (N_BITS : Z) (o : octetStreamBits)
  : outcome (Z * octetStreamBits) :=
  o1 <- (if bb_n (osb_bits1 o) <? N_BITS
         then '(v, o') <- get_int 1 o ;;
              Ok (mkOSB (osb_stream o') (osb_bits0 o')
                        (mkBits 8 (uint8_wrap v)))
         else Ok o) ;;
  let n := bb_n (osb_bits1 o1) in
  let buffer := bb_buffer (osb_bits1 o1) in
  let res := Z.land (Z.shiftr buffer (8 - n)) (Z.shiftl 1 N_BITS - 1) in
  Ok (res, mkOSB (osb_stream o1) (osb_bits0 o1)
                 (mkBits (uint8_wrap (n - N_BITS)) buffer)).

(** [store_bits(a, n_bits)]: the switch over 1..7. *)
Definition store_bits (o : octetStreamBits) (a n_bits : Z)
  : outcome octetStreamBits :=
  if (1 <=? n_bits) && (n_bits <=? 7) then store_bits_N n_bits o a
  else Throw "wrong number of bits".

(** [get_bits(n_bits)]. *)
Definition get_bits (o : octetStreamBits) (n_bits : Z)
  : outcome (Z * octetStreamBits) :=
  if (1 <=? n_bits) && (n_bits <=? 7) then get_bits_N n_bits o
  else Throw "wrong number of bits".

Definition store_bit (o : octetStreamBits) (a : Z) : outcome octetStreamBits :=
  store_bits_N 1 o a.
Definition get_bit (o : octetStreamBits) : outcome (Z * octetStreamBits) :=
  get_bits_N 1 o.
End OSB.

(** Loops of a caller over the buffer, for stating properties. *)
Section BufferLoops.
Context {D : Z2k}.

(** [for (auto& x : vs) os.store_no_resize(x)]. *)
Fixpoint store_all_no_resize (vs : list Z) (o : octetStream)
  : outcome octetStream :=
  match vs with
  | [] => Ok o
  | v :: rest =>
      o' <- OS.store_no_resize o v ;;
      store_all_no_resize rest o'
  end.

(** [n] calls of [os.get_no_check<T>()]. *)
Fixpoint get_all_no_check (n : nat) (o : octetStream)
  : outcome (list Z * octetStream) :=
  match n with
  | O => Ok ([], o)
  | S n' =>
      '(v, o') <- OS.get_no_check o ;;
      '(vs, o'') <- get_all_no_check n' o' ;;
      Ok (v :: vs, o'')
  end.

(** [for (auto& w : ws) w.output(file)]. *)
Definition output_all (ws : list octetStream) (file : list byte) : list byte :=
  fold_left (fun f w => OS.output w f) ws file.

(** [n] calls of [os.input(file)] on the same buffer, the content kept
    after each. *)
Fixpoint input_all (n : nat) (o : octetStream) (file : list byte)
  : outcome (list (list byte) * octetStream * list byte) :=
  match n with
  | O => Ok ([], o, file)
  | S n' =>
      '(o', file') <- OS.input o file ;;
      '(ds, o'', file'') <- input_all n' o' file' ;;
      Ok (os_data o' :: ds, o'', file'')
  end.

(** [for (auto& x : items) os.store_bits(x.first, x.second)]. *)
Fixpoint store_bits_all (items : list (Z * Z)) (o : octetStreamBits)
  : outcome octetStreamBits :=
  match items with
  | [] => Ok o
  | x :: rest =>
      o' <- OSB.store_bits o (fst x) (snd x) ;;
      store_bits_all rest o'
  end.

(** One [os.get_bits(n)] per entry of [ns]. *)
Fixpoint get_bits_all (ns : list Z) (o : octetStreamBits)
  : outcome (list Z * octetStreamBits) :=
  match ns with
  | [] => Ok ([], o)
  | n :: rest =>
      '(v, o') <- OSB.get_bits o n ;;
      '(vs, o'') <- get_bits_all rest o' ;;
      Ok (v :: vs, o'')
  end.
End BufferLoops.

(** The bytes a run of [store_bits] calls and the closing flush add to the
    content, when the run starts with [n] bits in use in the byte
    [buffer]; and the values the matching [get_bits] calls are to return. *)
Fixpoint packed_bits (n buffer : Z) (items : list (Z * Z)) : list byte :=
  match items with
  | [] => if n =? 0 then [] else [byte.of_Z buffer]
  | x :: rest =>
      let v := Z.land (fst x) (Z.ones (snd x)) in
      if n >? 8 - snd x
      then byte.of_Z buffer :: packed_bits (snd x) v rest
      else packed_bits (n + snd x) (Z.lor buffer (Z.shiftl v n)) rest
  end.

Definition low_bits (items : list (Z * Z)) : list Z :=
  map (fun x => Z.land (fst x) (Z.ones (snd x))) items.

(* ===================================================================== *)
(** ** Truncation dispatch (AstraOnlineBase::trunc_pr,
       AstraPrepProtocol::trunc_pr, Astra.hpp) *)
(* ===================================================================== *)

Module TruncDispatch.
Section WithRoutines.
Context {St : Type}.
(** The two routines the dispatch hands the sub-batches to. *)
Variable trunc_pr_big_gap : list TruncPrTupleWithGap -> St -> outcome St.
Variable trunc_pr_small_gap : list TruncPrTupleWithGap -> St -> outcome St.

End WithRoutines.
End TruncDispatch.

(* ===================================================================== *)
(** ** Index conventions (AstraShare.h, Rep3Share2k.h, Astra.hpp) *)
(* ===================================================================== *)

(** Arithmetic on [unsigned]: 32 bits. *)
Definition unsigned_wrap (z : Z) : Z := z mod 2 ^ 32.

Module SplitIndex.
(** [AstraShare::split_index(arithmetic_index, my_num)]. *)
Definition AstraShare_split_index (arithmetic_index my_num : Z) : outcome Z :=
  let res := if arithmetic_index =? 0 then 0
             else if arithmetic_index =? 1 then unsigned_wrap (my_num + 1)
             else unsigned_wrap (2 - my_num) in
  _ <- assert (res <? 3) "res < 3" ;;
  Ok res.

(** [AstraPrepShare::split_index(arithmetic_index, my_num)]. *)
Definition AstraPrepShare_split_index (arithmetic_index my_num : Z)
  : outcome Z :=
  res <- (if my_num >? 0
          then AstraShare_split_index arithmetic_index (my_num - 1)
          else Ok (unsigned_wrap (Z.rem (arithmetic_index + 1) 3))) ;;
  _ <- assert (res <? 3) "res < 3" ;;
  Ok res.

(** [AstraPrepShare::matters_for_split(i, my_num)]. *)
Definition AstraPrepShare_matters_for_split (i my_num : Z) : bool :=
  (my_num =? 0) || (i =? 0).
End SplitIndex.

(** [x[i]] on a [FixedVec<T, 2>]: an array access. *)
Definition FixedVec_get (x : FixedVec) (i : Z) : outcome Z :=
  if i =? 0 then Ok (limb0 x)
  else if i =? 1 then Ok (limb1 x)
  else Undefined "FixedVec index out of range".

Definition FixedVec_set (x : FixedVec) (i : Z) (v : Z) : outcome FixedVec :=
  if i =? 0 then Ok (mkVec v (limb1 x))
  else if i =? 1 then Ok (mkVec (limb0 x) v)
  else Undefined "FixedVec index out of range".

(* ===================================================================== *)
(** ** Random shares (Astra.hpp, Replicated.hpp) *)
(* ===================================================================== *)

Module Random.
Section WithCipher.
Context {D : Z2k} {C : StreamCipher}.

(** [AstraPrepProtocol::rep_index(i, my_num)]. *)
Definition rep_index (i my_num : Z) : Z :=
  if my_num =? 0 then i
  else if i =? 0 then my_num - 1
  else 2 - my_num.

(** [AstraPrepProtocol::from_rep3(x, my_num)]. *)
Definition from_rep3 (x : FixedVec) (my_num : Z) : outcome FixedVec :=
  r0 <- FixedVec_get x (rep_index 0 my_num) ;;
  r1 <- FixedVec_get x (rep_index 1 my_num) ;;
  Ok (mkVec r0 r1).

(** [ReplicatedBase::get_random<T>()]: [res[i].randomize(shared_prngs[i])]
    for [i] = 0, 1. *)
Definition ReplicatedBase_get_random (G : ReplicatedBase)
  : FixedVec * ReplicatedBase :=
  let '(r0, G1) := Replicated.get_at G 0 in
  let '(r1, G2) := Replicated.get_at G1 1 in
  (mkVec r0 r1, G2).

(** [shared_prngs[j].get<T>()] for a computed index [j]: the array has
    two entries. *)
Definition shared_prngs_get (G : ReplicatedBase) (j : Z)
  : outcome (Z * ReplicatedBase) :=
  if (j =? 0) || (j =? 1) then Ok (Replicated.get_at G j)
  else Undefined "shared_prngs index out of range".

(** Modelled from the spec: [FixedVec::pack] and [FixedVec::unpack] are
    not part of the sources at hand; a share is serialised as its two
    limbs in order, each on [size()] bytes, and read back with the
    checked [consume]. *)
Definition pack (x : FixedVec) : list byte :=
  Z2.to_bytes (limb0 x) ++ Z2.to_bytes (limb1 x).

Definition unpack (os : octetStream) : outcome (FixedVec * octetStream) :=
  '(b0, o1) <- OSB.consume (mkOSB os (mkBits 0 0) (mkBits 0 0)) Z2.size ;;
  '(b1, o2) <- OSB.consume o1 Z2.size ;;
  Ok (mkVec (Z2.of_bytes b0) (Z2.of_bytes b1), osb_stream o2).

(** [AstraPrepProtocol::store(const U& value)]: the value is packed into
    a fresh buffer, which is appended to the tape as one record. *)
Definition store_value (my_num : Z) (file : list byte) (x : FixedVec)
  : list byte :=
  if my_num >? 0
  then AstraPrep.store my_num file
         (mkOS (pack x) 0 (Z.of_nat (length (pack x))))
  else file.

(** [AstraPrepProtocol::get_random()]. *)
Definition get_random (st : AstraPrepProtocol)
  : outcome (FixedVec * AstraPrepProtocol) :=
  let my_num := prep_my_num st in
  '(r0, G1) <- shared_prngs_get (prng_protocol st) (rep_index 0 my_num) ;;
  '(r1, G2) <- shared_prngs_get G1 (rep_index 1 my_num) ;;
  let res := mkVec r0 r1 in
  Ok (res, mkPrep (prep_base st) my_num (prep_os st) (prep_os_prep st) G2
                  (store_value my_num (prep_file st) res)).

(** [AstraOnlineBase::read<U>()] for a share. *)
Definition read_share (tape : list byte) : outcome (FixedVec * list byte) :=
  '(os, tape') <- AstraOnline.read OS.empty tape ;;
  '(res, os') <- unpack os ;;
  _ <- assert (OS.left os' =? 0) "not os.left()" ;;
  Ok (res, tape').

(** [AstraOnlineBase::get_random()]. *)
Definition online_get_random (st : Astra) : outcome (FixedVec * Astra) :=
  '(res, tape') <- read_share (on_prep st) ;;
  Ok (res, mkAstra (on_base st) (astra_num st) (on_os st) (on_os_prep st) tape').
End WithCipher.
End Random.

(** The three generator pairs are correlated: the second generator of
    each party is in the state of the first generator of the party one
    place down the ring. *)
Definition paired (G0 G1 G2 : ReplicatedBase) : Prop :=
  shared_prngs1 G1 = shared_prngs0 G0 /\
  shared_prngs1 G2 = shared_prngs0 G1 /\
  shared_prngs1 G0 = shared_prngs0 G2.

(* ===================================================================== *)
(** ** Private inputs (Protocols/AstraInput.hpp) *)
(* ===================================================================== *)

(** [vector<int>::at(i)]: range-checked, for reading and for writing. *)
Definition vector_at (v : list Z) (i : Z) : outcome Z :=
  if (0 <=? i) && (i <? Z.of_nat (length v))
  then Ok (nth (Z.to_nat i) v 0)
  else Throw "out_of_range".

Definition vector_set_at (v : list Z) (i : Z) (x : Z) : outcome (list Z) :=
  if (0 <=? i) && (i <? Z.of_nat (length v))
  then Ok (firstn (Z.to_nat i) v ++ x :: skipn (S (Z.to_nat i)) v)
  else Throw "out_of_range".

(** [vector::reserve(n)] and [vector::resize(n)] with an [int] count: a
    negative count converts to a size beyond [max_size()]. *)
Definition vector_size_check (n : Z) : outcome unit :=
  throw_if (n <? 0) "length_error".

(** [AstraPrepInput<T>]: [results] is an array of three queues. *)
Record AstraPrepInput : Type := mkPrepInput {
  pin_results0 : IteratorVector FixedVec;
  pin_results1 : IteratorVector FixedVec;
  pin_results2 : IteratorVector FixedVec;
  pin_prep_os : octetStream;
  pin_n_inputs : list Z
}.

Module AstraPrepInputOps.
Section WithCipher.
Context {D : Z2k} {C : StreamCipher}.

(** The constructors: [n_inputs.resize(3)]. *)
Definition create : AstraPrepInput :=
  mkPrepInput IV.empty IV.empty IV.empty OS.empty [0; 0; 0].

(** [is_me(player)]: [player + 1 == P->my_num()]. *)
Definition is_me (my_num player : Z) : bool := player + 1 =? my_num.

(** [reset(player)]. *)
Definition reset (my_num : Z) (x : AstraPrepInput) (player : Z)
  : outcome AstraPrepInput :=
  let os := if is_me my_num player
            then OSB.reset_write_head_stream (pin_prep_os x)
            else pin_prep_os x in
  n <- vector_set_at (pin_n_inputs x) player 0 ;;
  Ok (mkPrepInput (pin_results0 x) (pin_results1 x) (pin_results2 x) os n).

(** [add_other(player)]: [n_inputs.at(player)++] on an [int]. *)
Definition add_other (x : AstraPrepInput) (player : Z)
  : outcome AstraPrepInput :=
  _ <- assert (negb (player =? 2)) "player != 2" ;;
  n <- vector_at (pin_n_inputs x) player ;;
  _ <- (if n =? 2 ^ 31 - 1 then Undefined "signed overflow" else Ok tt) ;;
  v <- vector_set_at (pin_n_inputs x) player (n + 1) ;;
  Ok (mkPrepInput (pin_results0 x) (pin_results1 x) (pin_results2 x)
                  (pin_prep_os x) v).

(** [add_mine(input)]: the value is not looked at. *)
Definition add_mine (my_num : Z) (x : AstraPrepInput) (input : Z)
  : outcome AstraPrepInput :=
  add_other x (my_num - 1).

(** The loop of party 0 for one [i]: [res[i].randomize(shared_prngs[i]);
    results[1 + i].push_back(res)], [n] times. *)
Fixpoint helper_inputs (i : Z) (n : nat) (res : FixedVec)
         (G : ReplicatedBase) (rs : IteratorVector FixedVec)
  : IteratorVector FixedVec * ReplicatedBase :=
  match n with
  | O => (rs, G)
  | S n' =>
      let '(r, G') := Replicated.get_at G i in
      let res' := if i =? 0 then mkVec r (limb1 res) else mkVec (limb0 res) r in
      helper_inputs i n' res' G' (IV.push_back rs res')
  end.

(** The loop of parties 1 and 2 over their own inputs. *)
Fixpoint my_inputs (other : Z) (n : nat) (res : FixedVec)
         (G : ReplicatedBase) (prep_os : octetStream)
         (rs : IteratorVector FixedVec)
  : outcome (IteratorVector FixedVec * ReplicatedBase * octetStream) :=
  match n with
  | O => Ok (rs, G, prep_os)
  | S n' =>
      let '(gamma, G') := Replicated.get_at G other in
      prep_os' <- OS.store_no_resize prep_os gamma ;;
      let res' := mkVec (limb0 res) gamma in
      my_inputs other n' res' G' prep_os' (IV.push_back rs res')
  end.

(** [exchange()]: the queues and the protocol object it draws from and
    stores to. *)
Definition exchange (x : AstraPrepInput) (st : AstraPrepProtocol)
  : outcome (AstraPrepInput * AstraPrepProtocol) :=
  let my_num := prep_my_num st in
  let c0 := IV.clear (pin_results0 x) in
  let c1 := IV.clear (pin_results1 x) in
  let c2 := IV.clear (pin_results2 x) in
  let G := prng_protocol st in
  '(r0, r1, r2, os, G') <-
    (if my_num =? 0 then
       n0 <- vector_at (pin_n_inputs x) 0 ;;
       _ <- vector_size_check n0 ;;
       let '(r1, G1) := helper_inputs 0 (Z.to_nat n0) FixedVec_zero G c1 in
       n1 <- vector_at (pin_n_inputs x) 1 ;;
       _ <- vector_size_check n1 ;;
       let '(r2, G2) := helper_inputs 1 (Z.to_nat n1) FixedVec_zero G1 c2 in
       Ok (c0, r1, r2, pin_prep_os x, G2)
     else
       let other := if my_num =? 1 then 1 else 0 in
       let offset := 1 + (if my_num =? 2 then 1 else 0) in
       n_other <- vector_at (pin_n_inputs x) other ;;
       _ <- vector_size_check n_other ;;
       let defaults := mkIV (repeat FixedVec_zero (Z.to_nat n_other)) 0 in
       let r1 := if offset =? 1 then defaults else c1 in
       let r2 := if offset =? 1 then c2 else defaults in
       let my_astra_num := my_num - 1 in
       n <- vector_at (pin_n_inputs x) my_astra_num ;;
       let os1 := OS.reserve (pin_prep_os x) (size_t_wrap (n * Z2.size)) in
       _ <- vector_size_check n ;;
       '(r0, G1, os2) <-
         my_inputs other (Z.to_nat n) FixedVec_zero G os1 c0 ;;
       Ok (r0, r1, r2, os2, G1)) ;;
  let file' := AstraPrep.store my_num (prep_file st) os in
  Ok (mkPrepInput (IV.reset r0) (IV.reset r1) (IV.reset r2) os
                  (pin_n_inputs x),
      mkPrep (prep_base st) my_num (prep_os st) (prep_os_prep st) G' file').

(** [finalize_offset(offset)]: [results[offset].next()]. *)
Definition finalize_offset (x : AstraPrepInput) (offset : Z)
  : outcome (FixedVec * AstraPrepInput) :=
  if offset =? 0 then
    '(r, q) <- IV.next (pin_results0 x) ;;
    Ok (r, mkPrepInput q (pin_results1 x) (pin_results2 x) (pin_prep_os x)
                       (pin_n_inputs x))
  else if offset =? 1 then
    '(r, q) <- IV.next (pin_results1 x) ;;
    Ok (r, mkPrepInput (pin_results0 x) q (pin_results2 x) (pin_prep_os x)
                       (pin_n_inputs x))
  else if offset =? 2 then
    '(r, q) <- IV.next (pin_results2 x) ;;
    Ok (r, mkPrepInput (pin_results0 x) (pin_results1 x) q (pin_prep_os x)
                       (pin_n_inputs x))
  else Undefined "results index out of range".

(** [finalize(player)]. *)
Definition finalize (my_num : Z) (x : AstraPrepInput) (player : Z)
  : outcome (FixedVec * AstraPrepInput) :=
  finalize_offset x (Z.rem (player - (my_num - 1) + 3) 3).
End WithCipher.
End AstraPrepInputOps.

(** [AstraInput<T>]. *)
Record AstraInput : Type := mkInput {
  in_send_os : octetStream;
  in_recv_os : octetStream;
  in_results : IteratorVector FixedVec;
  in_my_results : IteratorVector FixedVec;
  in_inputs : list Z
}.

Module AstraInputOps.
Section WithDomain.
Context {D : Z2k}.

Definition create : AstraInput :=
  mkInput OS.empty OS.empty IV.empty IV.empty [].

(** [reset(player)]; [P_my_num] is [protocol.P.my_num()]. *)
Definition reset (P_my_num : Z) (x : AstraInput) (player : Z) : AstraInput :=
  let x1 := if P_my_num =? player
            then mkInput (OSB.reset_write_head_stream (in_send_os x))
                         (in_recv_os x) (in_results x)
                         (IV.clear (in_my_results x)) []
            else x in
  mkInput (in_send_os x1) (in_recv_os x1) (IV.clear (in_results x1))
          (in_my_results x1) (in_inputs x1).

Definition add_mine (x : AstraInput) (input : Z) : AstraInput :=
  mkInput (in_send_os x) (in_recv_os x) (in_results x) (in_my_results x)
          (in_inputs x ++ [input]).

Definition add_other (x : AstraInput) (player : Z) : AstraInput :=
  mkInput (in_send_os x) (in_recv_os x)
          (IV.push_back (in_results x) FixedVec_zero)
          (in_my_results x) (in_inputs x).

(** The loop of [exchange] over [inputs]. *)
Fixpoint my_inputs (ins : list Z) (prep_os send_os : octetStream)
         (my_results : IteratorVector FixedVec)
  : outcome (octetStream * octetStream * IteratorVector FixedVec) :=
  match ins with
  | [] => Ok (prep_os, send_os, my_results)
  | input :: rest =>
      '(gamma, prep_os') <- OS.get_no_check prep_os ;;
      send_os' <- OS.store_no_resize send_os (Z2.sub input gamma) ;;
      let res := mkVec (limb0 FixedVec_zero) gamma in
      my_inputs rest prep_os' send_os' (IV.push_back my_results res)
  end.

(** [exchange()] up to [P.pass_around(send_os, recv_os, 1)]: the state,
    the local [prep_os], the tape left and the content handed to the
    network. *)
Definition exchange_prepare (x : AstraInput) (tape : list byte)
  : outcome (AstraInput * octetStream * list byte * list byte) :=
  '(prep_os, tape') <- AstraOnline.read OS.empty tape ;;
  let n := size_t_wrap (Z.of_nat (length (in_inputs x)) * Z2.size) in
  let send_os := OS.reserve (in_send_os x) n in
  _ <- throw_if (OS.left prep_os <? n) "insufficient data in input" ;;
  '(prep_os1, send_os1, my_results1) <-
    my_inputs (in_inputs x) prep_os send_os (in_my_results x) ;;
  _ <- assert (OS.left send_os1
               =? size_t_wrap (IV.size my_results1 * Z2.size))
         "send_os.left() == my_results.size() * T::open_type::size()" ;;
  Ok (mkInput send_os1 (in_recv_os x) (in_results x) my_results1 (in_inputs x),
      prep_os1, tape', os_data send_os1).

(** The rest of [exchange()]. *)
Definition exchange_finish (x : AstraInput) (prep_os : octetStream)
           (incoming : list byte) : outcome AstraInput :=
  let recv_os := OS.Receive (in_recv_os x) incoming in
  _ <- throw_if (OS.left recv_os
                 <? size_t_wrap (IV.size (in_results x) * Z2.size))
         "insufficient data in Astra input" ;;
  _ <- assert (OS.left prep_os =? 0) "not prep_os.left()" ;;
  Ok (mkInput (in_send_os x) recv_os (IV.reset (in_results x))
              (IV.reset (in_my_results x)) (in_inputs x)).

(** [finalize_offset(offset)]. *)
Definition finalize_offset (x : AstraInput) (offset : Z)
  : outcome (FixedVec * AstraInput) :=
  if offset =? 0 then
    '(res, q) <- IV.next (in_my_results x) ;;
    '(v, o) <- OS.get_no_check (in_send_os x) ;;
    Ok (AstraShare.set_m res (-1) v,
        mkInput o (in_recv_os x) (in_results x) q (in_inputs x))
  else
    '(res, q) <- IV.next (in_results x) ;;
    '(v, o) <- OS.get_no_check (in_recv_os x) ;;
    Ok (AstraShare.set_m res (-1) v,
        mkInput (in_send_os x) o q (in_my_results x) (in_inputs x)).

(** [finalize(player)]. *)
Definition finalize (P_my_num : Z) (x : AstraInput) (player : Z)
  : outcome (FixedVec * AstraInput) :=
  finalize_offset x (player - P_my_num).
End WithDomain.
End AstraInputOps.

(* ===================================================================== *)
(** ** The five roles run together, operation by operation *)
(* ===================================================================== *)

(** The protocol objects of the three preprocessing parties and of the
    two online parties.  The tape an online party reads is the file its
    preprocessing counterpart writes. *)
Record Parties : Type := mkParties {
  pre0 : AstraPrepProtocol;
  pre1 : AstraPrepProtocol;
  pre2 : AstraPrepProtocol;
  on1 : Astra;
  on2 : Astra
}.

(** Their input objects. *)
Record InputParties : Type := mkInputParties {
  ipre0 : AstraPrepInput;
  ipre1 : AstraPrepInput;
  ipre2 : AstraPrepInput;
  ion1 : AstraInput;
  ion2 : AstraInput
}.

(** The shares of a batch, role by role, gathered into sharings. *)
Fixpoint zip_sharings (h p1 p2 o1 o2 : list FixedVec) : list Sharing :=
  match h, p1, p2, o1, o2 with
  | a :: h', b :: p1', c :: p2', d :: o1', e :: o2' =>
      mkSharing a b c d e :: zip_sharings h' p1' p2' o1' o2'
  | _, _, _, _, _ => []
  end.

Module Run.
Section WithCipher.
Context {D : Z2k} {C : StreamCipher}.

(** What the preprocessing party has appended to its file between the
    states [p] and [q] reaches the unread tape of its online
    counterpart. *)
Definition feed (a : Astra) (p q : AstraPrepProtocol) : Astra :=
  mkAstra (on_base a) (astra_num a) (on_os a) (on_os_prep a)
          (on_prep a ++ skipn (length (prep_file p)) (prep_file q)).

(** One multiplication: [ProtocolBase::mul] on the three preprocessing
    parties, then on the two online parties. *)
Definition mul (s : Parties) (x y : Sharing) : outcome (Parties * Sharing) :=
  '(q0, q1, q2, (z0, zp1, zp2)) <-
    System.prep_mul (pre0 s) (pre1 s) (pre2 s) x y ;;
  let a1 := feed (on1 s) (pre1 s) q1 in
  let a2 := feed (on2 s) (pre2 s) q2 in
  '(b1, b2, (z1, z2)) <- System.online_mul a1 a2 x y ;;
  Ok (mkParties q0 q1 q2 b1 b2, mkSharing z0 zp1 zp2 z1 z2).

(** One call of [add_mine] or [add_other] per input of [player], on a
    preprocessing party. *)
Fixpoint prep_adds (my_num player : Z) (vs : list Z) (x : AstraPrepInput)
  : outcome AstraPrepInput :=
  match vs with
  | [] => Ok x
  | v :: rest =>
      x' <- (if AstraPrepInputOps.is_me my_num player
             then AstraPrepInputOps.add_mine my_num x v
             else AstraPrepInputOps.add_other x player) ;;
      prep_adds my_num player rest x'
  end.

(** [n] calls of [finalize(player)]. *)
Fixpoint prep_finalizes (my_num player : Z) (n : nat) (x : AstraPrepInput)
  : outcome (list FixedVec * AstraPrepInput) :=
  match n with
  | O => Ok ([], x)
  | S n' =>
      '(r, x') <- AstraPrepInputOps.finalize my_num x player ;;
      '(rs, x'') <- prep_finalizes my_num player n' x' ;;
      Ok (r :: rs, x'')
  end.

(** A batch of inputs on one preprocessing party: every player is reset,
    the inputs [vs1] of online party 0 and [vs2] of online party 1 are
    announced, [exchange] runs and every share is fetched. *)
Definition prep_inputs (x : AstraPrepInput) (st : AstraPrepProtocol)
           (vs1 vs2 : list Z)
  : outcome (AstraPrepInput * AstraPrepProtocol
             * list FixedVec * list FixedVec) :=
  let my_num := prep_my_num st in
  x <- AstraPrepInputOps.reset my_num x 0 ;;
  x <- AstraPrepInputOps.reset my_num x 1 ;;
  x <- AstraPrepInputOps.reset my_num x 2 ;;
  x <- prep_adds my_num 0 vs1 x ;;
  x <- prep_adds my_num 1 vs2 x ;;
  '(x, st') <- AstraPrepInputOps.exchange x st ;;
  '(s1, x) <- prep_finalizes my_num 0 (length vs1) x ;;
  '(s2, x) <- prep_finalizes my_num 1 (length vs2) x ;;
  Ok (x, st', s1, s2).

(** The same on an online party: its own inputs go in by value, those of
    the other party are only counted. *)
Fixpoint online_adds (P_my_num player : Z) (vs : list Z) (x : AstraInput)
  : AstraInput :=
  match vs with
  | [] => x
  | v :: rest =>
      online_adds P_my_num player rest
        (if P_my_num =? player then AstraInputOps.add_mine x v
         else AstraInputOps.add_other x player)
  end.

Fixpoint online_finalizes (P_my_num player : Z) (n : nat) (x : AstraInput)
  : outcome (list FixedVec * AstraInput) :=
  match n with
  | O => Ok ([], x)
  | S n' =>
      '(r, x') <- AstraInputOps.finalize P_my_num x player ;;
      '(rs, x'') <- online_finalizes P_my_num player n' x' ;;
      Ok (r :: rs, x'')
  end.

Definition online_inputs_prepare (x : AstraInput) (a : Astra)
           (vs1 vs2 : list Z)
  : outcome (AstraInput * octetStream * Astra * list byte) :=
  let P_my_num := astra_num a - 1 in
  let x := AstraInputOps.reset P_my_num x 0 in
  let x := AstraInputOps.reset P_my_num x 1 in
  let x := online_adds P_my_num 0 vs1 x in
  let x := online_adds P_my_num 1 vs2 x in
  '(x, prep_os, tape', sent) <- AstraInputOps.exchange_prepare x (on_prep a) ;;
  Ok (x, prep_os,
      mkAstra (on_base a) (astra_num a) (on_os a) (on_os_prep a) tape',
      sent).

Definition online_inputs_finish (x : AstraInput) (a : Astra)
           (prep_os : octetStream) (incoming : list byte) (n1 n2 : nat)
  : outcome (AstraInput * list FixedVec * list FixedVec) :=
  let P_my_num := astra_num a - 1 in
  x <- AstraInputOps.exchange_finish x prep_os incoming ;;
  '(s1, x) <- online_finalizes P_my_num 0 n1 x ;;
  '(s2, x) <- online_finalizes P_my_num 1 n2 x ;;
  Ok (x, s1, s2).

(** One batch of private inputs on all five roles: the sharings of the
    inputs [vs1] of online party 0 and of the inputs [vs2] of online
    party 1.  The two online parties swap their buffers. *)
Definition inputs (s : Parties) (i : InputParties) (vs1 vs2 : list Z)
  : outcome (Parties * InputParties * list Sharing * list Sharing) :=
  '(x0, q0, h1, h2) <- prep_inputs (ipre0 i) (pre0 s) vs1 vs2 ;;
  '(x1, q1, p11, p12) <- prep_inputs (ipre1 i) (pre1 s) vs1 vs2 ;;
  '(x2, q2, p21, p22) <- prep_inputs (ipre2 i) (pre2 s) vs1 vs2 ;;
  let a1 := feed (on1 s) (pre1 s) q1 in
  let a2 := feed (on2 s) (pre2 s) q2 in
  '(y1, os1, b1, sent1) <- online_inputs_prepare (ion1 i) a1 vs1 vs2 ;;
  '(y2, os2, b2, sent2) <- online_inputs_prepare (ion2 i) a2 vs1 vs2 ;;
  '(y1, o11, o12) <-
    online_inputs_finish y1 b1 os1 sent2 (length vs1) (length vs2) ;;
  '(y2, o21, o22) <-
    online_inputs_finish y2 b2 os2 sent1 (length vs1) (length vs2) ;;
  Ok (mkParties q0 q1 q2 b1 b2, mkInputParties x0 x1 x2 y1 y2,
      zip_sharings h1 p11 p21 o11 o21, zip_sharings h2 p12 p22 o12 o22).

(** The three preprocessing parties set up from the seeds they draw, on
    fresh files, and the two online parties at the start of these. *)
Definition start (seeds : Z -> Z) : Parties :=
  mkParties (System.prep_create 0 (Replicated.setup seeds 0))
            (System.prep_create 1 (Replicated.setup seeds 1))
            (System.prep_create 2 (Replicated.setup seeds 2))
            (AstraOnline.create 0 [])
            (AstraOnline.create 1 []).

Definition start_inputs : InputParties :=
  mkInputParties AstraPrepInputOps.create AstraPrepInputOps.create
                 AstraPrepInputOps.create AstraInputOps.create
                 AstraInputOps.create.
End WithCipher.
End Run.

(** The roles are in step: every party knows its number, the generators
    are correlated, and the online parties have read their tapes up to
    the end. *)
Definition in_step (s : Parties) : Prop :=
  prep_my_num (pre0 s) = 0 /\ prep_my_num (pre1 s) = 1 /\
  prep_my_num (pre2 s) = 2 /\
  astra_num (on1 s) = 1 /\ astra_num (on2 s) = 2 /\
  paired (prng_protocol (pre0 s)) (prng_protocol (pre1 s))
         (prng_protocol (pre2 s)) /\
  on_prep (on1 s) = [] /\ on_prep (on2 s) = [].

(** The input objects can count the players. *)
Definition inputs_ready (i : InputParties) : Prop :=
  length (pin_n_inputs (ipre0 i)) = 3%nat /\
  length (pin_n_inputs (ipre1 i)) = 3%nat /\
  length (pin_n_inputs (ipre2 i)) = 3%nat.

(** The sharing one multiplication produces from the three values the
    parties draw: [gamma] and [t1] from the generator the helper shares
    with party 1, [t2] from the one it shares with party 2. *)
Definition product_sharing_of {D : Z2k} (gamma t1 t2 : Z) (x y : Sharing)
  : Sharing :=
  let d := Z2.sub (AstraPrepShare.local_mul_P0 (helper0 x) (helper0 y)) gamma in
  let M1 := M_z (AstraShare.local_mul_P1 (online1 x) (online1 y)) gamma t1 in
  let M2 := M_z (AstraShare.local_mul_P2 (online2 x) (online2 y)) d t2 in
  mkSharing (mkVec t1 t2) (mkVec 0 t1) (mkVec 0 t2)
            (mkVec (Z2.add M1 M2) t1) (mkVec (Z2.add M2 M1) t2).

(** The sharings a batch of inputs produces: for an input [v] of online
    party 0 masked by [g], and for an input of online party 1. *)
Definition input_sharing_0 {D : Z2k} (v g : Z) : Sharing :=
  mkSharing (mkVec g 0) (mkVec 0 g) (mkVec 0 0)
            (mkVec (Z2.sub v g) g) (mkVec (Z2.sub v g) 0).

Definition input_sharing_1 {D : Z2k} (v g : Z) : Sharing :=
  mkSharing (mkVec 0 g) (mkVec 0 0) (mkVec 0 g)
            (mkVec (Z2.sub v g) 0) (mkVec (Z2.sub v g) g).

(** [n] values of the stream of [G], from its current position. *)
Definition stream {D : Z2k} {C : StreamCipher} (G : PRNG) (n : nat) : list Z :=
  Prng.draws n G.

(** A generator after [n] draws. *)
Definition advance (G : PRNG) (n : nat) : PRNG :=
  mkPRNG (prng_seed G) (n + prng_cnt G).

(* ===================================================================== *)
(** * Properties *)
(* ===================================================================== *)

Lemma bind_Ok_inv {A B} (c : outcome A) (k : A -> outcome B) (b : B) :
  bind c k = Ok b -> exists a, c = Ok a /\ k a = Ok b.
Proof. destruct c; simpl; intros H; try discriminate. eauto. Qed.

(** ** Arithmetic of Z/2^K *)

Module Z2Facts.
Section WithDomain.
Context {D : Z2k}.

Lemma modulus_pos : 0 < Z2.modulus.
Proof. unfold Z2.modulus. apply Z.pow_pos_nonneg; lia. Qed.

Lemma wrap_range z : 0 <= Z2.wrap z < Z2.modulus.
Proof. apply Z.mod_pos_bound, modulus_pos. Qed.

Lemma wrap_wrap z : Z2.wrap (Z2.wrap z) = Z2.wrap z.
Proof. unfold Z2.wrap. apply Z.mod_mod. pose proof modulus_pos; lia. Qed.

Lemma wrap_small z : 0 <= z < Z2.modulus -> Z2.wrap z = z.
Proof. apply Z.mod_small. Qed.

Lemma wrap_add_l a b : Z2.wrap (Z2.wrap a + b) = Z2.wrap (a + b).
Proof. unfold Z2.wrap. apply Z.add_mod_idemp_l. pose proof modulus_pos; lia. Qed.

Lemma wrap_add_r a b : Z2.wrap (a + Z2.wrap b) = Z2.wrap (a + b).
Proof. unfold Z2.wrap. apply Z.add_mod_idemp_r. pose proof modulus_pos; lia. Qed.

Lemma wrap_sub_l a b : Z2.wrap (Z2.wrap a - b) = Z2.wrap (a - b).
Proof. unfold Z2.wrap. apply Zminus_mod_idemp_l. Qed.

Lemma wrap_sub_r a b : Z2.wrap (a - Z2.wrap b) = Z2.wrap (a - b).
Proof. unfold Z2.wrap. apply Zminus_mod_idemp_r. Qed.

Lemma wrap_mul_l a b : Z2.wrap (Z2.wrap a * b) = Z2.wrap (a * b).
Proof. unfold Z2.wrap. apply Z.mul_mod_idemp_l. pose proof modulus_pos; lia. Qed.

Lemma wrap_mul_r a b : Z2.wrap (a * Z2.wrap b) = Z2.wrap (a * b).
Proof. unfold Z2.wrap. apply Z.mul_mod_idemp_r. pose proof modulus_pos; lia. Qed.

Lemma wrap_opp a : Z2.wrap (- Z2.wrap a) = Z2.wrap (- a).
Proof.
  replace (- Z2.wrap a) with (0 - Z2.wrap a) by lia.
  replace (- a) with (0 - a) by lia. apply wrap_sub_r.
Qed.

Lemma size_nonneg : 0 <= Z2.size.
Proof. unfold Z2.size. apply Z.div_pos; lia. Qed.

Lemma bits_le_bytes : Z.of_nat N_BITS <= Z.of_nat (Z.to_nat Z2.size) * 8.
Proof.
  rewrite Z2Nat.id by apply size_nonneg. unfold Z2.size.
  pose proof (Z.mul_div_le (Z.of_nat N_BITS + 7) 8).
  pose proof (Z.mod_pos_bound (Z.of_nat N_BITS + 7) 8).
  pose proof (Z.div_mod (Z.of_nat N_BITS + 7) 8). lia.
Qed.

Lemma length_to_bytes a : Z.of_nat (length (Z2.to_bytes a)) = Z2.size.
Proof.
  unfold Z2.to_bytes. rewrite length_le_split.
  apply Z2Nat.id, size_nonneg.
Qed.

(** A limb written by [store_no_resize] is read back by [get_no_check]. *)
Lemma of_bytes_to_bytes a : Z2.of_bytes (Z2.to_bytes a) = Z2.wrap a.
Proof.
  unfold Z2.of_bytes, Z2.to_bytes. rewrite le_combine_split.
  unfold Z2.wrap, Z2.modulus.
  pose proof bits_le_bytes as Hb.
  apply Z.mod_mod_divide.
  exists (2 ^ (Z.of_nat (Z.to_nat Z2.size) * 8 - Z.of_nat N_BITS)).
  rewrite <- Z.pow_add_r by lia. f_equal. lia.
Qed.
End WithDomain.
End Z2Facts.

Create Rewrite HintDb z2k.
#[global] Hint Rewrite @Z2Facts.wrap_wrap @Z2Facts.wrap_add_l @Z2Facts.wrap_add_r
  @Z2Facts.wrap_sub_l @Z2Facts.wrap_sub_r @Z2Facts.wrap_mul_l @Z2Facts.wrap_mul_r
  @Z2Facts.wrap_opp : z2k.

(** Equalities in Z/2^K: spread the reductions over the operands, then
    gather them again and compare the two integer polynomials. *)
Ltac z2_ring :=
  unfold Z2.add, Z2.sub, Z2.mul, Z2.neg;
  autorewrite with z2k;
  try reflexivity;
  try (apply (f_equal Z2.wrap); ring);
  unfold Z2.wrap; Z.mod_equality.

(* ===================================================================== *)
(** ** Share algebra *)
(* ===================================================================== *)

Section ShareAlgebra.
Context {D : Z2k}.

Lemma AstraShare_lambda_neg (x : FixedVec) (i : Z) :
  Z2.neg (AstraShare.lambda x i) = Z2.wrap (limb1 x).
Proof.
  unfold AstraShare.lambda, AstraShare.neg_lambda. z2_ring.
Qed.

(** The three local products of one multiplication add up to the product
    of the two shared values: the helper contributes the product of the
    masks, party 1 the cross terms on its mask share, party 2 the
    product of the masked values and the cross terms on its own. *)
Lemma local_mul_sum (mx my lx1 lx2 ly1 ly2 : Z) :
  Z2.add (AstraPrepShare.local_mul_P0 (mkVec lx1 lx2) (mkVec ly1 ly2))
         (Z2.add (AstraShare.local_mul_P1 (mkVec mx lx1) (mkVec my ly1))
                 (AstraShare.local_mul_P2 (mkVec mx lx2) (mkVec my ly2)))
  = Z2.wrap ((mx + lx1 + lx2) * (my + ly1 + ly2)).
Proof.
  unfold AstraPrepShare.local_mul_P0, AstraShare.local_mul_P2,
    AstraShare.local_mul_P1, FixedVec_sum, AstraShare.m,
    AstraShare.neg_lambda; simpl.
  z2_ring.
Qed.
End ShareAlgebra.

(** C2. The local multiplication formulas are those of the table: on the
    helper role [local_mul_P0 x y] is [s(x) * s(y)] with
    [s = limb0 + limb1]; on online party 1 [local_mul_P1 x y] is
    [m(x) * l(y) + m(y) * l(x)] with [m = limb0] and [l = limb1], the
    negated mask share; on online party 2 [local_mul_P2 x y] is
    [m(x) * m(y) + local_mul_P1 x y].  All arithmetic is in Z/2^K. *)
Theorem C2_local_mul_formulas {D : Z2k} (x y : FixedVec) :
  (forall i, AstraShare.m x i = limb0 x) /\
  (forall i, AstraShare.neg_lambda x i = limb1 x) /\
  (forall i, Z2.neg (AstraShare.lambda x i) = Z2.wrap (limb1 x)) /\
  AstraPrepShare.local_mul_P0 x y
    = Z2.wrap ((limb0 x + limb1 x) * (limb0 y + limb1 y)) /\
  AstraShare.local_mul_P1 x y
    = Z2.wrap (limb0 x * limb1 y + limb0 y * limb1 x) /\
  AstraShare.local_mul_P2 x y
    = Z2.wrap (limb0 x * limb0 y + AstraShare.local_mul_P1 x y) /\
  @local_mul_P0 AstraPrepShare_type x y = Ok (AstraPrepShare.local_mul_P0 x y) /\
  @local_mul_P1 AstraShare_type x y = Ok (AstraShare.local_mul_P1 x y) /\
  @local_mul_P2 AstraShare_type x y = Ok (AstraShare.local_mul_P2 x y).
Proof.
  repeat split; try reflexivity.
  - apply AstraShare_lambda_neg.
  - unfold AstraPrepShare.local_mul_P0, FixedVec_sum. z2_ring.
  - unfold AstraShare.local_mul_P1, AstraShare.m, AstraShare.neg_lambda. z2_ring.
  - unfold AstraShare.local_mul_P2, AstraShare.local_mul_P1, AstraShare.m,
      AstraShare.neg_lambda. z2_ring.
Qed.

(* ===================================================================== *)
(** ** Opening *)
(* ===================================================================== *)

Section Opening.
Context {D : Z2k}.

Lemma prepare_summand_P1 (s : FixedVec) :
  AstraMC.prepare_summand s 1 = Z2.wrap (limb0 s + limb1 s).
Proof.
  unfold AstraMC.prepare_summand, AstraShare.lambda, AstraShare.m,
    AstraShare.neg_lambda. simpl. z2_ring.
Qed.

Lemma prepare_summand_P2 (s : FixedVec) :
  AstraMC.prepare_summand s 2 = Z2.wrap (limb1 s).
Proof.
  unfold AstraMC.prepare_summand, AstraShare.lambda, AstraShare.neg_lambda.
  simpl. z2_ring.
Qed.

(** Both online parties open the same value, [m + l1 + l2] on the limbs
    [m = limb0] of party 1 and [l_i = limb1] of party [i]. *)
Lemma Open_value (s1 s2 : FixedVec) :
  System.Open s1 s2
  = Ok (Z2.wrap (limb0 s1 + limb1 s1 + limb1 s2),
        Z2.wrap (limb0 s1 + limb1 s1 + limb1 s2)).
Proof.
  unfold System.Open, AstraMC.exchange, AstraMC.summands. simpl.
  rewrite prepare_summand_P1, prepare_summand_P2.
  f_equal. f_equal; z2_ring.
Qed.
End Opening.

(** C4. Opening a sharing held by the two online parties: party 1 puts
    [m - lambda1] on the wire, which is [limb0 + limb1] of its share;
    party 2 puts [- lambda2], which is [limb1] of its share; each party's
    opened value is its own summand plus the one received, and this value
    is [m - lambda1 - lambda2], the shared value. *)
Theorem C4_open_summands {D : Z2k} (s1 s2 : FixedVec) :
  let m := AstraShare.m s1 1 in
  let lambda1 := AstraShare.lambda s1 1 in
  let lambda2 := AstraShare.lambda s2 2 in
  let sent1 := AstraMC.summands 0 [s1] in
  let sent2 := AstraMC.summands 1 [s2] in
  sent1 = [Z2.sub m lambda1] /\
  sent1 = [Z2.add (limb0 s1) (limb1 s1)] /\
  sent2 = [Z2.neg lambda2] /\
  sent2 = [Z2.wrap (limb1 s2)] /\
  AstraMC.exchange 0 [s1] sent2
    = Ok [Z2.add (Z2.sub m lambda1) (Z2.neg lambda2)] /\
  AstraMC.exchange 1 [s2] sent1
    = Ok [Z2.add (Z2.neg lambda2) (Z2.sub m lambda1)] /\
  System.Open s1 s2
    = Ok (Z2.wrap (m - lambda1 - lambda2), Z2.wrap (m - lambda1 - lambda2)).
Proof.
  cbv zeta. repeat split; try reflexivity.
  - unfold AstraMC.summands; simpl. f_equal. apply prepare_summand_P1.
  - unfold AstraMC.summands; simpl. f_equal. apply prepare_summand_P2.
  - rewrite Open_value.
    unfold AstraShare.m, AstraShare.lambda, AstraShare.neg_lambda.
    f_equal. f_equal; z2_ring; apply (f_equal Z2.wrap); ring.
Qed.

(* ===================================================================== *)
(** ** Constants *)
(* ===================================================================== *)

(** C5, as stated, fails: the constant share of online party 2
    ([P.my_num() = 1]) carries the constant in its m-limb, not zero. *)
Lemma C5_counterexample :
  AstraShare.m (AstraShare.constant 5 1) 2 = 5 /\
  ~ (forall c my_num, my_num <> 0 ->
       AstraShare.m (AstraShare.constant c my_num) (my_num + 1) = 0).
Proof.
  split; [reflexivity|].
  intros H. specialize (H 5 1). cbv in H.
  assert (1 <> 0) as H1 by lia. specialize (H H1). discriminate.
Qed.

(** C5, amended. For every clear constant [c], [constant(c)] gives each
    online party the share with masked value [m = c] and mask share 0 (the
    m-limb is common to both online parties), and gives every
    preprocessing role the all-zero share; opening the constant sharing
    returns [c]. *)
Theorem C5_constant {D : Z2k} (c : Z) :
  (forall my_num, AstraShare.constant c my_num = mkVec c 0) /\
  (forall my_num, AstraShare.m (AstraShare.constant c my_num) (my_num + 1) = c) /\
  (forall my_num, AstraShare.lambda (AstraShare.constant c my_num) (my_num + 1) = 0) /\
  (forall my_num, AstraPrepShare.constant c my_num = mkVec 0 0) /\
  System.Open (AstraShare.constant c 0) (AstraShare.constant c 1)
    = Ok (Z2.wrap c, Z2.wrap c) /\
  System.Open (AstraShare.constant (Z2.wrap c) 0) (AstraShare.constant (Z2.wrap c) 1)
    = Ok (Z2.wrap c, Z2.wrap c) /\
  well_formed (mkSharing (AstraPrepShare.constant c 0)
                         (AstraPrepShare.constant c 1)
                         (AstraPrepShare.constant c 2)
                         (AstraShare.constant c 0) (AstraShare.constant c 1)).
Proof.
  repeat split; try reflexivity.
  - rewrite Open_value. simpl. rewrite !Z.add_0_r. reflexivity.
  - rewrite Open_value. simpl. rewrite !Z.add_0_r.
    rewrite Z2Facts.wrap_wrap. reflexivity.
Qed.

(* ===================================================================== *)
(** ** Truncation tuples *)
(* ===================================================================== *)

Section TruncTuples.
Context {T : ClearType}.
Variable check : Z -> Z -> Z -> outcome unit.
Variable opts : OnlineOptions.

Lemma TruncPrTuple_ctor_ok (d s k m : Z) (rest : list Z) :
  check k m T_n_bits = Ok tt -> m < k -> 0 < k -> m < T_n_bits ->
  TruncPr.TruncPrTuple_ctor check (d :: s :: k :: m :: rest)
  = Ok (mkTuple d s k m (T_N_BITS - 1 - k)).
Proof.
  intros Hc Hmk Hk Hm. unfold TruncPr.TruncPrTuple_ctor.
  rewrite Hc. simpl.
  destruct (Z.ltb_spec m k); [|lia].
  destruct (Z.ltb_spec 0 k); [|lia].
  destruct (Z.ltb_spec m T_n_bits); [|lia].
  reflexivity.
Qed.

(** The two sub-batches split the batch: every tuple lands in exactly
    one of them. *)
Lemma gap_partition (l : list TruncPrTupleWithGap) :
  Permutation (TruncPr.get_big_gap l ++ TruncPr.get_small_gap l) l.
Proof.
  unfold TruncPr.get_big_gap, TruncPr.get_small_gap.
  induction l as [|t l IH]; simpl; [constructor|].
  unfold TruncPr.small_gap at 1.
  destruct (TruncPr.big_gap t); simpl.
  - constructor. exact IH.
  - apply Permutation_sym, Permutation_cons_app, Permutation_sym. exact IH.
Qed.

Lemma get_big_gap_all (l : list TruncPrTupleWithGap) :
  Forall (fun t => TruncPr.big_gap t = true) (TruncPr.get_big_gap l).
Proof.
  apply Forall_forall. intros t Ht. apply filter_In in Ht. tauto.
Qed.

Lemma get_small_gap_all (l : list TruncPrTupleWithGap) :
  Forall (fun t => TruncPr.big_gap t = false) (TruncPr.get_small_gap l).
Proof.
  apply Forall_forall. intros t Ht. apply filter_In in Ht.
  destruct Ht as [_ Ht]. unfold TruncPr.small_gap in Ht.
  destruct (TruncPr.big_gap t); [discriminate|reflexivity].
Qed.
End TruncTuples.

(** C6. A truncation tuple with parameters [(k, m)] that passes the checks
    of the base constructor is built with the flag
    [k <= n_bits - trunc_error]: it is big gap exactly when that
    comparison holds, small gap otherwise, so the flag is a function of
    [k], the bit width and the option alone; over a prime field a
    small-gap tuple is refused with an exception.  The default of
    [trunc_error] is 40, and the big-gap and small-gap sub-batches
    partition a batch. *)
Theorem C6_big_gap_flag {T : ClearType}
    (check : Z -> Z -> Z -> outcome unit) (opts : OnlineOptions)
    (d s k m : Z) (rest : list Z) :
  check k m T_n_bits = Ok tt -> m < k -> 0 < k -> m < T_n_bits ->
  let r := TruncPr.TruncPrTupleWithGap_ctor check opts (d :: s :: k :: m :: rest) in
  let base := mkTuple d s k m (T_N_BITS - 1 - k) in
  (k <= T_n_bits - trunc_error opts -> r = Ok (mkGap base true)) /\
  (~ k <= T_n_bits - trunc_error opts -> T_prime_field = false ->
     r = Ok (mkGap base false)) /\
  (~ k <= T_n_bits - trunc_error opts -> T_prime_field = true ->
     r = Throw "domain too small for chosen truncation error") /\
  (forall t, r = Ok t ->
     (TruncPr.big_gap t = true <-> k <= T_n_bits - trunc_error opts) /\
     (TruncPr.small_gap t = true <-> ~ k <= T_n_bits - trunc_error opts)) /\
  trunc_error default_options = 40 /\
  (forall l : list TruncPrTupleWithGap,
     Permutation (TruncPr.get_big_gap l ++ TruncPr.get_small_gap l) l /\
     Forall (fun t => TruncPr.big_gap t = true) (TruncPr.get_big_gap l) /\
     Forall (fun t => TruncPr.big_gap t = false) (TruncPr.get_small_gap l)).
Proof.
  intros Hc Hmk Hk Hm r base.
  assert (Hr : r = (let t := mkGap base (k <=? T_n_bits - trunc_error opts) in
                    _ <- throw_if (T_prime_field && TruncPr.small_gap t)
                           "domain too small for chosen truncation error" ;;
                    Ok t)).
  { unfold r, TruncPr.TruncPrTupleWithGap_ctor.
    rewrite (TruncPrTuple_ctor_ok check d s k m rest Hc Hmk Hk Hm).
    reflexivity. }
  cbv zeta in Hr. unfold TruncPr.small_gap, TruncPr.big_gap in Hr. simpl in Hr.
  repeat split.
  - intros Hle. rewrite Hr.
    destruct (Z.leb_spec k (T_n_bits - trunc_error opts)); [|lia].
    simpl. rewrite andb_false_r. reflexivity.
  - intros Hgt Hp. rewrite Hr, Hp.
    destruct (Z.leb_spec k (T_n_bits - trunc_error opts)); [lia|].
    reflexivity.
  - intros Hgt Hp. rewrite Hr, Hp.
    destruct (Z.leb_spec k (T_n_bits - trunc_error opts)); [lia|].
    reflexivity.
  - rewrite Hr in H.
    destruct (Z.leb_spec k (T_n_bits - trunc_error opts)); [lia|].
    destruct T_prime_field; simpl in H; [discriminate|].
    injection H as <-. intros Hb. discriminate Hb.
  - rewrite Hr in H. intros Hle.
    destruct (Z.leb_spec k (T_n_bits - trunc_error opts)); [|lia].
    simpl in H. rewrite andb_false_r in H. simpl in H.
    injection H as <-. reflexivity.
  - rewrite Hr in H. intros Hs Hle.
    destruct (Z.leb_spec k (T_n_bits - trunc_error opts)); [|lia].
    simpl in H. rewrite andb_false_r in H. simpl in H.
    injection H as <-. discriminate Hs.
  - rewrite Hr in H. intros Hgt.
    destruct (Z.leb_spec k (T_n_bits - trunc_error opts)); [lia|].
    destruct T_prime_field; simpl in H; [discriminate|].
    injection H as <-. reflexivity.
  - apply gap_partition.
  - apply get_big_gap_all.
  - apply get_small_gap_all.
Qed.

(** The flag at a concrete tuple: 64-bit ring, default options, [k = 20],
    [m = 10]. *)
Lemma C6_witness :
  let T := ring_clear Z2_64 in
  let check := fun _ _ _ : Z => Ok tt in
  @TruncPr.TruncPrTupleWithGap_ctor T check default_options [0; 1; 20; 10]
  = Ok (mkGap (mkTuple 0 1 20 10 43) true).
Proof.
  intros T check.
  refine (proj1 (@C6_big_gap_flag T check default_options 0 1 20 10 []
                   eq_refl _ _ _) _); simpl; lia.
Defined.

(* ===================================================================== *)
(** ** Dot products *)
(* ===================================================================== *)

Section DotProducts.
Context {D : Z2k}.

(** The generic [finalize_dotprod] pops as many results as its argument
    says and adds them up. *)
Lemma sum_results_spec {St : Type} (fm : St -> outcome (FixedVec * St))
      (pop : list FixedVec -> St -> St) :
  (forall r rs st, fm (pop (r :: rs) st) = Ok (r, pop rs st)) ->
  forall (rs : list FixedVec) (acc : FixedVec) (st : St),
    ProtocolBaseOps.sum_results fm (length rs) acc (pop rs st)
    = Ok (fold_left FixedVec_add rs acc, pop [] st).
Proof.
  intros Hfm rs. induction rs as [|r rs IH]; intros acc st; simpl.
  - reflexivity.
  - rewrite Hfm. simpl. apply IH.
Qed.

Context {S : ShareType}.

(** [accumulate] adds every local product to the entry it started from. *)
Lemma accumulate_Ok (lm : FixedVec -> FixedVec -> Z)
      (pairs : list (FixedVec * FixedVec)) (back : Z) :
  AstraBaseOps.accumulate (fun x y => Ok (lm x y)) pairs back
  = Ok (fold_left (fun acc x => Z2.add acc (lm (fst x) (snd x))) pairs back).
Proof.
  revert back. induction pairs as [|x rest IH]; intros back; simpl.
  - reflexivity.
  - apply IH.
Qed.
End DotProducts.

(** C10. [AstraBase::finalize_dotprod(n)] does not look at [n]: it returns
    the next queued result, one share, whatever the length, where the
    generic [ProtocolBase::finalize_dotprod(n)] pops and adds [n]
    multiplication results; this is sound because [next_dotprod] has
    already folded the local products of the whole dot product into one
    entry of [inputs]. *)
Theorem C10_finalize_dotprod_ignores_length {D : Z2k}
    (n n' : Z) (ins : list Z) (pairs : list (FixedVec * FixedVec))
    (done : list FixedVec) (r : FixedVec) (queued : list FixedVec) (nm : Z)
    (p : ProtocolBase (list FixedVec)) :
  let b := mkBase ins pairs (mkIV (done ++ r :: queued) (length done)) nm in
  AstraBaseOps.finalize_dotprod n b = AstraBaseOps.finalize_dotprod n' b /\
  AstraBaseOps.finalize_dotprod n b
    = Ok (r, mkBase ins pairs
                    (mkIV (done ++ r :: queued) (Datatypes.S (length done))) nm) /\
  ProtocolBaseOps.finalize_dotprod
    (fun st => match st with
               | r :: st' => Ok (r, st')
               | [] => Undefined "no result left"
               end)
    (Z.of_nat (length (proto_state p))) p
  = Ok (fold_left FixedVec_add (proto_state p) FixedVec_zero,
        mkProto (counter p + Z.of_nat (length (proto_state p)))
                (dot_counter p + 1) []) /\
  (@AstraBaseOps.next_dotprod D AstraShare_type 1 b
   = Ok (mkBase (ins ++
                   [fold_left (fun acc x =>
                                 Z2.add acc (AstraShare.local_mul_P1 (fst x) (snd x)))
                              pairs 0])
                [] (results b) (size_t_wrap (nm + 1)))) /\
  (@AstraBaseOps.next_dotprod D AstraShare_type 2 b
   = Ok (mkBase (ins ++
                   [fold_left (fun acc x =>
                                 Z2.add acc (AstraShare.local_mul_P2 (fst x) (snd x)))
                              pairs 0])
                [] (results b) (size_t_wrap (nm + 1)))) /\
  (@AstraBaseOps.next_dotprod D AstraPrepShare_type 0 b
   = Ok (mkBase (ins ++
                   [fold_left (fun acc x =>
                                 Z2.add acc (AstraPrepShare.local_mul_P0 (fst x) (snd x)))
                              pairs 0])
                [] (results b) (size_t_wrap (nm + 1)))).
Proof.
  intros b. split; [reflexivity|]. split.
  { unfold AstraBaseOps.finalize_dotprod, AstraBaseOps.finalize_mul, IV.next.
    simpl. rewrite nth_error_app2 by lia. rewrite Nat.sub_diag. reflexivity. }
  split.
  { unfold ProtocolBaseOps.finalize_dotprod.
    rewrite Nat2Z.id.
    rewrite (sum_results_spec _ (fun rs _ => rs)
               (fun r rs st => eq_refl) (proto_state p) FixedVec_zero []).
    reflexivity. }
  unfold AstraBaseOps.next_dotprod, AstraBaseOps.next_dotprod_X; simpl.
  repeat split.
  - rewrite (accumulate_Ok AstraShare.local_mul_P1). reflexivity.
  - rewrite (accumulate_Ok AstraShare.local_mul_P2). reflexivity.
  - rewrite (accumulate_Ok AstraPrepShare.local_mul_P0). reflexivity.
Qed.

(* ===================================================================== *)
(** ** Correlated randomness *)
(* ===================================================================== *)

Section CorrelatedPRNG.
Context {D : Z2k} {C : StreamCipher}.

(** After the setup the second generator of a party is in the state of
    the first generator of the party one place down the ring. *)
Lemma setup_shared_state (seeds : Z -> Z) (i : Z) :
  shared_prngs1 (Replicated.setup seeds ((i + 1) mod 3))
  = shared_prngs0 (Replicated.setup seeds (i mod 3)).
Proof.
  unfold Replicated.setup, Replicated.ReplicatedBase_ctor,
    Replicated.pass_around; simpl.
  rewrite Zminus_mod_idemp_l.
  replace (i + 1 - 1) with i by lia. reflexivity.
Qed.

End CorrelatedPRNG.

(** C8, as stated, fails: with seeds 0, 1, 2 drawn by parties 0, 1, 2 the
    first value of [prng[0]] on party 1 differs from the first value of
    [prng[1]] on party 0, which was seeded by party 2. *)
Lemma C8_counterexample :
  let seeds := fun i : Z => i in
  let own := @Prng.get Z2_64 counter_cipher
               (shared_prngs0 (@Replicated.setup seeds 1)) in
  let previous := @Prng.get Z2_64 counter_cipher
                    (shared_prngs1 (@Replicated.setup seeds ((1 - 1) mod 3))) in
  fst own = 1000003 /\ fst previous = 2000006 /\ fst own <> fst previous /\
  ~ (forall (D : Z2k) (C : StreamCipher) (seeds : Z -> Z) (i : Z),
       fst (Prng.get (shared_prngs0 (Replicated.setup seeds (i mod 3))))
       = fst (Prng.get (shared_prngs1 (Replicated.setup seeds ((i - 1) mod 3))))).
Proof.
  cbv zeta. repeat split.
  - intros H. discriminate H.
  - intros H. specialize (H Z2_64 counter_cipher (fun i => i) 1).
    vm_compute in H. discriminate H.
Qed.

(** C8, amended. After the setup, in which every party seeds [prng[0]]
    itself and passes that seed one place up the ring, [prng[0]] on party
    [i] and [prng[1]] on party [i + 1] are in the same state: every draw
    of [get<T>()] on the one returns what the same draw returns on the
    other, so each adjacent pair of parties shares one stream. *)
Theorem C8_shared_stream {D : Z2k} {C : StreamCipher}
    (seeds : Z -> Z) (i : Z) (n : nat) :
  let own := shared_prngs0 (Replicated.setup seeds (i mod 3)) in
  let next := shared_prngs1 (Replicated.setup seeds ((i + 1) mod 3)) in
  own = Prng.SetSeed (seeds (i mod 3)) /\
  next = own /\
  fst (Prng.get own) = fst (Prng.get next) /\
  Prng.draws n own = Prng.draws n next.
Proof.
  cbv zeta. rewrite setup_shared_state. repeat split.
Qed.

(** The multiplication protocol relies on this direction: were the seeds
    passed the other way round the ring, so that [prng[1]] of party [i]
    held the seed of party [i + 1], the product of 3 and 5 would not open
    to 15. *)
Lemma direction_matters :
  let w := @Z2.wrap Z2_64 in
  let x := mkSharing (mkVec (w (-4)) (w (-3))) (mkVec 0 (w (-4)))
                     (mkVec 0 (w (-3))) (mkVec 10 (w (-4))) (mkVec 10 (w (-3))) in
  let y := mkSharing (mkVec 1 (w (-3))) (mkVec 0 1) (mkVec 0 (w (-3)))
                     (mkVec 7 1) (mkVec 7 (w (-3))) in
  let seeds := fun i : Z => i + 11 in
  let reversed := fun i : Z =>
    @Replicated.ReplicatedBase_ctor (seeds i)
       (Replicated.pass_around 3 (-1) seeds i) in
  (z <- @System.multiply Z2_64 counter_cipher seeds x y ;;
   @System.Open Z2_64 (online1 z) (online2 z)) = Ok (15, 15) /\
  (z <- @System.multiply_with Z2_64 counter_cipher
          (reversed 0) (reversed 1) (reversed 2) x y ;;
   @System.Open Z2_64 (online1 z) (online2 z)) = Ok (2000021, 2000021).
Proof. cbv zeta. split; vm_compute; reflexivity. Qed.

(* ===================================================================== *)
(** ** Length prefixes *)
(* ===================================================================== *)

(** C9. What the code puts in front of a buffer: [Send] writes the length
    on [LENGTH_SIZE = 4] bytes, [output] on the eight bytes of a [size_t];
    on the one-byte buffer [2a] the wire carries [01 00 00 00 2a] and the
    file [01 00 00 00 00 00 00 00 2a]. *)
Theorem C9_length_prefix (o : octetStream) (file : list byte) :
  OS.Send o = le_split 4 (OS.get_length o) ++ os_data o /\
  length (OS.Send o) = (4 + length (os_data o))%nat /\
  OS.output o file = file ++ le_split 8 (OS.get_length o) ++ os_data o /\
  length (OS.output o file) = (length file + 8 + length (os_data o))%nat /\
  OS.Send (mkOS [Byte.x2a] 0 1)
    = [Byte.x01; Byte.x00; Byte.x00; Byte.x00; Byte.x2a] /\
  OS.output (mkOS [Byte.x2a] 0 1) []
    = [Byte.x01; Byte.x00; Byte.x00; Byte.x00; Byte.x00; Byte.x00; Byte.x00;
       Byte.x00; Byte.x2a].
Proof.
  repeat split; try reflexivity.
  unfold OS.output. rewrite !length_app, length_le_split. lia.
Qed.

(* ===================================================================== *)
(** ** The wire buffer *)
(* ===================================================================== *)

Section BufferFacts.
Context {D : Z2k}.

Lemma size_t_wrap_small (z : Z) : 0 <= z < 2 ^ 64 -> size_t_wrap z = z.
Proof. apply Z.mod_small. Qed.

Lemma firstn_skipn_middle {A} (a b c : list A) :
  firstn (length b) (skipn (length a) (a ++ b ++ c)) = b.
Proof.
  rewrite skipn_app, Nat.sub_diag, skipn_all. simpl.
  rewrite firstn_app, Nat.sub_diag, firstn_all. simpl.
  apply app_nil_r.
Qed.

(** Reading [l] bytes that are there. *)
Lemma consume_no_check_at (a b c : list byte) (cap : Z) :
  OS.consume_no_check (mkOS (a ++ b ++ c) (Z.of_nat (length a)) cap)
                      (Z.of_nat (length b))
  = Ok (b, mkOS (a ++ b ++ c) (Z.of_nat (length a) + Z.of_nat (length b)) cap).
Proof.
  unfold OS.consume_no_check, OS.get_length; simpl.
  rewrite !length_app.
  destruct (Z.leb_spec 0 (Z.of_nat (length a))); [|lia].
  destruct (Z.leb_spec (Z.of_nat (length a) + Z.of_nat (length b))
              (Z.of_nat (length a + (length b + length c)))); [|lia].
  simpl. rewrite !Nat2Z.id, firstn_skipn_middle. reflexivity.
Qed.

Lemma consume_no_check_eq (o : octetStream) (a b c : list byte) :
  os_data o = a ++ b ++ c -> os_ptr o = Z.of_nat (length a) ->
  OS.consume_no_check o (Z.of_nat (length b))
  = Ok (b, mkOS (os_data o) (os_ptr o + Z.of_nat (length b)) (os_max_length o)).
Proof.
  destruct o as [d p cap]; simpl. intros -> ->. apply consume_no_check_at.
Qed.

(** A limb stored in the buffer is read back at its place. *)
Lemma get_no_check_eq (o : octetStream) (a c : list byte) (v : Z) :
  os_data o = a ++ Z2.to_bytes v ++ c -> os_ptr o = Z.of_nat (length a) ->
  OS.get_no_check o
  = Ok (Z2.wrap v, mkOS (os_data o) (os_ptr o + Z2.size) (os_max_length o)).
Proof.
  intros Hd Hp. unfold OS.get_no_check.
  rewrite <- (Z2Facts.length_to_bytes v).
  rewrite (consume_no_check_eq o a (Z2.to_bytes v) c Hd Hp). simpl.
  rewrite Z2Facts.of_bytes_to_bytes. reflexivity.
Qed.

Lemma store_no_resize_ok (o : octetStream) (v : Z) :
  OS.get_length o + Z2.size <= os_max_length o ->
  OS.store_no_resize o v
  = Ok (mkOS (os_data o ++ Z2.to_bytes v) (os_ptr o) (os_max_length o)).
Proof.
  intros H. unfold OS.store_no_resize, OS.append_no_resize, OS.get_max_length.
  rewrite Z2Facts.length_to_bytes.
  destruct (Z.leb_spec (OS.get_length o + Z2.size) (os_max_length o)); [|lia].
  reflexivity.
Qed.

(** [reserve] on a cleared buffer. *)
Lemma reserve_clear (o : octetStream) (l : Z) :
  0 <= l < 2 ^ 64 ->
  OS.reserve (OS.clear o) l = mkOS [] 0 l.
Proof.
  intros H. unfold OS.reserve, OS.clear, OS.empty, OS.resize_precise,
    OS.get_length, OS.get_max_length; simpl.
  rewrite size_t_wrap_small by lia.
  destruct (Z.gtb_spec l 0).
  - destruct (Z.eqb_spec l 0); [lia|reflexivity].
  - replace l with 0 by lia. reflexivity.
Qed.

Lemma istream_read_at (a rest : list byte) :
  OS.istream_read (a ++ rest) (Z.of_nat (length a)) = Some (a, rest).
Proof.
  unfold OS.istream_read. rewrite length_app.
  destruct (Z.ltb_spec (Z.of_nat (length a + length rest)) (Z.of_nat (length a))); [lia|].
  rewrite Nat2Z.id, firstn_app, Nat.sub_diag, firstn_all, skipn_app,
    Nat.sub_diag, skipn_all. simpl. rewrite app_nil_r. reflexivity.
Qed.

(** A record written by [output] is read back by [input], and the file
    stream is left behind it. *)
Lemma input_output (o w : octetStream) (rest : list byte) :
  OS.get_length w < 2 ^ 64 ->
  OS.input o (OS.output w [] ++ rest)
  = Ok (mkOS (os_data w) 0 (os_max_length (OS.resize_min o (OS.get_length w))),
        rest).
Proof.
  intros Hlen. unfold OS.input, OS.output.
  rewrite app_nil_l, <- app_assoc.
  pose proof (istream_read_at (le_split 8 (OS.get_length w))
                (os_data w ++ rest)) as H8.
  rewrite length_le_split in H8. change (Z.of_nat 8) with 8 in H8.
  rewrite H8. rewrite le_combine_split.
  change (Z.of_nat 8 * 8) with 64.
  rewrite Z.mod_small by (unfold OS.get_length in *; lia).
  unfold OS.get_length at 2. rewrite istream_read_at. reflexivity.
Qed.
End BufferFacts.

(* ===================================================================== *)
(** ** The online multiplication round *)
(* ===================================================================== *)

Section OnlineFacts.
Context {D : Z2k}.

Lemma length_limbs_bytes (vs : list Z) :
  Z.of_nat (length (limbs_bytes vs)) = Z2.size * Z.of_nat (length vs).
Proof.
  induction vs as [|v vs IH]; [simpl; lia|].
  cbn [limbs_bytes flat_map length]. fold (limbs_bytes vs).
  rewrite length_app, Nat2Z.inj_add, Nat2Z.inj_succ, IH,
    Z2Facts.length_to_bytes. lia.
Qed.

Lemma length_pairs_bytes (gts : list (Z * Z)) :
  Z.of_nat (length (pairs_bytes gts)) = 2 * Z2.size * Z.of_nat (length gts).
Proof.
  induction gts as [|gt gts IH]; [simpl; lia|].
  cbn [pairs_bytes flat_map length]. fold (pairs_bytes gts).
  rewrite !length_app, !Nat2Z.inj_add, Nat2Z.inj_succ, IH,
    !Z2Facts.length_to_bytes. lia.
Qed.

Lemma length_online_shares (Vs : list Z) (gts : list (Z * Z)) :
  length gts = length Vs -> length (online_shares Vs gts) = length Vs.
Proof.
  revert gts. induction Vs as [|V Vs IH]; intros [|gt gts] H; simpl in *;
    try discriminate; auto.
Qed.

(** One call of [pre] on a pair that is there. *)
Lemma pre_eq (my_num : Z) (os os_prep : octetStream) (a c : list byte)
      (g t V : Z) :
  os_data os_prep = a ++ (Z2.to_bytes g ++ Z2.to_bytes t) ++ c ->
  os_ptr os_prep = Z.of_nat (length a) ->
  OS.get_length os + Z2.size <= os_max_length os ->
  AstraOnline.pre my_num os os_prep V
  = Ok (mkVec (M_z V (Z2.wrap g) (Z2.wrap t)) (Z2.wrap t),
        mkOS (os_data os ++ Z2.to_bytes (M_z V (Z2.wrap g) (Z2.wrap t)))
             (os_ptr os) (os_max_length os),
        mkOS (os_data os_prep) (os_ptr os_prep + 2 * Z2.size)
             (os_max_length os_prep)).
Proof.
  intros Hd Hp Hcap. unfold AstraOnline.pre.
  rewrite (get_no_check_eq os_prep a (Z2.to_bytes t ++ c) g);
    [|rewrite Hd, <- !app_assoc; reflexivity|exact Hp].
  cbn [bind].
  rewrite (get_no_check_eq _ (a ++ Z2.to_bytes g) c t); cbn [os_data os_ptr];
    [|rewrite Hd, <- !app_assoc; reflexivity
     |rewrite Hp, length_app, Nat2Z.inj_add, Z2Facts.length_to_bytes; reflexivity].
  cbn [bind os_data os_ptr os_max_length limb0 limb1].
  unfold AstraShare.neg_lambda, AstraShare.set_m. cbn [limb0 limb1].
  rewrite store_no_resize_ok by exact Hcap. cbn [bind].
  unfold M_z.
  replace (os_ptr os_prep + Z2.size + Z2.size)
    with (os_ptr os_prep + 2 * Z2.size) by lia.
  reflexivity.
Qed.

(** The loop over the queued dot products. *)
Lemma pre_inputs_eq (my_num : Z) (c : list byte) :
  forall (ins : list Z) (gts : list (Z * Z)) (a : list byte)
         (rs : IteratorVector FixedVec) (os os_prep : octetStream),
    length gts = length ins ->
    os_data os_prep = a ++ pairs_bytes gts ++ c ->
    os_ptr os_prep = Z.of_nat (length a) ->
    OS.get_length os + Z2.size * Z.of_nat (length ins) <= os_max_length os ->
    AstraOnline.pre_inputs my_num ins rs os os_prep
    = Ok (mkIV (iv_elems rs ++ online_shares ins gts) (iv_it rs),
          mkOS (os_data os ++ limbs_bytes (map limb0 (online_shares ins gts)))
               (os_ptr os) (os_max_length os),
          mkOS (os_data os_prep)
               (os_ptr os_prep + 2 * Z2.size * Z.of_nat (length ins))
               (os_max_length os_prep)).
Proof.
  induction ins as [|V ins IH]; intros [|[g t] gts] a rs os os_prep Hl Hd Hp Hcap;
    try discriminate.
  - simpl. rewrite !app_nil_r, Z.mul_0_r, Z.add_0_r.
    destruct rs, os, os_prep; reflexivity.
  - cbn [AstraOnline.pre_inputs].
    pose proof Z2Facts.size_nonneg as Hs.
    cbn [length] in Hcap. rewrite Nat2Z.inj_succ in Hcap.
    rewrite (pre_eq my_num os os_prep a (pairs_bytes gts ++ c) g t V);
      [|rewrite Hd; cbn [pairs_bytes flat_map fst snd];
        rewrite <- !app_assoc; reflexivity
       |exact Hp|nia].
    cbn [bind].
    rewrite (IH gts (a ++ Z2.to_bytes g ++ Z2.to_bytes t)); cbn [os_data os_ptr os_max_length].
    + cbn [online_shares map limbs_bytes flat_map fst snd length iv_elems iv_it
             IV.push_back limb0].
      rewrite Nat2Z.inj_succ. rewrite <- !app_assoc. cbn [app].
      replace (os_ptr os_prep + 2 * Z2.size + 2 * Z2.size * Z.of_nat (length ins))
        with (os_ptr os_prep + 2 * Z2.size * Z.succ (Z.of_nat (length ins))) by lia.
      reflexivity.
    + simpl in Hl. lia.
    + rewrite Hd. cbn [pairs_bytes flat_map fst snd].
      rewrite <- !app_assoc. reflexivity.
    + rewrite Hp, !length_app, !Nat2Z.inj_add, !Z2Facts.length_to_bytes. lia.
    + unfold OS.get_length in *. cbn [os_data].
      rewrite length_app, Nat2Z.inj_add, Z2Facts.length_to_bytes. lia.
Qed.

(** The loop over the operand pairs is the loop over their local
    products. *)
Lemma pre_pairs_as_inputs (my_num : Z) (f : FixedVec -> FixedVec -> Z) :
  forall (pairs : list (FixedVec * FixedVec))
         (rs : IteratorVector FixedVec) (os os_prep : octetStream),
    AstraOnline.pre_pairs my_num (fun x y => Ok (f x y)) pairs rs os os_prep
    = AstraOnline.pre_inputs my_num (map (fun x => f (fst x) (snd x)) pairs)
                             rs os os_prep.
Proof.
  induction pairs as [|x pairs IH]; intros rs os os_prep; simpl.
  - reflexivity.
  - destruct (AstraOnline.pre my_num os os_prep (f (fst x) (snd x)))
      as [[[res os'] os_prep']| | |]; simpl; auto.
Qed.

(** The loop adding the received values. *)
Lemma add_received_eq (my_num : Z) (c : list byte) :
  forall (rs : list FixedVec) (vs : list Z) (a : list byte)
         (recv_os : octetStream),
    length vs = length rs ->
    os_data recv_os = a ++ limbs_bytes vs ++ c ->
    os_ptr recv_os = Z.of_nat (length a) ->
    AstraOnline.add_received my_num rs recv_os
    = Ok (add_to_m rs vs,
          mkOS (os_data recv_os)
               (os_ptr recv_os + Z2.size * Z.of_nat (length rs))
               (os_max_length recv_os)).
Proof.
  induction rs as [|r rs IH]; intros [|v vs] a recv_os Hl Hd Hp;
    try discriminate.
  - simpl. rewrite Z.mul_0_r, Z.add_0_r. destruct recv_os; reflexivity.
  - cbn [AstraOnline.add_received].
    rewrite (get_no_check_eq recv_os a (limbs_bytes vs ++ c) v);
      [|rewrite Hd; cbn [limbs_bytes flat_map]; rewrite <- !app_assoc; reflexivity
       |exact Hp].
    cbn [bind].
    rewrite (IH vs (a ++ Z2.to_bytes v)); cbn [os_data os_ptr os_max_length].
    + cbn [bind add_to_m length]. unfold AstraShare.set_m, AstraShare.m.
      rewrite Nat2Z.inj_succ.
      replace (os_ptr recv_os + Z2.size + Z2.size * Z.of_nat (length rs))
        with (os_ptr recv_os + Z2.size * Z.succ (Z.of_nat (length rs))) by lia.
      reflexivity.
    + simpl in Hl. lia.
    + rewrite Hd. cbn [limbs_bytes flat_map]. rewrite <- !app_assoc. reflexivity.
    + rewrite Hp, length_app, Nat2Z.inj_add, Z2Facts.length_to_bytes. reflexivity.
Qed.
End OnlineFacts.

Section OnlineRound.
Context {D : Z2k}.

Lemma pairs_bytes_app (g1 g2 : list (Z * Z)) :
  pairs_bytes (g1 ++ g2) = pairs_bytes g1 ++ pairs_bytes g2.
Proof. apply flat_map_app. Qed.

Lemma online_shares_app (V1 V2 : list Z) (g1 g2 : list (Z * Z)) :
  length g1 = length V1 ->
  online_shares (V1 ++ V2) (g1 ++ g2)
  = online_shares V1 g1 ++ online_shares V2 g2.
Proof.
  revert g1. induction V1 as [|V V1 IH]; intros [|g g1] H; simpl in *;
    try discriminate; auto.
  f_equal. apply IH. lia.
Qed.

Lemma pre_pairs_online (i : Z) (pairs : list (FixedVec * FixedVec))
      (rs : IteratorVector FixedVec) (os os_prep : octetStream) :
  (if i =? 1
   then AstraOnline.pre_pairs i (@local_mul_P1 AstraShare_type) pairs rs os os_prep
   else AstraOnline.pre_pairs i (@local_mul_P2 AstraShare_type) pairs rs os os_prep)
  = AstraOnline.pre_inputs i (map (online_local_mul i) pairs) rs os os_prep.
Proof.
  unfold online_local_mul.
  destruct (i =? 1); cbn [local_mul_P1 local_mul_P2 AstraShare_type];
    rewrite pre_pairs_as_inputs; reflexivity.
Qed.

(** The first half of [exchange] on a tape whose next record holds one
    pair per multiplication of the batch. *)
Lemma exchange_prepare_eq (i : Z) (ins : list Z)
      (pairs : list (FixedVec * FixedVec)) (it : nat) (nm : Z)
      (os0 osp0 : octetStream) (g1 g2 : list (Z * Z)) (rest : list byte) :
  0 < i ->
  length g1 = length ins -> length g2 = length pairs ->
  let n := Z.of_nat (length ins + length pairs) in
  n < 2 ^ 64 -> 2 * Z2.size * n < 2 ^ 64 ->
  let shares := online_shares (ins ++ map (online_local_mul i) pairs) (g1 ++ g2) in
  AstraOnline.exchange_prepare
    (mkAstra (mkBase ins pairs (mkIV [] it) nm) i os0 osp0
             (OS.output (mkOS (pairs_bytes (g1 ++ g2)) 0 0) [] ++ rest))
  = Ok (mkAstra (mkBase ins pairs (mkIV shares it) nm) i
                (mkOS (limbs_bytes (map limb0 shares)) 0 (n * Z2.size))
                (mkOS (pairs_bytes (g1 ++ g2)) (2 * Z2.size * n)
                      (os_max_length
                         (OS.resize_min osp0 (2 * Z2.size * n))))
                rest,
        Some (limbs_bytes (map limb0 shares))).
Proof.
  intros Hi Hl1 Hl2 n Hn Hfit shares.
  pose proof Z2Facts.size_nonneg as Hs.
  assert (Hn0 : 0 <= n) by (unfold n; lia).
  assert (Hlen : OS.get_length (mkOS (pairs_bytes (g1 ++ g2)) 0 0)
                 = 2 * Z2.size * n).
  { unfold OS.get_length. cbn [os_data].
    rewrite length_pairs_bytes, length_app, Hl1, Hl2. reflexivity. }
  unfold AstraOnline.exchange_prepare.
  cbn [on_base results inputs input_pairs astra_num on_prep on_os on_os_prep
       n_mults IV.size iv_elems length].
  change (IV.size (mkIV (@nil FixedVec) it) =? 0) with true. cbn [assert bind].
  destruct (Z.gtb_spec i 0) as [_|]; [|lia].
  unfold AstraOnline.read.
  rewrite input_output by (rewrite Hlen; lia).
  cbn [bind os_data]. rewrite Hlen.
  rewrite <- Nat2Z.inj_add. fold n.
  rewrite (size_t_wrap_small n) by lia.
  rewrite (size_t_wrap_small (n * Z2.size)) by nia.
  rewrite (size_t_wrap_small (Z2.size * n)) by nia.
  rewrite reserve_clear by nia.
  unfold OS.left at 1. unfold OS.get_length at 1. cbn [os_data os_ptr].
  rewrite length_pairs_bytes, length_app, Hl1, Hl2, Z.sub_0_r. fold n.
  rewrite (size_t_wrap_small (2 * Z2.size * n)) by nia.
  destruct (Z.ltb_spec (2 * Z2.size * n) (Z2.size * n)) as [Hlt|_]; [nia|].
  cbn [throw_if bind].
  rewrite (pre_inputs_eq i (pairs_bytes g2) ins g1 []);
    cbn [os_data os_ptr os_max_length length app iv_elems iv_it];
    [|exact Hl1|apply pairs_bytes_app|reflexivity
     |unfold OS.get_length; cbn [os_data length]; unfold n in *; nia].
  cbn [bind].
  rewrite pre_pairs_online.
  rewrite (pre_inputs_eq i [] (map (online_local_mul i) pairs) g2 (pairs_bytes g1));
    cbn [os_data os_ptr os_max_length iv_elems iv_it];
    [|rewrite length_map; exact Hl2
     |rewrite app_nil_r; apply pairs_bytes_app
     |rewrite length_pairs_bytes, Hl1; lia
     |unfold OS.get_length; cbn [os_data];
      rewrite length_limbs_bytes, length_map, length_online_shares, length_map by exact Hl1;
      unfold n in *; nia].
  cbn [bind app].
  unfold shares. rewrite online_shares_app by exact Hl1.
  rewrite map_app. unfold limbs_bytes. rewrite !flat_map_app.
  rewrite length_map.
  replace (0 + 2 * Z2.size * Z.of_nat (length ins)
           + 2 * Z2.size * Z.of_nat (length pairs))
    with (2 * Z2.size * n) by (unfold n; lia).
  reflexivity.
Qed.
(** The second half of [exchange] on a message that holds one value per
    multiplication of the batch. *)
Lemma exchange_finish_eq (i : Z) (ins : list Z)
      (pairs : list (FixedVec * FixedVec)) (shares : list FixedVec)
      (it : nat) (nm : Z) (os osp : octetStream) (rest : list byte)
      (Rs : list Z) :
  0 < i ->
  length Rs = length shares ->
  Z2.size * Z.of_nat (length shares) < 2 ^ 64 ->
  OS.left osp = 0 ->
  AstraOnline.exchange_finish
    (mkAstra (mkBase ins pairs (mkIV shares it) nm) i os osp rest)
    (limbs_bytes Rs)
  = Ok (mkAstra (mkBase ins pairs (mkIV (add_to_m shares Rs) 0) nm) i os osp rest).
Proof.
  intros Hi Hl Hfit Hleft.
  pose proof Z2Facts.size_nonneg as Hs.
  unfold AstraOnline.exchange_finish.
  cbn [on_base results inputs input_pairs astra_num on_prep on_os on_os_prep
       n_mults iv_elems iv_it].
  destruct (Z.gtb_spec i 0) as [_|]; [|lia].
  unfold OS.Receive, IV.size. cbn [iv_elems].
  unfold OS.left at 1. unfold OS.get_length at 1. cbn [os_data os_ptr].
  rewrite length_limbs_bytes, Hl, Z.sub_0_r.
  rewrite (size_t_wrap_small (Z2.size * Z.of_nat (length shares))) by nia.
  rewrite Z.ltb_irrefl. cbn [throw_if bind].
  rewrite (add_received_eq i [] shares Rs []);
    cbn [os_data os_ptr os_max_length length app];
    [|exact Hl|rewrite app_nil_r; reflexivity|reflexivity].
  cbn [bind]. rewrite Hleft. cbn [Z.eqb assert bind IV.reset iv_elems].
  reflexivity.
Qed.
End OnlineRound.

Section OnlineRoundPointwise.
Context {D : Z2k}.

Lemma nth_online_shares (Vs : list Z) (gts : list (Z * Z)) :
  forall (j : nat) (V : Z) (gt : Z * Z),
    nth_error Vs j = Some V -> nth_error gts j = Some gt ->
    nth_error (online_shares Vs gts) j
    = Some (mkVec (M_z V (Z2.wrap (fst gt)) (Z2.wrap (snd gt)))
                  (Z2.wrap (snd gt))).
Proof.
  revert gts. induction Vs as [|V0 Vs IH]; intros [|g0 gts] [|j] V gt HV Hg;
    simpl in *; try discriminate.
  - injection HV as <-. injection Hg as <-. reflexivity.
  - apply IH; assumption.
Qed.

Lemma nth_add_to_m (rs : list FixedVec) (vs : list Z) :
  forall (j : nat) (r : FixedVec) (v : Z),
    nth_error rs j = Some r -> nth_error vs j = Some v ->
    nth_error (add_to_m rs vs) j
    = Some (mkVec (Z2.add (limb0 r) (Z2.wrap v)) (limb1 r)).
Proof.
  revert vs. induction rs as [|r0 rs IH]; intros [|v0 vs] [|j] r v Hr Hv;
    simpl in *; try discriminate.
  - injection Hr as <-. injection Hv as <-. reflexivity.
  - apply IH; assumption.
Qed.

Lemma M_z_formula (V gamma t : Z) :
  M_z V (Z2.wrap gamma) (Z2.wrap t) = Z2.wrap (V - t + gamma) /\
  M_z V (Z2.wrap gamma) (Z2.wrap t)
  = Z2.add (Z2.add V (Z2.neg t)) gamma.
Proof. unfold M_z. split; z2_ring. Qed.

Lemma left_consumed (d : list byte) (cap : Z) :
  OS.left (mkOS d (Z.of_nat (length d)) cap) = 0.
Proof.
  unfold OS.left, OS.get_length. cbn [os_data os_ptr].
  rewrite Z.sub_diag. reflexivity.
Qed.
End OnlineRoundPointwise.

(** C3, as stated, fails: with the pair [(gamma, t) = (0, 1)] on the tape,
    [t] being the limb the tape holds for [- lambda(xy)], and the local
    product [V = 0], [pre] forms [V - t + gamma = 2^64 - 1], whereas
    [V - lambda(xy) + gamma] with [lambda(xy) = - t] is 1. *)
Lemma C3_counterexample :
  let V := 0 in
  let gamma := 0 in
  let neg_lambda_xy := 1 in
  let lambda_xy := @Z2.neg Z2_64 neg_lambda_xy in
  let os_prep := mkOS (@pairs_bytes Z2_64 [(gamma, neg_lambda_xy)]) 0 16 in
  let os := mkOS [] 0 8 in
  exists res os' os_prep',
    @AstraOnline.pre Z2_64 1 os os_prep V = Ok (res, os', os_prep') /\
    AstraShare.neg_lambda res 1 = neg_lambda_xy /\
    AstraShare.m res 1 = 18446744073709551615 /\
    @Z2.add Z2_64 (@Z2.sub Z2_64 V lambda_xy) gamma = 1 /\
    AstraShare.m res 1 <> @Z2.add Z2_64 (@Z2.sub Z2_64 V lambda_xy) gamma.
Proof.
  cbv zeta. eexists. eexists. eexists.
  split; [vm_compute; reflexivity|].
  split; [reflexivity|]. split; [reflexivity|]. split; [reflexivity|].
  vm_compute. discriminate.
Qed.

(** C3, amended. In the online multiplication round the online party with
    index [i] forms for every multiplication [M_z = V - t + gamma], where
    [V] is its local product ([local_mul_P1] on party 1, [local_mul_P2] on
    party 2, or the queued dot product) and [(gamma, t)] is the next pair
    of the tape, [t] being kept as limb 1 of the result, the negated mask
    share (so [M_z = V + lambda(xy) + gamma]); it stores [M_z] as the
    m-limb of the result and puts it on the wire; after the exchange the
    m-limb is [M_z] plus the value received for that multiplication. *)
Theorem C3_online_round {D : Z2k} (i : Z) (ins : list Z)
    (pairs : list (FixedVec * FixedVec)) (it : nat) (nm : Z)
    (os0 osp0 : octetStream) (g1 g2 : list (Z * Z)) (rest : list byte)
    (Rs : list Z) :
  i = 1 \/ i = 2 ->
  length g1 = length ins -> length g2 = length pairs ->
  length Rs = (length ins + length pairs)%nat ->
  Z.of_nat (length ins + length pairs) < 2 ^ 64 ->
  2 * Z2.size * Z.of_nat (length ins + length pairs) < 2 ^ 64 ->
  let Vs := ins ++ map (online_local_mul i) pairs in
  let gts := g1 ++ g2 in
  let shares := online_shares Vs gts in
  let st := mkAstra (mkBase ins pairs (mkIV [] it) nm) i os0 osp0
                    (OS.output (mkOS (pairs_bytes gts) 0 0) [] ++ rest) in
  exists st1 st2,
    AstraOnline.exchange_prepare st
      = Ok (st1, Some (limbs_bytes (map limb0 shares))) /\
    AstraOnline.exchange_finish st1 (limbs_bytes Rs) = Ok st2 /\
    AstraOnline.exchange st (limbs_bytes Rs)
      = Ok (st2, Some (limbs_bytes (map limb0 shares))) /\
    results (on_base st1) = mkIV shares it /\
    results (on_base st2) = mkIV (add_to_m shares Rs) 0 /\
    on_prep st2 = rest /\
    forall (j : nat) (V gamma t R : Z),
      nth_error Vs j = Some V ->
      nth_error gts j = Some (gamma, t) ->
      nth_error Rs j = Some R ->
      let M := Z2.wrap (V - t + gamma) in
      M = Z2.add (Z2.add V (Z2.neg t)) gamma /\
      nth_error shares j = Some (mkVec M (Z2.wrap t)) /\
      nth_error (map limb0 shares) j = Some M /\
      nth_error (add_to_m shares Rs) j
      = Some (mkVec (Z2.add M (Z2.wrap R)) (Z2.wrap t)).
Proof.
  intros Hi Hl1 Hl2 HlR Hn Hfit Vs gts shares st.
  assert (Hi0 : 0 < i) by lia.
  pose proof Z2Facts.size_nonneg as Hs.
  assert (Hlsh : length shares = (length ins + length pairs)%nat).
  { unfold shares, Vs, gts. rewrite length_online_shares;
      rewrite !length_app, ?length_map; lia. }
  pose proof (exchange_prepare_eq i ins pairs it nm os0 osp0 g1 g2 rest
                Hi0 Hl1 Hl2 Hn Hfit) as Hprep.
  cbv zeta in Hprep. fold Vs gts shares st in Hprep.
  eexists. eexists.
  split; [exact Hprep|].
  assert (Hfin := exchange_finish_eq i ins pairs shares it nm
    (mkOS (limbs_bytes (map limb0 shares)) 0
          (Z.of_nat (length ins + length pairs) * Z2.size))
    (mkOS (pairs_bytes gts)
          (2 * Z2.size * Z.of_nat (length ins + length pairs))
          (os_max_length
             (OS.resize_min osp0
                (2 * Z2.size * Z.of_nat (length ins + length pairs)))))
    rest Rs Hi0).
  rewrite Hlsh in Hfin. specialize (Hfin HlR).
  assert (Hfin' := Hfin ltac:(nia)). clear Hfin.
  assert (Hleft : OS.left
            (mkOS (pairs_bytes gts)
               (2 * Z2.size * Z.of_nat (length ins + length pairs))
               (os_max_length
                  (OS.resize_min osp0
                     (2 * Z2.size * Z.of_nat (length ins + length pairs)))))
          = 0).
  { replace (2 * Z2.size * Z.of_nat (length ins + length pairs))
      with (Z.of_nat (length (pairs_bytes gts)))
      by (unfold gts; rewrite length_pairs_bytes, length_app, Hl1, Hl2;
          reflexivity).
    apply left_consumed. }
  specialize (Hfin' Hleft).
  split; [exact Hfin'|].
  split.
  { unfold AstraOnline.exchange. rewrite Hprep. cbn [bind].
    rewrite Hfin'. reflexivity. }
  split; [reflexivity|]. split; [reflexivity|]. split; [reflexivity|].
  intros j V gamma t R HV Hg HR M.
  destruct (M_z_formula V gamma t) as [HM1 HM2].
  pose proof (nth_online_shares Vs gts j V (gamma, t) HV Hg) as Hsh.
  cbn [fst snd] in Hsh. rewrite HM1 in Hsh. fold M in Hsh.
  split; [unfold M; rewrite <- HM1; exact HM2|].
  split; [exact Hsh|].
  split; [rewrite nth_error_map; unfold shares; rewrite Hsh; reflexivity|].
  apply (nth_add_to_m shares Rs j _ R Hsh HR).
Qed.

(** One multiplication on online party 1, 64-bit ring: operands
    [(m, l) = (10, -4)] and [(7, 1)], tape pair [(5, 9)], received 3. *)
Lemma C3_witness :
  let x := mkVec 10 18446744073709551612 in
  let y := mkVec 7 1 in
  let tape := OS.output (mkOS (@pairs_bytes Z2_64 [(5, 9)]) 0 0) [] in
  let st := mkAstra (mkBase [] [(x, y)] (mkIV [] 0%nat) 0) 1 OS.empty OS.empty tape in
  exists st2 sent,
    @AstraOnline.exchange Z2_64 st (@limbs_bytes Z2_64 [3]) = Ok (st2, sent) /\
    results (on_base st2)
    = mkIV [mkVec (@Z2.wrap Z2_64 (@online_local_mul Z2_64 1 (x, y) - 9 + 5 + 3)) 9]
           0%nat.
Proof.
  intros x y tape st.
  destruct (@C3_online_round Z2_64 1 [] [(x, y)] 0%nat 0 OS.empty OS.empty
              [] [(5, 9)] [] [3])
    as [st1 [st2 (_ & _ & Hex & _ & Hres & _)]].
  - left. reflexivity.
  - reflexivity.
  - reflexivity.
  - reflexivity.
  - vm_compute. reflexivity.
  - vm_compute. reflexivity.
  - exists st2. eexists. split.
    + rewrite app_nil_r in Hex. exact Hex.
    + rewrite Hres. reflexivity.
Defined.

(* ===================================================================== *)
(** ** Consumption of the tape *)
(* ===================================================================== *)

Section TapeConsumption.
Context {D : Z2k}.

Lemma advanced_refl (o : octetStream) : advanced o o 0.
Proof. unfold advanced. repeat split; try lia. Qed.

Lemma advanced_trans (o1 o2 o3 : octetStream) (l1 l2 : Z) :
  advanced o1 o2 l1 -> advanced o2 o3 l2 -> advanced o1 o3 (l1 + l2).
Proof.
  unfold advanced. intros (Hd1 & Hp1 & Hm1 & Hr1) (Hd2 & Hp2 & Hm2 & Hr2).
  unfold OS.get_length in *. rewrite Hd2, Hd1 in *.
  repeat split; try congruence; lia.
Qed.

Lemma consume_no_check_inv (o o' : octetStream) (l : Z) (bs : list byte) :
  0 <= l ->
  OS.consume_no_check o l = Ok (bs, o') -> advanced o o' l.
Proof.
  intros Hl. unfold OS.consume_no_check.
  destruct (Z.leb_spec 0 (os_ptr o)) as [Hp|Hp]; [|discriminate].
  destruct (Z.leb_spec (os_ptr o + l) (OS.get_length o)) as [He|He];
    [|discriminate].
  cbn [andb]. intros Hok. injection Hok as _ <-.
  unfold advanced, OS.get_length in *. cbn [os_data os_ptr os_max_length].
  repeat split; lia.
Qed.

Lemma get_no_check_inv (o o' : octetStream) (v : Z) :
  OS.get_no_check o = Ok (v, o') -> advanced o o' Z2.size.
Proof.
  unfold OS.get_no_check. intros H.
  apply bind_Ok_inv in H. destruct H as [[bs o1] [Hc H]].
  injection H as _ <-.
  apply (consume_no_check_inv _ _ _ _ Z2Facts.size_nonneg Hc).
Qed.

Lemma pre_inv (my_num : Z) (os os_prep os' os_prep' : octetStream)
      (V : Z) (res : FixedVec) :
  AstraOnline.pre my_num os os_prep V = Ok (res, os', os_prep') ->
  advanced os_prep os_prep' (2 * Z2.size).
Proof.
  unfold AstraOnline.pre. intros H.
  apply bind_Ok_inv in H. destruct H as [[g o1] [H1 H]].
  apply bind_Ok_inv in H. destruct H as [[t o2] [H2 H]].
  apply bind_Ok_inv in H. destruct H as [o3 [_ H]].
  injection H as _ _ <-.
  replace (2 * Z2.size) with (Z2.size + Z2.size) by lia.
  eapply advanced_trans; eapply get_no_check_inv; eassumption.
Qed.

Lemma pre_inputs_inv (my_num : Z) :
  forall (ins : list Z) (rs rs' : IteratorVector FixedVec)
         (os os_prep os' os_prep' : octetStream),
    AstraOnline.pre_inputs my_num ins rs os os_prep = Ok (rs', os', os_prep') ->
    advanced os_prep os_prep' (2 * Z2.size * Z.of_nat (length ins)).
Proof.
  induction ins as [|V ins IH]; intros rs rs' os os_prep os' os_prep' H.
  - simpl in H. injection H as _ _ <-.
    rewrite Z.mul_0_r. apply advanced_refl.
  - cbn [AstraOnline.pre_inputs] in H.
    apply bind_Ok_inv in H. destruct H as [[[res o1] op1] [H1 H]].
    apply pre_inv in H1. apply IH in H.
    cbn [length]. rewrite Nat2Z.inj_succ.
    replace (2 * Z2.size * Z.succ (Z.of_nat (length ins)))
      with (2 * Z2.size + 2 * Z2.size * Z.of_nat (length ins)) by lia.
    eapply advanced_trans; eassumption.
Qed.

Lemma pre_pairs_inv (my_num : Z) (lm : FixedVec -> FixedVec -> outcome Z) :
  forall (pairs : list (FixedVec * FixedVec))
         (rs rs' : IteratorVector FixedVec)
         (os os_prep os' os_prep' : octetStream),
    AstraOnline.pre_pairs my_num lm pairs rs os os_prep = Ok (rs', os', os_prep') ->
    advanced os_prep os_prep' (2 * Z2.size * Z.of_nat (length pairs)).
Proof.
  induction pairs as [|x pairs IH]; intros rs rs' os os_prep os' os_prep' H.
  - simpl in H. injection H as _ _ <-.
    rewrite Z.mul_0_r. apply advanced_refl.
  - cbn [AstraOnline.pre_pairs] in H.
    apply bind_Ok_inv in H. destruct H as [v [_ H]].
    apply bind_Ok_inv in H. destruct H as [[[res o1] op1] [H1 H]].
    apply pre_inv in H1. apply IH in H.
    cbn [length]. rewrite Nat2Z.inj_succ.
    replace (2 * Z2.size * Z.succ (Z.of_nat (length pairs)))
      with (2 * Z2.size + 2 * Z2.size * Z.of_nat (length pairs)) by lia.
    eapply advanced_trans; eassumption.
Qed.

(** [input] on a file that starts with a record. *)
Lemma input_record (o : octetStream) (record rest : list byte) :
  Z.of_nat (length record) < 2 ^ 64 ->
  OS.input o (OS.output (mkOS record 0 0) [] ++ rest)
  = Ok (mkOS record 0
             (os_max_length (OS.resize_min o (Z.of_nat (length record)))),
        rest).
Proof. intros H. apply (input_output o (mkOS record 0 0) rest H). Qed.
End TapeConsumption.

Section TapeConsumptionRound.
Context {D : Z2k}.

Lemma assert_Ok_inv (b : bool) (w : string) (u : unit) :
  assert b w = Ok u -> b = true.
Proof. destruct b; [reflexivity|discriminate]. Qed.

Lemma throw_if_Ok_inv (b : bool) (w : string) (u : unit) :
  throw_if b w = Ok u -> b = false.
Proof. destruct b; [discriminate|reflexivity]. Qed.

(** A record shorter than one limb per multiplication stops the round
    before anything is handed to the network. *)
Lemma exchange_prepare_short (i : Z) (ins : list Z)
      (pairs : list (FixedVec * FixedVec)) (it : nat) (nm : Z)
      (os0 osp0 : octetStream) (record rest : list byte) :
  0 < i ->
  let n := Z.of_nat (length ins + length pairs) in
  n < 2 ^ 64 -> Z2.size * n < 2 ^ 64 ->
  Z.of_nat (length record) < Z2.size * n ->
  AstraOnline.exchange_prepare
    (mkAstra (mkBase ins pairs (mkIV [] it) nm) i os0 osp0
             (OS.output (mkOS record 0 0) [] ++ rest))
  = Throw "insufficient preprocessing".
Proof.
  intros Hi n Hn Hfit Hshort.
  pose proof Z2Facts.size_nonneg as Hs.
  unfold AstraOnline.exchange_prepare.
  cbn [on_base results inputs input_pairs astra_num on_prep on_os on_os_prep
       n_mults].
  change (IV.size (mkIV (@nil FixedVec) it) =? 0) with true. cbn [assert bind].
  destruct (Z.gtb_spec i 0) as [_|]; [|lia].
  unfold AstraOnline.read. rewrite input_record by lia. cbn [bind].
  rewrite <- Nat2Z.inj_add. fold n.
  rewrite (size_t_wrap_small n) by lia.
  rewrite (size_t_wrap_small (Z2.size * n)) by lia.
  unfold OS.left, OS.get_length. cbn [os_data os_ptr].
  rewrite Z.sub_0_r, size_t_wrap_small by lia.
  destruct (Z.ltb_spec (Z.of_nat (length record)) (Z2.size * n)); [|lia].
  reflexivity.
Qed.

(** A round that succeeds has consumed its record to the last byte, and
    the record held two limbs per multiplication. *)
Lemma exchange_Ok_consumed (i : Z) (ins : list Z)
      (pairs : list (FixedVec * FixedVec)) (it : nat) (nm : Z)
      (os0 osp0 : octetStream) (record rest incoming : list byte)
      (st2 : Astra) (sent : option (list byte)) :
  0 < i ->
  let n := Z.of_nat (length ins + length pairs) in
  Z.of_nat (length record) < 2 ^ 64 ->
  AstraOnline.exchange
    (mkAstra (mkBase ins pairs (mkIV [] it) nm) i os0 osp0
             (OS.output (mkOS record 0 0) [] ++ rest)) incoming
  = Ok (st2, sent) ->
  Z.of_nat (length record) = 2 * Z2.size * n /\
  os_data (on_os_prep st2) = record /\
  os_ptr (on_os_prep st2) = Z.of_nat (length record) /\
  OS.left (on_os_prep st2) = 0 /\
  on_prep st2 = rest.
Proof.
  intros Hi n HL Hex.
  pose proof Z2Facts.size_nonneg as Hs.
  unfold AstraOnline.exchange in Hex.
  apply bind_Ok_inv in Hex. destruct Hex as [[st1 sent1] [Hprep Hex]].
  apply bind_Ok_inv in Hex. destruct Hex as [st2' [Hfin Hex]].
  injection Hex as <- <-.
  (* the first half *)
  unfold AstraOnline.exchange_prepare in Hprep.
  cbn [on_base results inputs input_pairs astra_num on_prep on_os on_os_prep
       n_mults] in Hprep.
  apply bind_Ok_inv in Hprep. destruct Hprep as [_ [_ Hprep]].
  destruct (Z.gtb_spec i 0) as [_|]; [|lia].
  unfold AstraOnline.read in Hprep. rewrite input_record in Hprep by lia.
  cbn [bind] in Hprep.
  apply bind_Ok_inv in Hprep. destruct Hprep as [_ [_ Hprep]].
  apply bind_Ok_inv in Hprep. destruct Hprep as [[[rs1 os1] osp1] [H1 Hprep]].
  apply bind_Ok_inv in Hprep. destruct Hprep as [[[rs2 os2] osp2] [H2 Hprep]].
  injection Hprep as <- _.
  apply pre_inputs_inv in H1.
  assert (H2' : advanced osp1 osp2 (2 * Z2.size * Z.of_nat (length pairs))).
  { destruct (i =? 1); eapply pre_pairs_inv; eassumption. }
  pose proof (advanced_trans _ _ _ _ _ H1 H2') as (Hd & Hp & _ & Hr).
  cbn [os_data os_ptr] in Hd, Hp, Hr.
  unfold OS.get_length in Hr. rewrite Hd in Hr. cbn [os_data] in Hr.
  specialize (Hr ltac:(lia)).
  (* the second half *)
  unfold AstraOnline.exchange_finish in Hfin.
  cbn [on_base results inputs input_pairs astra_num on_prep on_os on_os_prep
       n_mults] in Hfin.
  destruct (Z.gtb_spec i 0) as [_|]; [|lia].
  apply bind_Ok_inv in Hfin. destruct Hfin as [rs [Hrs Hfin]].
  injection Hfin as <-.
  cbn [on_os_prep on_prep].
  apply bind_Ok_inv in Hrs. destruct Hrs as [_ [_ Hrs]].
  apply bind_Ok_inv in Hrs. destruct Hrs as [[elems ro] [_ Hrs]].
  apply bind_Ok_inv in Hrs. destruct Hrs as [u [Hassert _]].
  apply assert_Ok_inv in Hassert. apply Z.eqb_eq in Hassert.
  assert (Hdiff : Z.of_nat (length record) - os_ptr osp2 = 0).
  { unfold OS.left, OS.get_length in Hassert. rewrite Hd in Hassert.
    rewrite size_t_wrap_small in Hassert by lia. exact Hassert. }
  repeat split.
  - unfold n. rewrite Nat2Z.inj_add. lia.
  - exact Hd.
  - lia.
  - unfold OS.left, OS.get_length. rewrite Hd.
    rewrite Hdiff. reflexivity.
Qed.
End TapeConsumptionRound.

(** C7, as stated, fails: a batch of one multiplication over the 64-bit
    ring ([|open_type| = 8]) succeeds on a record of 16 bytes and consumes
    all 16 of them, not [batch * |open_type| = 8]; and on a record of
    exactly 8 bytes the round neither succeeds nor reports "insufficient
    preprocessing": the second unchecked read leaves the buffer. *)
Lemma C7_counterexample :
  let x := mkVec 10 18446744073709551612 in
  let y := mkVec 7 1 in
  let batch := 1 in
  let record16 := @pairs_bytes Z2_64 [(5, 9)] in
  let record8 := @limbs_bytes Z2_64 [5] in
  let st record :=
    mkAstra (mkBase [] [(x, y)] (mkIV [] 0%nat) 0) 1 OS.empty OS.empty
            (OS.output (mkOS record 0 0) []) in
  @Z2.size Z2_64 = 8 /\
  (exists st2 sent,
     @AstraOnline.exchange Z2_64 (st record16) (@limbs_bytes Z2_64 [3])
       = Ok (st2, sent) /\
     os_ptr (on_os_prep st2) = 16 /\
     os_ptr (on_os_prep st2) <> batch * @Z2.size Z2_64) /\
  length record8 = 8%nat /\
  @AstraOnline.exchange_prepare Z2_64 (st record8)
    = Undefined "consume_no_check beyond the end".
Proof.
  cbv zeta. split; [reflexivity|]. split.
  - eexists. eexists. split; [vm_compute; reflexivity|].
    split; [reflexivity|]. vm_compute. discriminate.
  - split; [reflexivity|]. vm_compute. reflexivity.
Qed.

(** C7, amended. For an online multiplication batch of [n] multiplications
    the exchange reads the next record of the tape; if the record holds
    fewer than [n * |open_type|] bytes the round fails with "insufficient
    preprocessing" before anything is handed to the network; a round that
    succeeds has consumed [2 * n * |open_type|] bytes, one [gamma] limb and
    one mask-share limb per multiplication, which is the whole record. *)
Theorem C7_tape_consumption {D : Z2k} (i : Z) (ins : list Z)
    (pairs : list (FixedVec * FixedVec)) (it : nat) (nm : Z)
    (os0 osp0 : octetStream) (record rest incoming : list byte) :
  0 < i ->
  let n := Z.of_nat (length ins + length pairs) in
  let L := Z.of_nat (length record) in
  n < 2 ^ 64 -> Z2.size * n < 2 ^ 64 -> L < 2 ^ 64 ->
  let st := mkAstra (mkBase ins pairs (mkIV [] it) nm) i os0 osp0
                    (OS.output (mkOS record 0 0) [] ++ rest) in
  (L < Z2.size * n ->
     AstraOnline.exchange_prepare st = Throw "insufficient preprocessing" /\
     AstraOnline.exchange st incoming = Throw "insufficient preprocessing") /\
  (forall (st2 : Astra) (sent : option (list byte)),
     AstraOnline.exchange st incoming = Ok (st2, sent) ->
     L = 2 * Z2.size * n /\
     os_data (on_os_prep st2) = record /\
     os_ptr (on_os_prep st2) = L /\
     OS.left (on_os_prep st2) = 0 /\
     on_prep st2 = rest).
Proof.
  intros Hi n L Hn Hfit HL st. split.
  - intros Hshort.
    pose proof (exchange_prepare_short i ins pairs it nm os0 osp0 record rest
                  Hi Hn Hfit Hshort) as H.
    fold st in H. split; [exact H|].
    unfold AstraOnline.exchange. rewrite H. reflexivity.
  - intros st2 sent Hex.
    apply (exchange_Ok_consumed i ins pairs it nm os0 osp0 record rest
             incoming st2 sent Hi HL Hex).
Qed.

(** A batch of one multiplication on online party 1 over the 64-bit ring:
    a record of 4 bytes is refused, a record of 16 bytes is consumed. *)
Lemma C7_witness :
  let x := mkVec 10 18446744073709551612 in
  let y := mkVec 7 1 in
  let st record :=
    mkAstra (mkBase [] [(x, y)] (mkIV [] 0%nat) 0) 1 OS.empty OS.empty
            (OS.output (mkOS record 0 0) [] ++ []) in
  @AstraOnline.exchange_prepare Z2_64
     (st [Byte.x01; Byte.x02; Byte.x03; Byte.x04])
    = Throw "insufficient preprocessing" /\
  exists st2 sent,
    @AstraOnline.exchange Z2_64 (st (@pairs_bytes Z2_64 [(5, 9)]))
       (@limbs_bytes Z2_64 [3]) = Ok (st2, sent) /\
    os_ptr (on_os_prep st2) = 16 /\ on_prep st2 = [].
Proof.
  intros x y st. split.
  - refine (proj1 (proj1 (@C7_tape_consumption Z2_64 1 [] [(x, y)] 0%nat 0
                            OS.empty OS.empty
                            [Byte.x01; Byte.x02; Byte.x03; Byte.x04] [] []
                            _ _ _ _) _));
      vm_compute; reflexivity.
  - eexists. eexists. split; [vm_compute; reflexivity|].
    match goal with
    | |- os_ptr (on_os_prep ?s2) = _ /\ _ =>
        destruct (proj2 (@C7_tape_consumption Z2_64 1 [] [(x, y)] 0%nat 0
                           OS.empty OS.empty (@pairs_bytes Z2_64 [(5, 9)]) []
                           (@limbs_bytes Z2_64 [3])
                           ltac:(vm_compute; reflexivity)
                           ltac:(vm_compute; reflexivity)
                           ltac:(vm_compute; reflexivity)
                           ltac:(vm_compute; reflexivity))
                    s2 _ ltac:(vm_compute; reflexivity))
          as (_ & _ & Hp & _ & Hr)
    end.
    split; [exact Hp|exact Hr].
Defined.

(* ===================================================================== *)
(** ** The preprocessing round of one multiplication *)
(* ===================================================================== *)

Section PrepRound.
Context {D : Z2k} {C : StreamCipher}.

Local Ltac step :=
  cbn -[Z2.wrap Z2.sub Z2.to_bytes Z2.size size_t_wrap OS.reserve
        OS.store_no_resize OS.clear AstraPrepShare.local_mul_P0
        AstraPrepShare.local_mul_P1 Z.mul OS.get_no_check OS.left
        OS.output OS.Receive].

Local Ltac fits :=
  unfold OS.get_length; cbn [os_data os_max_length app length];
  rewrite ?Z2Facts.length_to_bytes; lia.

(** The helper: draws both mask shares and [gamma], ships its local
    product minus [gamma]. *)
Lemma prep_exchange_P0 (x y : FixedVec) (s0 : Z) (c0 : nat) (s1 : Z) (c1 : nat)
      (os osp : octetStream) (file incoming : list byte) :
  2 * Z2.size < 2 ^ 64 ->
  let gamma := Z2.wrap (keystream s0 (S c0)) in
  let msg := Z2.to_bytes (Z2.sub (AstraPrepShare.local_mul_P0 x y) gamma) in
  AstraPrep.exchange
    (mkPrep (mkBase [] [(x, y)] (mkIV [] 0%nat) 0) 0 os osp
            (mkRep (mkPRNG s0 c0) (mkPRNG s1 c1)) file) incoming
  = Ok (mkPrep (mkBase [] [(x, y)]
                  (mkIV [mkVec (Z2.wrap (keystream s0 c0))
                               (Z2.wrap (keystream s1 c1))] 0%nat) 1)
               0 (mkOS msg 0 Z2.size) osp
               (mkRep (mkPRNG s0 (S (S c0))) (mkPRNG s1 (S c1))) file,
        Some msg).
Proof.
  intros H. pose proof Z2Facts.size_nonneg.
  unfold AstraPrep.exchange, AstraPrep.pre, AstraPrep.local_mul_for_party,
    AstraPrep.store.
  step. change (size_t_wrap 1) with 1. rewrite Z.mul_1_l.
  rewrite (size_t_wrap_small Z2.size), reserve_clear by lia.
  unfold AstraPrep.pre_step, AstraPrep.pre_element, AstraPrep.pre_gamma,
    Replicated.get_at, Prng.get.
  step. rewrite store_no_resize_ok by fits. step. reflexivity.
Qed.

(** Party 1: draws its mask share and [gamma], writes both to its tape. *)
Lemma prep_exchange_P1 (x y : FixedVec) (s0 : Z) (c0 : nat) (s1 : Z) (c1 : nat)
      (os osp : octetStream) (file incoming : list byte) :
  2 * Z2.size < 2 ^ 64 ->
  let gamma := Z2.wrap (keystream s1 (S c1)) in
  let t := Z2.wrap (keystream s1 c1) in
  let record := mkOS (Z2.to_bytes gamma ++ Z2.to_bytes t) 0 (2 * Z2.size) in
  AstraPrep.exchange
    (mkPrep (mkBase [] [(x, y)] (mkIV [] 0%nat) 0) 1 os osp
            (mkRep (mkPRNG s0 c0) (mkPRNG s1 c1)) file) incoming
  = Ok (mkPrep (mkBase [] [(x, y)] (mkIV [mkVec 0 t] 0%nat) 1)
               1 os record
               (mkRep (mkPRNG s0 c0) (mkPRNG s1 (S (S c1))))
               (OS.output record file),
        None).
Proof.
  intros H. pose proof Z2Facts.size_nonneg.
  unfold AstraPrep.exchange, AstraPrep.pre, AstraPrep.local_mul_for_party,
    AstraPrep.store.
  step. change (size_t_wrap 1) with 1. change (size_t_wrap (1 * 2)) with 2.
  rewrite (size_t_wrap_small (2 * Z2.size)), reserve_clear by lia.
  unfold AstraPrep.pre_step, AstraPrep.pre_element, AstraPrep.pre_gamma,
    Replicated.get_at, Prng.get, AstraPrep.post.
  step. rewrite store_no_resize_ok by fits.
  step. rewrite store_no_resize_ok by fits.
  step. reflexivity.
Qed.

(** Party 2: draws its mask share, receives the helper's value and
    writes both to its tape. *)
Lemma prep_exchange_P2 (x y : FixedVec) (s0 : Z) (c0 : nat) (s1 : Z) (c1 : nat)
      (os osp : octetStream) (file : list byte) (v : Z) :
  2 * Z2.size < 2 ^ 64 ->
  let t := Z2.wrap (keystream s0 c0) in
  let record := mkOS (Z2.to_bytes (Z2.wrap v) ++ Z2.to_bytes t) 0 (2 * Z2.size) in
  AstraPrep.exchange
    (mkPrep (mkBase [] [(x, y)] (mkIV [] 0%nat) 0) 2 os osp
            (mkRep (mkPRNG s0 c0) (mkPRNG s1 c1)) file) (Z2.to_bytes v)
  = Ok (mkPrep (mkBase [] [(x, y)] (mkIV [mkVec 0 t] 0%nat) 1)
               2
               (mkOS (Z2.to_bytes v) Z2.size
                     (os_max_length (OS.resize_min os Z2.size)))
               record
               (mkRep (mkPRNG s0 (S c0)) (mkPRNG s1 c1))
               (OS.output record file),
        None).
Proof.
  intros H. pose proof Z2Facts.size_nonneg.
  unfold AstraPrep.exchange, AstraPrep.pre, AstraPrep.local_mul_for_party,
    AstraPrep.store.
  step. change (size_t_wrap 1) with 1. change (size_t_wrap (1 * 2)) with 2.
  rewrite (size_t_wrap_small (2 * Z2.size)), reserve_clear by lia.
  unfold AstraPrep.pre_step, AstraPrep.pre_element, AstraPrep.pre_gamma,
    Replicated.get_at, Prng.get, AstraPrep.post.
  step.
  unfold OS.Receive, OS.left at 1. unfold OS.get_length at 1.
  cbn [os_data os_ptr].
  rewrite Z2Facts.length_to_bytes, Z.sub_0_r, Z.mul_1_r.
  rewrite !size_t_wrap_small by lia. rewrite Z.ltb_irrefl.
  step.
  rewrite (get_no_check_eq _ [] [] v)
    by (cbn [os_data os_ptr app length]; rewrite ?app_nil_r; reflexivity).
  step. rewrite store_no_resize_ok by fits.
  step. rewrite store_no_resize_ok by fits.
  step. reflexivity.
Qed.
End PrepRound.

(* ===================================================================== *)
(** ** One multiplication, end to end *)
(* ===================================================================== *)

Section OneMultiplication.
Context {D : Z2k}.

Lemma fresh_prepare_mul (a b : FixedVec) :
  AstraBaseOps.prepare_mul (AstraBaseOps.init_mul AstraBaseOps.initial) a b
  = mkBase [] [(a, b)] (mkIV [] 0%nat) 0.
Proof. reflexivity. Qed.

Lemma output_one_pair (g t cap : Z) :
  OS.output (mkOS (Z2.to_bytes g ++ Z2.to_bytes t) 0 cap) []
  = OS.output (mkOS (pairs_bytes ([] ++ [(g, t)])) 0 0) [] ++ [].
Proof.
  unfold OS.output, OS.get_length, pairs_bytes.
  cbn [os_data app flat_map fst snd]. rewrite !app_nil_r. reflexivity.
Qed.

(** The first half of the online round on a tape that holds the pair of
    one multiplication. *)
Lemma exchange_prepare_one (i : Z) (x y : FixedVec) (g t cap : Z) :
  0 < i -> 2 * Z2.size < 2 ^ 64 ->
  let M := M_z (online_local_mul i (x, y)) (Z2.wrap g) (Z2.wrap t) in
  AstraOnline.exchange_prepare
    (mkAstra (mkBase [] [(x, y)] (mkIV [] 0%nat) 0) i OS.empty OS.empty
             (OS.output (mkOS (Z2.to_bytes g ++ Z2.to_bytes t) 0 cap) []))
  = Ok (mkAstra (mkBase [] [(x, y)] (mkIV [mkVec M (Z2.wrap t)] 0%nat) 0) i
                (mkOS (Z2.to_bytes M) 0 Z2.size)
                (mkOS (Z2.to_bytes g ++ Z2.to_bytes t) (2 * Z2.size)
                      (os_max_length (OS.resize_min OS.empty (2 * Z2.size))))
                [],
        Some (Z2.to_bytes M)).
Proof.
  intros Hi Hfit M. rewrite output_one_pair.
  rewrite (exchange_prepare_eq i [] [(x, y)] 0%nat 0 OS.empty OS.empty
             [] [(g, t)] []);
    [|exact Hi|reflexivity|reflexivity
     |cbn [length Nat.add]; change (Z.of_nat 1) with 1; lia
     |cbn [length Nat.add]; change (Z.of_nat 1) with 1; lia].
  cbn [length Nat.add app map online_shares fst snd limbs_bytes flat_map
       limb0 pairs_bytes].
  change (Z.of_nat 1) with 1.
  rewrite !app_nil_r, Z.mul_1_r, Z.mul_1_l. reflexivity.
Qed.

(** The second half: the received value is added to the m-limb. *)
Lemma exchange_finish_one (i : Z) (x y : FixedVec) (M t R : Z)
      (os osp : octetStream) (rest : list byte) :
  0 < i -> 2 * Z2.size < 2 ^ 64 -> OS.left osp = 0 ->
  AstraOnline.exchange_finish
    (mkAstra (mkBase [] [(x, y)] (mkIV [mkVec M t] 0%nat) 0) i os osp rest)
    (Z2.to_bytes R)
  = Ok (mkAstra (mkBase [] [(x, y)]
                   (mkIV [mkVec (Z2.add M (Z2.wrap R)) t] 0%nat) 0)
                i os osp rest).
Proof.
  intros Hi Hfit Hleft. pose proof Z2Facts.size_nonneg.
  rewrite <- (app_nil_r (Z2.to_bytes R)).
  change (Z2.to_bytes R ++ []) with (limbs_bytes [R]).
  rewrite (exchange_finish_eq i [] [(x, y)] [mkVec M t] 0%nat 0 os osp rest [R]);
    [reflexivity|exact Hi|reflexivity
    |cbn [length]; change (Z.of_nat 1) with 1; lia|exact Hleft].
Qed.

Lemma left_after_one_pair (g t cap : Z) :
  OS.left (mkOS (Z2.to_bytes g ++ Z2.to_bytes t) (2 * Z2.size) cap) = 0.
Proof.
  unfold OS.left, OS.get_length. cbn [os_data os_ptr].
  rewrite length_app, Nat2Z.inj_add, !Z2Facts.length_to_bytes.
  replace (Z2.size + Z2.size - 2 * Z2.size) with 0 by lia. reflexivity.
Qed.

(** The width of the ring, an [int] template parameter, keeps every
    length of one multiplication inside [size_t]. *)
Lemma size_fits : Z.of_nat N_BITS < 2 ^ 31 -> 2 * Z2.size < 2 ^ 64.
Proof.
  intros H. unfold Z2.size.
  assert ((Z.of_nat N_BITS + 7) / 8 <= Z.of_nat N_BITS + 7).
  { apply Z.div_le_upper_bound; lia. }
  lia.
Qed.
End OneMultiplication.

Section Multiplicativity.
Context {D : Z2k} {C : StreamCipher}.

Lemma wrap_M_z (V g t : Z) : Z2.wrap (M_z V g t) = M_z V g t.
Proof. unfold M_z, Z2.add. apply Z2Facts.wrap_wrap. Qed.

Lemma wrap_sub (a b : Z) : Z2.wrap (Z2.sub a b) = Z2.sub a b.
Proof. unfold Z2.sub. apply Z2Facts.wrap_wrap. Qed.

Lemma multiply_eq (seeds : Z -> Z) (x y : Sharing) :
  2 * Z2.size < 2 ^ 64 ->
  System.multiply seeds x y = Ok (product_sharing seeds x y).
Proof.
  intros H. pose proof Z2Facts.size_nonneg.
  unfold System.multiply, System.multiply_with, System.prep_mul,
    System.prep_round.
  unfold System.prep_create, System.prep_init_mul, System.prep_prepare_mul,
    Replicated.setup, Replicated.ReplicatedBase_ctor, Replicated.pass_around,
    Prng.SetSeed.
  cbn [prep_base prep_my_num prep_os prep_os_prep prng_protocol prep_file].
  rewrite !fresh_prepare_mul.
  change ((0 - 1) mod 3) with 2. change ((1 - 1) mod 3) with 0.
  change ((2 - 1) mod 3) with 1.
  rewrite prep_exchange_P0 by exact H. cbn [bind].
  rewrite prep_exchange_P1 by exact H. cbn [bind System.payload].
  rewrite prep_exchange_P2 by exact H. cbn [bind].
  unfold AstraPrep.finalize_mul, AstraBaseOps.finalize_mul, IV.next.
  cbn [bind prep_base results iv_elems iv_it nth_error prep_file].
  unfold System.online_mul, System.online_round, AstraOnline.create,
    AstraOnline.init_mul, AstraOnline.prepare_mul.
  cbn [on_base astra_num on_os on_os_prep on_prep].
  rewrite !fresh_prepare_mul.
  change (0 + 1) with 1. change (1 + 1) with 2.
  rewrite !exchange_prepare_one by (try exact H; lia).
  cbn [bind System.payload].
  rewrite !exchange_finish_one
    by (try exact H; try lia; apply left_after_one_pair).
  cbn [bind].
  unfold AstraOnline.finalize_mul, AstraBaseOps.finalize_mul, IV.next.
  cbn [bind on_base results iv_elems iv_it nth_error].
  rewrite !Z2Facts.wrap_wrap, !wrap_sub, !wrap_M_z.
  reflexivity.
Qed.

(** The product sharing is well formed and stands for the product. *)
Lemma product_sharing_value (seeds : Z -> Z) (x y : Sharing) :
  well_formed x -> well_formed y ->
  well_formed (product_sharing seeds x y) /\
  shared_value (product_sharing seeds x y)
  = Z2.mul (shared_value x) (shared_value y).
Proof.
  destruct x as [[hx0 hx1] px1 px2 [mx1 lx1] [mx2 lx2]].
  destruct y as [[hy0 hy1] py1 py2 [my1 ly1] [my2 ly2]].
  unfold well_formed, shared_value, product_sharing.
  cbn [helper0 prep1 prep2 online1 online2 limb0 limb1].
  intros (-> & -> & ->) (-> & -> & ->).
  unfold M_z, AstraPrepShare.local_mul_P0, AstraShare.local_mul_P1,
    AstraShare.local_mul_P2, AstraShare.local_mul_P1, FixedVec_sum,
    AstraShare.m, AstraShare.neg_lambda.
  cbn [limb0 limb1].
  repeat split; z2_ring.
Qed.
End Multiplicativity.

(** C1. For all well-formed sharings [x] and [y] over Z/2^K, running the
    preprocessing multiplication of the three preprocessing roles, then
    the online multiplication exchange of the two online parties on the
    tapes so written, then the opening of the result, returns on both
    online parties the product of the two opened values modulo 2^K; the
    result is again a well-formed sharing. *)
Theorem C1_multiplicativity {D : Z2k} {C : StreamCipher}
    (seeds : Z -> Z) (x y : Sharing) :
  Z.of_nat N_BITS < 2 ^ 31 ->
  well_formed x -> well_formed y ->
  exists (z : Sharing) (vx vy : Z),
    System.Open (online1 x) (online2 x) = Ok (vx, vx) /\
    System.Open (online1 y) (online2 y) = Ok (vy, vy) /\
    System.multiply seeds x y = Ok z /\
    well_formed z /\
    System.Open (online1 z) (online2 z)
      = Ok (Z2.wrap (vx * vy), Z2.wrap (vx * vy)) /\
    System.multiply_and_open seeds x y
      = Ok (Z2.wrap (vx * vy), Z2.wrap (vx * vy)).
Proof.
  intros HK Hx Hy.
  pose proof (size_fits HK) as Hfit.
  destruct (product_sharing_value seeds x y Hx Hy) as [Hwf Hval].
  exists (product_sharing seeds x y), (shared_value x), (shared_value y).
  assert (Hopen : System.Open (online1 (product_sharing seeds x y))
                              (online2 (product_sharing seeds x y))
                  = Ok (Z2.wrap (shared_value x * shared_value y),
                        Z2.wrap (shared_value x * shared_value y))).
  { rewrite Open_value. fold (shared_value (product_sharing seeds x y)).
    rewrite Hval. reflexivity. }
  split; [apply Open_value|]. split; [apply Open_value|].
  split; [apply multiply_eq; exact Hfit|].
  split; [exact Hwf|]. split; [exact Hopen|].
  unfold System.multiply_and_open.
  rewrite multiply_eq by exact Hfit. cbn [bind]. exact Hopen.
Qed.

(** The product of 3 and 5 over the 64-bit ring: [x] is shared as
    [m = 10] with mask shares 4 and 3, [y] as [m = 7] with mask shares -1
    and 3 (the mask shares are kept negated). *)
Lemma C1_witness :
  let w := @Z2.wrap Z2_64 in
  let x := mkSharing (mkVec (w (-4)) (w (-3))) (mkVec 0 (w (-4)))
                     (mkVec 0 (w (-3))) (mkVec 10 (w (-4))) (mkVec 10 (w (-3))) in
  let y := mkSharing (mkVec 1 (w (-3))) (mkVec 0 1) (mkVec 0 (w (-3)))
                     (mkVec 7 1) (mkVec 7 (w (-3))) in
  let seeds := fun i : Z => i + 11 in
  @well_formed x /\ @well_formed y /\
  @System.Open Z2_64 (online1 x) (online2 x) = Ok (3, 3) /\
  @System.Open Z2_64 (online1 y) (online2 y) = Ok (5, 5) /\
  @System.multiply_and_open Z2_64 counter_cipher seeds x y = Ok (15, 15).
Proof.
  intros w x y seeds.
  assert (Hx : @well_formed x) by (repeat split).
  assert (Hy : @well_formed y) by (repeat split).
  split; [exact Hx|]. split; [exact Hy|].
  destruct (@C1_multiplicativity Z2_64 counter_cipher seeds x y
              ltac:(vm_compute; reflexivity) Hx Hy)
    as (z & vx & vy & Hox & Hoy & _ & _ & _ & Hmul).
  assert (Hvx : vx = 3).
  { assert (E : @System.Open Z2_64 (online1 x) (online2 x) = Ok (3, 3))
      by (vm_compute; reflexivity).
    rewrite E in Hox. injection Hox as Hv _. symmetry. exact Hv. }
  assert (Hvy : vy = 5).
  { assert (E : @System.Open Z2_64 (online1 y) (online2 y) = Ok (5, 5))
      by (vm_compute; reflexivity).
    rewrite E in Hoy. injection Hoy as Hv _. symmetry. exact Hv. }
  subst vx vy.
  split; [exact Hox|]. split; [exact Hoy|]. exact Hmul.
Defined.

(* ===================================================================== *)
(** * Further properties: the wire buffer *)
(* ===================================================================== *)

Section BufferRoundTrips.
Context {D : Z2k}.

Lemma output_all_app (ws : list octetStream) (file : list byte) :
  output_all ws file = file ++ output_all ws [].
Proof.
  revert file. induction ws as [|w ws IH]; intros file; simpl.
  - now rewrite app_nil_r.
  - unfold output_all in *. simpl. rewrite IH.
    rewrite (IH (OS.output w [])). unfold OS.output. simpl.
    now rewrite <- app_assoc.
Qed.

Lemma input_all_output_all (ws : list octetStream) :
  Forall (fun w => OS.get_length w < 2 ^ 64) ws ->
  forall (o : octetStream) (rest : list byte),
  exists o', input_all (length ws) o (output_all ws [] ++ rest)
             = Ok (map os_data ws, o', rest).
Proof.
  induction 1 as [|w ws Hw _ IH]; intros o rest; simpl.
  - eexists. reflexivity.
  - unfold output_all. simpl. fold (output_all ws (OS.output w [])).
    rewrite output_all_app, <- app_assoc.
    rewrite (input_output o w _ Hw). simpl.
    destruct (IH (mkOS (os_data w) 0
                   (os_max_length (OS.resize_min o (OS.get_length w)))) rest)
      as [o' ->].
    simpl. eexists. reflexivity.
Qed.

Lemma input_truncated (o w : octetStream) (k : nat) :
  OS.get_length w < 2 ^ 64 ->
  (k < length (OS.output w []))%nat ->
  OS.input o (firstn k (OS.output w [])) = Throw "not enough data".
Proof.
  intros Hlen Hk. unfold OS.output in *. rewrite app_nil_l in *.
  rewrite length_app, length_le_split in Hk.
  unfold OS.input.
  destruct (Nat.lt_ge_cases k 8) as [Hk8|Hk8].
  - unfold OS.istream_read at 1.
    rewrite length_firstn, length_app, length_le_split.
    destruct (Z.ltb_spec (Z.of_nat (Nat.min k (8 + length (os_data w)))) 8); [reflexivity|lia].
  - rewrite firstn_app, length_le_split.
    rewrite (firstn_all2 (n := k)) by (rewrite length_le_split; lia).
    pose proof (istream_read_at (le_split 8 (OS.get_length w))
                  (firstn (k - 8) (os_data w))) as H8.
    rewrite length_le_split in H8. change (Z.of_nat 8) with 8 in H8.
    rewrite H8, le_combine_split.
    change (Z.of_nat 8 * 8) with 64.
    rewrite Z.mod_small by (unfold OS.get_length in *; lia).
    unfold OS.istream_read. rewrite length_firstn. unfold OS.get_length.
    destruct (Z.ltb_spec (Z.of_nat (Nat.min (k - 8) (length (os_data w))))
                (Z.of_nat (length (os_data w)))); [reflexivity|lia].
Qed.
End BufferRoundTrips.

Section TypedRoundTrips.
Context {D : Z2k}.

Lemma reserve_capacity (o : octetStream) (l : Z) :
  0 <= l -> OS.get_length o + l < 2 ^ 64 ->
  exists cap, OS.reserve o l = mkOS (os_data o) (os_ptr o) cap
              /\ OS.get_length o + l <= cap.
Proof.
  intros Hl Hfit. unfold OS.reserve, OS.resize_precise, OS.get_max_length.
  assert (0 <= OS.get_length o) by (unfold OS.get_length; lia).
  rewrite size_t_wrap_small by lia.
  destruct (Z.gtb_spec (OS.get_length o + l) (os_max_length o)).
  - destruct (Z.eqb_spec (OS.get_length o + l) (os_max_length o)); [lia|].
    eexists; split; [reflexivity|lia].
  - destruct o; simpl in *. eexists; split; [reflexivity|lia].
Qed.

Lemma store_all_no_resize_eq (vs : list Z) :
  forall (d : list byte) (p cap : Z),
  Z.of_nat (length d) + Z.of_nat (length vs) * Z2.size <= cap ->
  store_all_no_resize vs (mkOS d p cap) = Ok (mkOS (d ++ limbs_bytes vs) p cap).
Proof.
  induction vs as [|v vs IH]; intros d p cap Hcap; simpl.
  - now rewrite app_nil_r.
  - pose proof Z2Facts.size_nonneg.
    rewrite store_no_resize_ok; simpl.
    2:{ unfold OS.get_length; simpl.
        change (length (v :: vs)) with (S (length vs)) in Hcap. nia. }
    rewrite IH.
    + now rewrite <- app_assoc.
    + rewrite length_app.
      pose proof (Z2Facts.length_to_bytes v).
      change (length (v :: vs)) with (S (length vs)) in Hcap. nia.
Qed.

Lemma get_all_no_check_eq (vs : list Z) :
  forall (a c : list byte) (cap : Z),
  get_all_no_check (length vs)
     (mkOS (a ++ limbs_bytes vs ++ c) (Z.of_nat (length a)) cap)
  = Ok (map Z2.wrap vs,
        mkOS (a ++ limbs_bytes vs ++ c)
             (Z.of_nat (length a) + Z.of_nat (length vs) * Z2.size) cap).
Proof.
  induction vs as [|v vs IH]; intros a c cap.
  - simpl. now rewrite Z.add_0_r.
  - change (length (v :: vs)) with (S (length vs)).
    cbn [get_all_no_check limbs_bytes flat_map].
    fold (limbs_bytes vs).
    rewrite <- app_assoc.
    rewrite (get_no_check_eq _ a (limbs_bytes vs ++ c) v) by reflexivity.
    cbn [bind os_data os_ptr os_max_length].
    pose proof (IH (a ++ Z2.to_bytes v) c cap) as IH'.
    rewrite <- !app_assoc in IH'. rewrite length_app in IH'.
    replace (Z.of_nat (length a) + Z2.size)
      with (Z.of_nat (length a + length (Z2.to_bytes v)))
      by (rewrite Nat2Z.inj_add, Z2Facts.length_to_bytes; reflexivity).
    rewrite IH'. cbn [bind map].
    rewrite Nat2Z.inj_add, Z2Facts.length_to_bytes, Nat2Z.inj_succ.
    replace (Z.of_nat (length a) + Z2.size + Z.of_nat (length vs) * Z2.size)
      with (Z.of_nat (length a) + Z.succ (Z.of_nat (length vs)) * Z2.size) by lia.
    reflexivity.
Qed.
End TypedRoundTrips.

Section CheckedAccess.
Context {D : Z2k}.

Lemma left_small (s : octetStream) :
  0 <= os_ptr s <= OS.get_length s -> OS.get_length s < 2 ^ 64 ->
  OS.left s = OS.get_length s - os_ptr s.
Proof. intros. unfold OS.left. apply size_t_wrap_small. lia. Qed.

Lemma consume_no_check_in (s : octetStream) (l : Z) :
  0 <= os_ptr s -> 0 <= l -> os_ptr s + l <= OS.get_length s ->
  exists bs, OS.consume_no_check s l
             = Ok (bs, mkOS (os_data s) (os_ptr s + l) (os_max_length s))
             /\ Z.of_nat (length bs) = l.
Proof.
  intros Hp Hl Hin. unfold OS.consume_no_check.
  destruct (Z.leb_spec 0 (os_ptr s)); [|lia].
  destruct (Z.leb_spec (os_ptr s + l) (OS.get_length s)); [|lia].
  simpl. eexists; split; [reflexivity|].
  rewrite length_firstn, length_skipn. unfold OS.get_length in *. lia.
Qed.

Lemma get_all_no_check_in (n : nat) :
  forall s : octetStream,
  0 <= os_ptr s -> os_ptr s + Z.of_nat n * Z2.size <= OS.get_length s ->
  exists vs, get_all_no_check n s
             = Ok (vs, mkOS (os_data s) (os_ptr s + Z.of_nat n * Z2.size)
                            (os_max_length s))
             /\ length vs = n.
Proof.
  pose proof Z2Facts.size_nonneg as Hs.
  induction n as [|n IH]; intros s Hp Hin.
  - simpl. exists []. split; [|reflexivity].
    rewrite Z.add_0_r. now destruct s.
  - rewrite Nat2Z.inj_succ in Hin.
    cbn [get_all_no_check]. unfold OS.get_no_check.
    destruct (consume_no_check_in s Z2.size) as (bs & -> & _);
      [lia|lia|rewrite Z.mul_succ_l in Hin; nia|].
    cbn [bind].
    destruct (IH (mkOS (os_data s) (os_ptr s + Z2.size) (os_max_length s)))
      as (vs & -> & Hlen); cbn [os_ptr os_data os_max_length].
    { lia. }
    { unfold OS.get_length in *; cbn [os_ptr os_data os_max_length].
      rewrite Z.mul_succ_l in Hin. lia. }
    cbn [bind os_ptr os_data os_max_length].
    eexists; split.
    + rewrite Nat2Z.inj_succ.
      replace (os_ptr s + Z2.size + Z.of_nat n * Z2.size)
        with (os_ptr s + Z.succ (Z.of_nat n) * Z2.size) by lia.
      reflexivity.
    + cbn [length]. now rewrite Hlen.
Qed.
End CheckedAccess.

Section Integers.

Lemma append_stream_ok (s : octetStream) (x : list byte) :
  OS.get_length s + Z.of_nat (length x) < 2 ^ 63 ->
  exists cap, OSB.append_stream s x
              = Ok (mkOS (os_data s ++ x) (os_ptr s) cap).
Proof.
  intros Hfit. unfold OSB.append_stream, OSB.resize, OS.resize_precise,
    OS.get_max_length.
  assert (0 <= OS.get_length s) by (unfold OS.get_length; lia).
  set (l := Z.of_nat (length x)) in *.
  destruct (Z.gtb_spec (OS.get_length s + l) (os_max_length s)) as [Hg|Hg].
  - rewrite (size_t_wrap_small (OS.get_length s + l)) by lia.
    destruct (Z.ltb_spec (OS.get_length s + l) (os_max_length s)); [lia|].
    rewrite size_t_wrap_small by lia.
    destruct (Z.eqb_spec (2 * (OS.get_length s + l)) (os_max_length s)).
    + destruct (Z.leb_spec (OS.get_length s + l) (os_max_length s)); [|lia].
      eexists; reflexivity.
    + unfold OS.get_length in *; cbn [os_data os_ptr os_max_length].
      destruct (Z.leb_spec (Z.of_nat (length (os_data s)) + l)
                  (2 * (Z.of_nat (length (os_data s)) + l))); [|lia].
      eexists; reflexivity.
  - destruct (Z.leb_spec (OS.get_length s + l) (os_max_length s)); [|lia].
    eexists; reflexivity.
Qed.

Lemma firstn_le_split (n m : nat) : forall a : Z,
  (n <= m)%nat -> firstn n (le_split m a) = le_split n a.
Proof.
  revert m. induction n as [|n IH]; intros m a Hnm; [reflexivity|].
  destruct m as [|m]; [lia|].
  change (byte.of_Z a :: firstn n (le_split m (Z.shiftr a 8))
          = byte.of_Z a :: le_split n (Z.shiftr a 8)).
  f_equal. apply IH. lia.
Qed.

Lemma get_int_value (N : nat) (a : Z) :
  (N <= 8)%nat ->
  le_combine (firstn N (le_split 8 a) ++ skipn N (le_split 8 0))
  = a mod 2 ^ (8 * Z.of_nat N).
Proof.
  intros HN. rewrite le_combine_app.
  rewrite skipn_le_split by lia. rewrite Z.shiftr_0_l.
  rewrite (le_combine_split (8 - N) 0), Z.mod_0_l
    by (apply Z.pow_nonzero; lia).
  rewrite Z.shiftl_0_l, Z.lor_0_r.
  rewrite firstn_le_split by lia. rewrite le_combine_split.
  f_equal. f_equal. lia.
Qed.
End Integers.

Lemma mask_ones (N : Z) : 0 <= N -> Z.shiftl 1 N - 1 = Z.ones N.
Proof. intros. rewrite Z.ones_equiv, Z.shiftl_1_l. lia. Qed.

Lemma lor_shift_add (buf v n : Z) :
  0 <= n -> 0 <= buf < 2 ^ n ->
  Z.lor buf (Z.shiftl v n) = buf + v * 2 ^ n.
Proof.
  intros Hn Hb. rewrite <- Z.lxor_lor, <- Z.add_nocarry_lxor, Z.shiftl_mul_pow2;
    try lia.
  all: apply Z.bits_inj'; intros i Hi; rewrite Z.land_spec, Z.bits_0.
  all: destruct (Z.lt_ge_cases i n).
  all: try (rewrite Z.shiftl_spec_low by lia; apply andb_false_r).
  all: rewrite <- (Z.mod_small buf (2 ^ n)) by lia.
  all: rewrite Z.mod_pow2_bits_high by lia; reflexivity.
Qed.

Lemma lor_shift_bound (buf v n N : Z) :
  0 <= n -> 0 <= N -> 0 <= buf < 2 ^ n -> 0 <= v < 2 ^ N ->
  0 <= Z.lor buf (Z.shiftl v n) < 2 ^ (n + N).
Proof.
  intros Hn HN Hb Hv. rewrite lor_shift_add by lia.
  rewrite Z.pow_add_r by lia. nia.
Qed.

Lemma low_bits_kept (B buf v n N : Z) :
  0 <= n -> 0 <= N -> 0 <= buf < 2 ^ n ->
  B mod 2 ^ (n + N) = Z.lor buf (Z.shiftl v n) ->
  B mod 2 ^ n = buf.
Proof.
  intros Hn HN Hb HB. rewrite lor_shift_add in HB by lia.
  rewrite Z.pow_add_r in HB by lia.
  assert (0 < 2 ^ n) by (apply Z.pow_pos_nonneg; lia).
  assert (0 < 2 ^ N) by (apply Z.pow_pos_nonneg; lia).
  rewrite Z.rem_mul_r in HB by lia.
  assert (E : (B mod 2 ^ n + 2 ^ n * ((B / 2 ^ n) mod 2 ^ N)) mod 2 ^ n
              = (buf + v * 2 ^ n) mod 2 ^ n) by (now rewrite HB).
  rewrite (Z.mul_comm (2 ^ n)), !Z.mod_add, Z.mod_mod, (Z.mod_small buf) in E by lia.
  exact E.
Qed.

Lemma high_bits_read (B buf v n N : Z) :
  0 <= n -> 0 <= N -> 0 <= buf < 2 ^ n -> 0 <= v < 2 ^ N ->
  B mod 2 ^ (n + N) = Z.lor buf (Z.shiftl v n) ->
  Z.land (Z.shiftr B n) (Z.ones N) = v.
Proof.
  intros Hn HN Hb Hv HB.
  pose proof (low_bits_kept B buf v n N Hn HN Hb HB) as Hlow.
  rewrite lor_shift_add in HB by lia.
  rewrite Z.pow_add_r in HB by lia.
  assert (0 < 2 ^ n) by (apply Z.pow_pos_nonneg; lia).
  assert (0 < 2 ^ N) by (apply Z.pow_pos_nonneg; lia).
  rewrite Z.rem_mul_r in HB by lia.
  rewrite Z.land_ones, Z.shiftr_div_pow2 by lia. nia.
Qed.
Section BitPacking.

Lemma land_ones_range (a N : Z) : 0 <= N -> 0 <= Z.land a (Z.ones N) < 2 ^ N.
Proof.
  intros. rewrite Z.land_ones by lia. apply Z.mod_pos_bound.
  apply Z.pow_pos_nonneg; lia.
Qed.

Lemma pow2_le_256 (n : Z) : 0 <= n <= 8 -> 0 < 2 ^ n <= 256.
Proof.
  intros. split; [apply Z.pow_pos_nonneg; lia|].
  change 256 with (2 ^ 8). apply Z.pow_le_mono_r; lia.
Qed.

Lemma uint8_wrap_small (z : Z) : 0 <= z < 256 -> uint8_wrap z = z.
Proof. intros. unfold uint8_wrap. apply Z.mod_small. change (2 ^ 8) with 256. lia. Qed.

Lemma unsigned_of_Z_small (z : Z) : 0 <= z < 256 -> byte.unsigned (byte.of_Z z) = z.
Proof.
  intros. rewrite byte.unsigned_of_Z. unfold byte.wrap. apply Z.mod_small.
  change (2 ^ 8) with 256. lia.
Qed.

Lemma flush_bits_ok (s : octetStream) (n buf : Z) (b1 : BitBuffer) :
  OS.get_length s + 1 < 2 ^ 63 ->
  exists cap,
    OSB.flush_bits (mkOSB s (mkBits n buf) b1)
    = Ok (mkOSB (mkOS (os_data s ++ [byte.of_Z buf]) (os_ptr s) cap)
                (mkBits 0 0) b1).
Proof.
  intros Hfit. unfold OSB.flush_bits. cbn [osb_stream osb_bits0 osb_bits1 bb_buffer].
  change (firstn 1 (le_split 8 buf)) with [byte.of_Z buf].
  destruct (append_stream_ok s [byte.of_Z buf]) as [cap ->]; [simpl; lia|].
  cbn [bind]. eexists; reflexivity.
Qed.

Lemma append_nil_ok (s : octetStream) (n buf : Z) (b1 : BitBuffer) :
  OS.get_length s + 1 < 2 ^ 63 -> 0 <= n -> 0 <= buf < 2 ^ n ->
  exists cap,
    OSB.append (mkOSB s (mkBits n buf) b1) []
    = Ok (mkOSB (mkOS (os_data s ++ packed_bits n buf []) (os_ptr s) cap)
                (mkBits 0 0) b1).
Proof.
  intros Hfit Hn Hb. unfold OSB.append.
  cbn [osb_stream osb_bits0 osb_bits1 bb_n bb_buffer packed_bits].
  destruct (Z.eqb_spec n 0) as [->|Hn0].
  - cbn [bind osb_stream osb_bits0 osb_bits1].
    destruct (append_stream_ok s []) as [cap ->]; [simpl; lia|].
    cbn [bind]. replace buf with 0 by (change (2 ^ 0) with 1 in Hb; lia).
    eexists; reflexivity.
  - destruct (flush_bits_ok s n buf b1 Hfit) as [cap ->].
    cbn [bind osb_stream osb_bits0 osb_bits1].
    destruct (append_stream_ok (mkOS (os_data s ++ [byte.of_Z buf]) (os_ptr s) cap) [])
      as [cap' ->].
    { unfold OS.get_length in *. cbn [os_data]. rewrite length_app. simpl. lia. }
    cbn [bind os_data os_ptr]. rewrite app_nil_r. eexists; reflexivity.
Qed.

Lemma store_bits_all_eq (items : list (Z * Z)) :
  Forall (fun x => 1 <= snd x <= 7) items ->
  forall (s : octetStream) (n buf : Z) (b1 : BitBuffer),
  0 <= n <= 8 -> 0 <= buf < 2 ^ n ->
  OS.get_length s + Z.of_nat (length items) + 1 < 2 ^ 63 ->
  exists o1 cap,
    store_bits_all items (mkOSB s (mkBits n buf) b1) = Ok o1 /\
    OSB.append o1 []
    = Ok (mkOSB (mkOS (os_data s ++ packed_bits n buf items) (os_ptr s) cap)
                (mkBits 0 0) b1).
Proof.
  induction 1 as [|[a N] items HN _ IH]; intros s n buf b1 Hn Hb Hfit.
  - cbn [store_bits_all]. destruct (append_nil_ok s n buf b1) as [cap Hc];
      [simpl in Hfit; lia|lia|lia|].
    eexists; eexists; split; [reflexivity|exact Hc].
  - cbn [snd fst] in HN. change (length ((a, N) :: items)) with (S (length items)) in Hfit.
    rewrite Nat2Z.inj_succ in Hfit.
    cbn [store_bits_all packed_bits fst snd]. unfold OSB.store_bits.
    destruct (Z.leb_spec 1 N); [|lia]. destruct (Z.leb_spec N 7); [|lia].
    cbn [andb]. unfold OSB.store_bits_N.
    cbn [osb_stream osb_bits0 osb_bits1 bb_n bb_buffer].
    rewrite mask_ones by lia.
    pose proof (land_ones_range a N ltac:(lia)) as Hv.
    set (v := Z.land a (Z.ones N)) in *.
    assert (2 ^ N <= 128) by (change 128 with (2 ^ 7); apply Z.pow_le_mono_r; lia).
    destruct (Z.gtb_spec n (8 - N)) as [Hflush|Hkeep].
    + unfold OSB.append. cbn [osb_stream osb_bits0 osb_bits1 bb_n bb_buffer].
      destruct (Z.eqb_spec n 0); [lia|].
      destruct (flush_bits_ok s n buf b1) as [cap ->]; [lia|].
      cbn [bind osb_stream osb_bits0 osb_bits1].
      destruct (append_stream_ok (mkOS (os_data s ++ [byte.of_Z buf]) (os_ptr s) cap) [])
        as [cap' ->].
      { unfold OS.get_length in *. cbn [os_data]. rewrite length_app. simpl. lia. }
      cbn [bind os_data os_ptr osb_stream osb_bits0 osb_bits1 bb_n bb_buffer].
      rewrite app_nil_r, Z.shiftl_0_r, Z.lor_0_l, Z.add_0_l.
      rewrite !uint8_wrap_small by lia.
      destruct (IH (mkOS (os_data s ++ [byte.of_Z buf]) (os_ptr s) cap') N v b1)
        as (o1 & cap'' & -> & Hap); [lia|lia| |].
      { unfold OS.get_length in *. cbn [os_data]. rewrite length_app. simpl. lia. }
      cbn [os_data os_ptr] in Hap. rewrite <- app_assoc in Hap.
      eexists; eexists; split; [reflexivity|exact Hap].
    + cbn [bind osb_stream osb_bits0 osb_bits1 bb_n bb_buffer].
      pose proof (lor_shift_bound buf v n N ltac:(lia) ltac:(lia) Hb Hv) as Hb'.
      pose proof (pow2_le_256 (n + N) ltac:(lia)).
      rewrite !uint8_wrap_small by lia.
      destruct (IH s (n + N) (Z.lor buf (Z.shiftl v n)) b1)
        as (o1 & cap'' & -> & Hap); [lia|lia|lia|].
      eexists; eexists; split; [reflexivity|exact Hap].
Qed.

Lemma packed_head (items : list (Z * Z)) :
  Forall (fun x => 1 <= snd x <= 7) items ->
  forall n buf : Z, 0 < n <= 8 -> 0 <= buf < 2 ^ n ->
  exists B tail, packed_bits n buf items = B :: tail
                 /\ byte.unsigned B mod 2 ^ n = buf.
Proof.
  induction 1 as [|[a N] items HN _ IH]; intros n buf Hn Hb.
  - cbn [packed_bits]. destruct (Z.eqb_spec n 0); [lia|].
    pose proof (pow2_le_256 n ltac:(lia)).
    eexists; eexists; split; [reflexivity|].
    rewrite unsigned_of_Z_small by lia. apply Z.mod_small. lia.
  - cbn [snd fst] in HN. cbn [packed_bits fst snd].
    pose proof (pow2_le_256 n ltac:(lia)).
    destruct (Z.gtb_spec n (8 - N)).
    + eexists; eexists; split; [reflexivity|].
      rewrite unsigned_of_Z_small by lia. apply Z.mod_small. lia.
    + pose proof (land_ones_range a N ltac:(lia)) as Hv.
      destruct (IH (n + N) (Z.lor buf (Z.shiftl (Z.land a (Z.ones N)) n)))
        as (B & tail & -> & HB); [lia|apply lor_shift_bound; lia|].
      eexists; eexists; split; [reflexivity|].
      eapply low_bits_kept with (N := N); try eassumption; lia.
Qed.
End BitPacking.
Section BitUnpacking.

Lemma get_int_1_at (pre suffix : list byte) (B : byte) (cap : Z)
      (b0 : BitBuffer) (n1 buf1 : Z) :
  OSB.get_int 1 (mkOSB (mkOS (pre ++ B :: suffix) (Z.of_nat (length pre)) cap)
                       b0 (mkBits n1 buf1))
  = Ok (byte.unsigned B,
        mkOSB (mkOS (pre ++ B :: suffix) (Z.of_nat (length pre) + 1) cap)
              b0 (mkBits 0 buf1)).
Proof.
  unfold OSB.get_int, OSB.consume.
  cbn [assert bind osb_stream osb_bits0 osb_bits1 bb_buffer os_ptr Z.of_nat
       Pos.of_succ_nat Z.leb Z.compare Pos.compare Pos.compare_cont].
  unfold OS.get_length. cbn [os_data]. rewrite length_app. cbn [length].
  destruct (Z.gtb_spec (Z.of_nat (length pre) + 1)
              (Z.of_nat (length pre + S (length suffix)))); [lia|].
  cbn [throw_if bind].
  rewrite (consume_no_check_eq _ pre [B] suffix) by reflexivity.
  cbn [bind os_data os_ptr os_max_length length Z.of_nat Pos.of_succ_nat].
  change (skipn 1 (le_split 8 0)) with (repeat Byte.x00 7).
  rewrite le_combine_app_0, le_combine_1. reflexivity.
Qed.

Lemma get_bits_all_eq (items : list (Z * Z)) :
  Forall (fun x => 1 <= snd x <= 7) items ->
  forall (pre suffix : list byte) (n buf cap : Z) (b0 : BitBuffer),
  0 <= n <= 8 -> 0 <= buf < 2 ^ n ->
  let F := pre ++ packed_bits n buf items ++ suffix in
  let end_ptr := Z.of_nat (length pre)
                 + Z.of_nat (length (packed_bits n buf items)) in
  (n = 0 -> forall junk, exists b1',
     get_bits_all (map snd items)
       (mkOSB (mkOS F (Z.of_nat (length pre)) cap) b0 (mkBits 0 junk))
     = Ok (low_bits items, mkOSB (mkOS F end_ptr cap) b0 b1')) /\
  (0 < n -> forall B tail, packed_bits n buf items = B :: tail ->
     exists b1',
     get_bits_all (map snd items)
       (mkOSB (mkOS F (Z.of_nat (length pre) + 1) cap) b0
              (mkBits (8 - n) (byte.unsigned B)))
     = Ok (low_bits items, mkOSB (mkOS F end_ptr cap) b0 b1')).
Proof.
  induction 1 as [|[a N] items HN Hall IH]; intros pre suffix n buf cap b0 Hn Hb F end_ptr.
  - subst F end_ptr. cbn [packed_bits]. split.
    + intros -> junk. cbn [Z.eqb length map get_bits_all low_bits].
      rewrite Z.add_0_r. eexists; reflexivity.
    + intros Hpos B tail E. destruct (Z.eqb_spec n 0); [lia|].
      cbn [length map get_bits_all low_bits]. eexists; reflexivity.
  - cbn [snd fst] in HN.
    pose proof (land_ones_range a N ltac:(lia)) as Hv.
    assert (HN128 : 2 ^ N <= 128)
      by (change 128 with (2 ^ 7); apply Z.pow_le_mono_r; lia).
    assert (Hstep : forall (o : octetStreamBits),
      OSB.get_bits o N = OSB.get_bits_N N o).
    { intros o. unfold OSB.get_bits.
      destruct (Z.leb_spec 1 N); [|lia]. destruct (Z.leb_spec N 7); [|lia].
      reflexivity. }
    subst F end_ptr. cbn [packed_bits fst snd map get_bits_all low_bits].
    fold (low_bits items).
    set (v := Z.land a (Z.ones N)) in *.
    split.
    + (* the byte has not been fetched yet *)
      intros -> junk.
      rewrite Hstep. unfold OSB.get_bits_N.
      cbn [osb_stream osb_bits0 osb_bits1 bb_n bb_buffer].
      rewrite mask_ones by lia.
      destruct (Z.gtb_spec 0 (8 - N)); [lia|].
      destruct (Z.ltb_spec 0 N); [|lia].
      cbn [Z.add].
      assert (Hb0 : buf = 0) by (change (2 ^ 0) with 1 in Hb; lia). subst buf.
      rewrite Z.shiftl_0_r, Z.lor_0_l.
      destruct (packed_head items Hall N v) as (B & tail & E & HB); [lia|lia|].
      rewrite E. cbn [app].
      rewrite get_int_1_at.
      cbn [bind osb_stream osb_bits0 osb_bits1 bb_n bb_buffer].
      pose proof (byte.unsigned_range B) as HBr. change (2 ^ 8) with 256 in HBr.
      rewrite !uint8_wrap_small by lia.
      rewrite Z.sub_diag, Z.shiftr_0_r, Z.land_ones, HB by lia.
      destruct (IH pre suffix N v cap b0) as [_ IH2]; [lia|lia|].
      rewrite E in IH2. cbn [app] in IH2.
      destruct (IH2 ltac:(lia) B tail eq_refl) as [b1' ->].
      cbn [bind]. eexists; reflexivity.
    + intros Hpos B tail E.
      rewrite Hstep. unfold OSB.get_bits_N.
      cbn [osb_stream osb_bits0 osb_bits1 bb_n bb_buffer].
      rewrite mask_ones by lia.
      pose proof (pow2_le_256 n ltac:(lia)).
      destruct (Z.gtb_spec n (8 - N)) as [Hflush|Hkeep].
      * (* the current byte is exhausted *)
        injection E as EB Etail.
        destruct (Z.ltb_spec (8 - n) N); [|lia].
        destruct (packed_head items Hall N v) as (B' & tail' & E' & HB'); [lia|lia|].
        rewrite E'.
        change (pre ++ (byte.of_Z buf :: B' :: tail') ++ suffix)
          with (pre ++ [byte.of_Z buf] ++ B' :: tail' ++ suffix).
        rewrite app_assoc.
        replace (Z.of_nat (length pre) + 1)
          with (Z.of_nat (length (pre ++ [byte.of_Z buf])))
          by (rewrite length_app; simpl; lia).
        rewrite get_int_1_at.
        cbn [bind osb_stream osb_bits0 osb_bits1 bb_n bb_buffer].
        pose proof (byte.unsigned_range B') as HBr. change (2 ^ 8) with 256 in HBr.
        rewrite !uint8_wrap_small by lia.
        rewrite Z.sub_diag, Z.shiftr_0_r, Z.land_ones, HB' by lia.
        destruct (IH (pre ++ [byte.of_Z buf]) suffix N v cap b0) as [_ IH2]; [lia|lia|].
        rewrite E' in IH2. cbn [app] in IH2.
        destruct (IH2 ltac:(lia) B' tail' eq_refl) as [b1' ->].
        cbn [bind]. eexists. f_equal. f_equal. f_equal. f_equal.
        rewrite length_app. cbn [length]. lia.
      * (* the value lies in the current byte *)
        destruct (Z.ltb_spec (8 - n) N); [lia|].
        cbn [bind osb_stream osb_bits0 osb_bits1 bb_n bb_buffer].
        pose proof (lor_shift_bound buf v n N ltac:(lia) ltac:(lia) Hb Hv) as Hb'.
        destruct (packed_head items Hall (n + N) (Z.lor buf (Z.shiftl v n)))
          as (B' & tail' & E' & HB'); [lia|lia|].
        rewrite E' in E. injection E as EB Etail. subst B' tail'.
        replace (8 - (8 - n)) with n by lia.
        rewrite (high_bits_read _ buf v n N) by (try lia; exact HB').
        rewrite uint8_wrap_small by lia.
        destruct (IH pre suffix (n + N) (Z.lor buf (Z.shiftl v n)) cap b0)
          as [_ IH2]; [lia|lia|].
        replace (8 - n - N) with (8 - (n + N)) by lia.
        destruct (IH2 ltac:(lia) B tail E') as [b1' ->].
        cbn [bind]. eexists; reflexivity.
Qed.
End BitUnpacking.

(** ** What the buffer guarantees its callers *)

(** X1.  Records appended to a tape with [output], one after the other,
    are read back by as many [input] calls, in order and byte for byte,
    and the tape is left at the first byte behind the last record. *)
Theorem X1_tape_records_round_trip (ws : list octetStream)
        (o : octetStream) (rest : list byte) :
  Forall (fun w => OS.get_length w < 2 ^ 64) ws ->
  exists o', input_all (length ws) o (output_all ws [] ++ rest)
             = Ok (map os_data ws, o', rest).
Proof. intros H. apply input_all_output_all. exact H. Qed.

Lemma X1_witness :
  exists o',
    input_all 2 OS.empty
      (output_all [mkOS [Byte.x01; Byte.x02] 0 2; mkOS [] 0 0] [] ++ [Byte.x07])
    = Ok ([[Byte.x01; Byte.x02]; []], o', [Byte.x07]).
Proof.
  apply (X1_tape_records_round_trip
           [mkOS [Byte.x01; Byte.x02] 0 2; mkOS [] 0 0] OS.empty [Byte.x07]).
  repeat constructor.
Defined.

(** X2.  A tape that ends inside a record is rejected: [input] on any
    proper prefix of what [output] wrote throws "not enough data". *)
Theorem X2_truncated_record_rejected (o w : octetStream) (k : nat) :
  OS.get_length w < 2 ^ 64 ->
  (k < length (OS.output w []))%nat ->
  OS.input o (firstn k (OS.output w [])) = Throw "not enough data".
Proof. apply input_truncated. Qed.

Lemma X2_witness :
  OS.input OS.empty (firstn 9 (OS.output (mkOS [Byte.x01; Byte.x02] 0 2) []))
  = Throw "not enough data".
Proof.
  apply (X2_truncated_record_rejected OS.empty (mkOS [Byte.x01; Byte.x02] 0 2) 9).
  - reflexivity.
  - vm_compute. lia.
Defined.

(** X3.  After [reserve<T>(n)], [n] calls of [store_no_resize] stay
    inside the allocation and append the limbs in order; [n] calls of
    [get_no_check] from the old end return the values reduced modulo
    2^K and stop at the new end. *)
Theorem X3_reserve_store_get {D : Z2k} (o : octetStream) (vs : list Z) :
  OS.get_length o + Z.of_nat (length vs) * Z2.size < 2 ^ 64 ->
  exists cap,
    store_all_no_resize vs
      (OS.reserve o (size_t_wrap (Z.of_nat (length vs) * Z2.size)))
    = Ok (mkOS (os_data o ++ limbs_bytes vs) (os_ptr o) cap)
    /\ get_all_no_check (length vs)
         (mkOS (os_data o ++ limbs_bytes vs) (OS.get_length o) cap)
       = Ok (map Z2.wrap vs,
             mkOS (os_data o ++ limbs_bytes vs)
                  (OS.get_length o + Z.of_nat (length vs) * Z2.size) cap).
Proof.
  intros Hfit. pose proof Z2Facts.size_nonneg as Hs.
  assert (0 <= OS.get_length o) by (unfold OS.get_length; lia).
  assert (0 <= Z.of_nat (length vs) * Z2.size) by nia.
  rewrite size_t_wrap_small by lia.
  destruct (reserve_capacity o (Z.of_nat (length vs) * Z2.size))
    as (cap & -> & Hcap); [lia|lia|].
  exists cap. split.
  - apply store_all_no_resize_eq. exact Hcap.
  - pose proof (get_all_no_check_eq vs (os_data o) [] cap) as G.
    rewrite app_nil_r in G. exact G.
Qed.

Lemma X3_witness :
  exists cap,
    store_all_no_resize (D := Z2_64) [5; -1]
      (OS.reserve OS.empty (size_t_wrap (Z.of_nat 2 * @Z2.size Z2_64)))
    = Ok (mkOS ([] ++ limbs_bytes (D := Z2_64) [5; -1]) 0 cap)
    /\ get_all_no_check (D := Z2_64) 2
         (mkOS ([] ++ limbs_bytes (D := Z2_64) [5; -1]) 0 cap)
       = Ok ([5; 2 ^ 64 - 1],
             mkOS ([] ++ limbs_bytes (D := Z2_64) [5; -1])
                  (0 + Z.of_nat 2 * @Z2.size Z2_64) cap).
Proof.
  apply (@X3_reserve_store_get Z2_64 OS.empty [5; -1]).
  vm_compute. reflexivity.
Defined.



(** X5.  [require<T>(n)] guards the unchecked reads that follow it: it
    either throws "insufficient data", fewer than [n] limbs being left,
    or the next [n] calls of [get_no_check] all stay inside the content. *)
Theorem X5_require_guards_reads {D : Z2k} (s : octetStream) (n : nat) :
  0 <= os_ptr s <= OS.get_length s -> OS.get_length s < 2 ^ 64 ->
  Z.of_nat n * Z2.size < 2 ^ 64 ->
  (OSB.require s (Z.of_nat n) = Throw "insufficient data"
   /\ OS.left s < Z.of_nat n * Z2.size)
  \/
  (OSB.require s (Z.of_nat n) = Ok tt
   /\ exists vs,
        get_all_no_check n s
        = Ok (vs, mkOS (os_data s) (os_ptr s + Z.of_nat n * Z2.size)
                       (os_max_length s))
        /\ length vs = n).
Proof.
  intros Hp Hlen Hn. pose proof Z2Facts.size_nonneg as Hs.
  unfold OSB.require. rewrite (left_small s) by lia.
  rewrite size_t_wrap_small by nia.
  destruct (Z.ltb_spec (OS.get_length s - os_ptr s) (Z.of_nat n * Z2.size)).
  - left. split; [reflexivity|lia].
  - right. split; [reflexivity|].
    apply get_all_no_check_in; lia.
Qed.

Lemma X5_witness :
  (OSB.require (D := Z2_64) (mkOS (repeat Byte.x01 16) 8 16) (Z.of_nat 1)
   = Throw "insufficient data"
   /\ OS.left (mkOS (repeat Byte.x01 16) 8 16) < Z.of_nat 1 * @Z2.size Z2_64)
  \/
  (OSB.require (D := Z2_64) (mkOS (repeat Byte.x01 16) 8 16) (Z.of_nat 1) = Ok tt
   /\ exists vs,
        get_all_no_check (D := Z2_64) 1 (mkOS (repeat Byte.x01 16) 8 16)
        = Ok (vs, mkOS (repeat Byte.x01 16) (8 + Z.of_nat 1 * @Z2.size Z2_64) 16)
        /\ length vs = 1%nat).
Proof.
  apply (@X5_require_guards_reads Z2_64 (mkOS (repeat Byte.x01 16) 8 16) 1).
  - vm_compute. split; discriminate.
  - reflexivity.
  - reflexivity.
Defined.

Lemma append_ok (o : octetStreamBits) (x : list byte) :
  OS.get_length (osb_stream o) + Z.of_nat (length x) + 1 < 2 ^ 63 ->
  exists d cap b0,
    OSB.append o x
    = Ok (mkOSB (mkOS (d ++ x) (os_ptr (osb_stream o)) cap) b0 (osb_bits1 o)).
Proof.
  intros Hfit. destruct o as [s [n buf] b1]. cbn [osb_stream osb_bits1] in *.
  unfold OSB.append. cbn [osb_stream osb_bits0 osb_bits1 bb_n].
  destruct (Z.eqb_spec n 0).
  - cbn [bind osb_stream osb_bits0 osb_bits1].
    destruct (append_stream_ok s x) as [cap ->]; [lia|].
    cbn [bind]. do 3 eexists. reflexivity.
  - destruct (flush_bits_ok s n buf b1) as [cap ->]; [lia|].
    cbn [bind osb_stream osb_bits0 osb_bits1].
    destruct (append_stream_ok (mkOS (os_data s ++ [byte.of_Z buf]) (os_ptr s) cap) x)
      as [cap' ->].
    { unfold OS.get_length in *. cbn [os_data]. rewrite length_app. simpl. lia. }
    cbn [bind os_data os_ptr]. do 3 eexists. reflexivity.
Qed.

(** X6.  An integer written with [store_int<N>] is read back by
    [get_int<N>] from the same place, reduced to its low [N] bytes, and
    the read stops at the end of the content. *)
Theorem X6_store_int_get_int (N : nat) (o : octetStreamBits) (a : Z)
        (b0 b1 : BitBuffer) :
  (N <= 8)%nat ->
  OS.get_length (osb_stream o) + 9 < 2 ^ 63 ->
  exists o1,
    OSB.store_int N o a = Ok o1 /\
    OSB.get_int N
      (mkOSB (mkOS (os_data (osb_stream o1))
                   (OS.get_length (osb_stream o1) - Z.of_nat N)
                   (os_max_length (osb_stream o1))) b0 b1)
    = Ok (a mod 2 ^ (8 * Z.of_nat N),
          mkOSB (mkOS (os_data (osb_stream o1))
                      (OS.get_length (osb_stream o1))
                      (os_max_length (osb_stream o1)))
                b0 (mkBits 0 (bb_buffer b1))).
Proof.
  intros HN Hfit. unfold OSB.store_int, OSB.get_int.
  destruct (Z.leb_spec (Z.of_nat N) 8); [|lia]. cbn [assert bind].
  set (x := firstn N (le_split 8 a)).
  assert (Hx : length x = N)
    by (subst x; rewrite length_firstn, length_le_split; lia).
  destruct (append_ok o x) as (d & cap & b0' & ->); [lia|].
  eexists. split; [reflexivity|].
  cbn [osb_stream os_data os_max_length].
  unfold OSB.consume. cbn [osb_stream osb_bits0 osb_bits1 os_ptr bb_buffer].
  unfold OS.get_length. cbn [os_data]. rewrite length_app, Hx, Nat2Z.inj_add.
  replace (Z.of_nat (length d) + Z.of_nat N - Z.of_nat N)
    with (Z.of_nat (length d)) by lia.
  destruct (Z.gtb_spec (Z.of_nat (length d) + Z.of_nat N)
              (Z.of_nat (length d) + Z.of_nat N)); [lia|].
  cbn [throw_if bind].
  rewrite <- Hx at 1.
  rewrite (consume_no_check_eq _ d x [])
    by (cbn [os_data os_ptr]; rewrite ?app_nil_r; reflexivity).
  cbn [bind os_data os_ptr os_max_length]. rewrite Hx.
  subst x. rewrite get_int_value by lia. reflexivity.
Qed.

Lemma X6_witness :
  exists o1,
    OSB.store_int 2 OSB.empty 66000 = Ok o1 /\
    OSB.get_int 2
      (mkOSB (mkOS (os_data (osb_stream o1))
                   (OS.get_length (osb_stream o1) - Z.of_nat 2)
                   (os_max_length (osb_stream o1))) (mkBits 0 0) (mkBits 0 0))
    = Ok (66000 mod 2 ^ (8 * Z.of_nat 2),
          mkOSB (mkOS (os_data (osb_stream o1))
                      (OS.get_length (osb_stream o1))
                      (os_max_length (osb_stream o1)))
                (mkBits 0 0) (mkBits 0 (bb_buffer (mkBits 0 0)))).
Proof.
  apply (X6_store_int_get_int 2 OSB.empty 66000 (mkBits 0 0) (mkBits 0 0)).
  - lia.
  - vm_compute. reflexivity.
Defined.

(** X7.  Bit packing round trip: values of 1 to 7 bits written with
    [store_bits] after [reset_write_head], and flushed by [append(0)],
    come back from [get_bits] after [reset_read_head], each reduced to
    its low [n_bits] bits, and the reads use up the content exactly.
    The write side must start from a clear bit buffer, which
    [reset_write_head] does not clear by itself. *)
Theorem X7_bit_packing_round_trip (items : list (Z * Z))
        (o : octetStreamBits) :
  Forall (fun x => 1 <= snd x <= 7) items ->
  bb_buffer (osb_bits0 o) = 0 ->
  Z.of_nat (length items) + 1 < 2 ^ 63 ->
  exists o1 o2 r,
    store_bits_all items (OSB.reset_write_head o) = Ok o1 /\
    OSB.append o1 [] = Ok o2 /\
    get_bits_all (map snd items) (OSB.reset_read_head o2)
    = Ok (low_bits items, r) /\
    OS.left (osb_stream r) = 0.
Proof.
  intros Hall Hbuf Hfit. destruct o as [s [n0 buf0] [n1 buf1]].
  cbn [osb_bits0 bb_buffer] in Hbuf. subst buf0.
  unfold OSB.reset_write_head, OSB.reset_read_head at 1,
    OSB.reset_read_head_stream.
  cbn [osb_stream osb_bits0 osb_bits1 bb_buffer os_data os_ptr os_max_length].
  destruct (store_bits_all_eq items Hall (mkOS [] 0 (os_max_length s)) 0 0
              (mkBits 0 buf1)) as (o1 & cap & Hst & Hap);
    [lia|change (2 ^ 0) with 1; lia|unfold OS.get_length; simpl; lia|].
  cbn [os_data os_ptr app] in Hap.
  destruct (get_bits_all_eq items Hall [] [] 0 0 cap (mkBits 0 0))
    as [G _]; [lia|change (2 ^ 0) with 1; lia|].
  destruct (G eq_refl buf1) as [b1' Hg].
  cbn [app length Z.of_nat Z.add] in Hg. rewrite app_nil_r in Hg.
  exists o1. eexists. eexists.
  split; [exact Hst|]. split; [exact Hap|].
  unfold OSB.reset_read_head, OSB.reset_read_head_stream.
  cbn [osb_stream osb_bits0 osb_bits1 bb_buffer os_data os_ptr os_max_length].
  split; [exact Hg|].
  unfold OS.left, OS.get_length. cbn [osb_stream os_data os_ptr].
  rewrite Z.sub_diag. reflexivity.
Qed.

Lemma X7_witness :
  exists o1 o2 r,
    store_bits_all [(5, 3); (1, 1); (100, 7); (-1, 2)]
                   (OSB.reset_write_head OSB.empty) = Ok o1 /\
    OSB.append o1 [] = Ok o2 /\
    get_bits_all (map snd [(5, 3); (1, 1); (100, 7); (-1, 2)])
                 (OSB.reset_read_head o2)
    = Ok (low_bits [(5, 3); (1, 1); (100, 7); (-1, 2)], r) /\
    OS.left (osb_stream r) = 0.
Proof.
  apply (X7_bit_packing_round_trip [(5, 3); (1, 1); (100, 7); (-1, 2)] OSB.empty).
  - repeat constructor; simpl; lia.
  - reflexivity.
  - vm_compute. reflexivity.
Defined.


(* ===================================================================== *)
(** * Further properties: share algebra, truncation tuples, indices *)
(* ===================================================================== *)

(** X8.  On well-formed sharings the three local products, the helper's
    [local_mul_P0] and the online parties' [local_mul_P1] and
    [local_mul_P2], add up to the product of the two shared values. *)
Theorem X8_local_products_sum {D : Z2k} (x y : Sharing) :
  well_formed x -> well_formed y ->
  Z2.add (AstraPrepShare.local_mul_P0 (helper0 x) (helper0 y))
         (Z2.add (AstraShare.local_mul_P1 (online1 x) (online1 y))
                 (AstraShare.local_mul_P2 (online2 x) (online2 y)))
  = Z2.mul (shared_value x) (shared_value y).
Proof.
  intros (Hmx & Hx1 & Hx2) (Hmy & Hy1 & Hy2).
  destruct x as [[hx0 hx1] px1 px2 [mx lx1] [mx' lx2]].
  destruct y as [[hy0 hy1] py1 py2 [my ly1] [my' ly2]].
  cbn [helper0 online1 online2 limb0 limb1] in *. subst.
  rewrite local_mul_sum. unfold shared_value. cbn [online1 online2 limb0 limb1].
  z2_ring.
Qed.

Lemma X8_witness :
  @Z2.add Z2_64
    (@AstraPrepShare.local_mul_P0 Z2_64 (mkVec 3 4) (mkVec 5 6))
    (@Z2.add Z2_64
       (@AstraShare.local_mul_P1 Z2_64 (mkVec 10 3) (mkVec 20 5))
       (@AstraShare.local_mul_P2 Z2_64 (mkVec 10 4) (mkVec 20 6)))
  = @Z2.mul Z2_64
      (@shared_value Z2_64
         (mkSharing (mkVec 3 4) (mkVec 0 3) (mkVec 0 4) (mkVec 10 3) (mkVec 10 4)))
      (@shared_value Z2_64
         (mkSharing (mkVec 5 6) (mkVec 0 5) (mkVec 0 6) (mkVec 20 5) (mkVec 20 6))).
Proof.
  apply (@X8_local_products_sum Z2_64
           (mkSharing (mkVec 3 4) (mkVec 0 3) (mkVec 0 4) (mkVec 10 3) (mkVec 10 4))
           (mkSharing (mkVec 5 6) (mkVec 0 5) (mkVec 0 6) (mkVec 20 5) (mkVec 20 6)));
    repeat split.
Defined.

Section TruncDispatchFacts.
Context {T : ClearType}.




Lemma filter_none {A} (f : A -> bool) (l : list A) :
  Forall (fun a => f a = false) l -> filter f l = [].
Proof. induction 1 as [|a l Ha _ IH]; simpl; [|rewrite Ha, IH]; reflexivity. Qed.


End TruncDispatchFacts.


(** X10.  Whatever the registers, a truncation tuple that is constructed
    took its four fields from the first four registers, passed
    [trunc_pr_check], and satisfies [m < k], [0 < k], [m < n_bits] and
    [n_shift = N_BITS - 1 - k]; over a prime field it is big gap. *)
Theorem X10_tuple_invariants {T : ClearType}
        (check : Z -> Z -> Z -> outcome unit) (opts : OnlineOptions)
        (it : list Z) (t : TruncPrTupleWithGap) :
  TruncPr.TruncPrTupleWithGap_ctor check opts it = Ok t ->
  firstn 4 it = [dest_base (tuple t); source_base (tuple t);
                 tp_k (tuple t); tp_m (tuple t)] /\
  check (tp_k (tuple t)) (tp_m (tuple t)) T_n_bits = Ok tt /\
  tp_m (tuple t) < tp_k (tuple t) /\ 0 < tp_k (tuple t) /\
  tp_m (tuple t) < T_n_bits /\
  n_shift (tuple t) = T_N_BITS - 1 - tp_k (tuple t) /\
  (T_prime_field = true -> TruncPr.big_gap t = true).
Proof.
  unfold TruncPr.TruncPrTupleWithGap_ctor, TruncPr.TruncPrTuple_ctor.
  intros H.
  destruct it as [|d [|s [|k [|m rest]]]]; try discriminate H.
  destruct (check k m T_n_bits) as [[]| | |] eqn:Hc; try discriminate H.
  cbn [bind] in H.
  destruct (Z.ltb_spec m k); [|discriminate H].
  destruct (Z.ltb_spec 0 k); [|discriminate H].
  destruct (Z.ltb_spec m T_n_bits); [|discriminate H].
  cbn [assert bind tp_k] in H.
  unfold TruncPr.small_gap, TruncPr.big_gap in *. cbn [big_gap_] in H.
  destruct T_prime_field; cbn [andb] in H.
  - destruct (k <=? T_n_bits - trunc_error opts); cbn [negb throw_if bind] in H;
      [|discriminate H].
    injection H as <-. cbn. repeat split; try assumption; try reflexivity.
  - cbn [throw_if bind] in H. injection H as <-. cbn.
    repeat split; try assumption; try reflexivity. discriminate.
Qed.

Lemma X10_witness :
  firstn 4 [7; 8; 20; 5; 99] = [7; 8; 20; 5] /\
  (fun _ _ _ => Ok tt) 20 5 (@T_n_bits (ring_clear Z2_64)) = Ok tt /\
  5 < 20 /\ 0 < 20 /\ 5 < @T_n_bits (ring_clear Z2_64) /\
  43 = @T_N_BITS (ring_clear Z2_64) - 1 - 20 /\
  (@T_prime_field (ring_clear Z2_64) = true -> true = true).
Proof.
  exact (@X10_tuple_invariants (ring_clear Z2_64) (fun _ _ _ => Ok tt)
           default_options [7; 8; 20; 5; 99]
           (mkGap (mkTuple 7 8 20 5 43) true) eq_refl).
Defined.

(** X11.  The split indices agree across the parties.  For an online
    party [p] in {0, 1} the three arithmetic indices go to three distinct
    bit registers below 3, register 0 holding the masked value; the mask
    share a party calls its own is the one the other party calls the
    other's; preprocessing party [p + 1] uses the indices of online party
    [p]; and the helper sends its limb [p] to the register of the own
    mask share of online party [p]. *)
Theorem X11_split_index_agreement (p : Z) :
  0 <= p <= 1 ->
  SplitIndex.AstraShare_split_index 0 p = Ok 0 /\
  SplitIndex.AstraShare_split_index 1 p = Ok (p + 1) /\
  SplitIndex.AstraShare_split_index 2 p = Ok (2 - p) /\
  SplitIndex.AstraShare_split_index 1 p
  = SplitIndex.AstraShare_split_index 2 (1 - p) /\
  (forall i, SplitIndex.AstraPrepShare_split_index i (p + 1)
             = SplitIndex.AstraShare_split_index i p) /\
  SplitIndex.AstraPrepShare_split_index p 0
  = SplitIndex.AstraShare_split_index 1 p /\
  SplitIndex.AstraPrepShare_split_index 2 0 = Ok 0.
Proof.
  intros Hp. assert (Hc : p = 0 \/ p = 1) by lia.
  repeat split.
  1-3, 5: destruct Hc as [-> | ->]; reflexivity.
  - intros i. unfold SplitIndex.AstraPrepShare_split_index.
    destruct (Z.gtb_spec (p + 1) 0); [|lia].
    replace (p + 1 - 1) with p by lia.
    unfold SplitIndex.AstraShare_split_index.
    destruct (_ <? 3) eqn:E; cbn [assert bind]; [rewrite E|]; reflexivity.
Qed.

Lemma X11_witness :
  SplitIndex.AstraShare_split_index 0 1 = Ok 0 /\
  SplitIndex.AstraShare_split_index 1 1 = Ok (1 + 1) /\
  SplitIndex.AstraShare_split_index 2 1 = Ok (2 - 1) /\
  SplitIndex.AstraShare_split_index 1 1
  = SplitIndex.AstraShare_split_index 2 (1 - 1) /\
  (forall i, SplitIndex.AstraPrepShare_split_index i (1 + 1)
             = SplitIndex.AstraShare_split_index i 1) /\
  SplitIndex.AstraPrepShare_split_index 1 0
  = SplitIndex.AstraShare_split_index 1 1 /\
  SplitIndex.AstraPrepShare_split_index 2 0 = Ok 0.
Proof. apply (X11_split_index_agreement 1). lia. Defined.

(** X12.  Only the two online party numbers pass the assertion of
    [AstraShare::split_index] on both mask indices: for any [my_num] in
    the range of [int], the calls for indices 1 and 2 both return exactly
    when [my_num] is 0 or 1, and fail the assertion otherwise. *)
Theorem X12_split_index_guard (my_num : Z) :
  - 2 ^ 31 <= my_num < 2 ^ 31 ->
  ((exists a b, SplitIndex.AstraShare_split_index 1 my_num = Ok a /\
                SplitIndex.AstraShare_split_index 2 my_num = Ok b)
   <-> 0 <= my_num <= 1) /\
  (~ 0 <= my_num <= 1 ->
   SplitIndex.AstraShare_split_index 1 my_num = AssertFail "res < 3" \/
   SplitIndex.AstraShare_split_index 2 my_num = AssertFail "res < 3").
Proof.
  intros Hr. unfold SplitIndex.AstraShare_split_index, unsigned_wrap.
  change (1 =? 0) with false. change (1 =? 1) with true.
  change (2 =? 0) with false. change (2 =? 1) with false. cbv iota.
  change (2 ^ 32) with 4294967296. change (2 ^ 31) with 2147483648 in Hr.
  assert (H1 : (my_num + 1) mod 4294967296 < 3 <-> -1 <= my_num <= 1).
  { destruct (Z.le_gt_cases 0 (my_num + 1)).
    - rewrite Z.mod_small by lia. lia.
    - replace ((my_num + 1) mod 4294967296) with (my_num + 1 + 4294967296);
        [lia|]. apply Z.mod_unique with (q := -1); lia. }
  assert (H2 : (2 - my_num) mod 4294967296 < 3 <-> 0 <= my_num <= 2).
  { destruct (Z.le_gt_cases 0 (2 - my_num)).
    - rewrite Z.mod_small by lia. lia.
    - replace ((2 - my_num) mod 4294967296) with (2 - my_num + 4294967296);
        [lia|]. apply Z.mod_unique with (q := -1); lia. }
  destruct (Z.ltb_spec ((my_num + 1) mod 4294967296) 3);
    destruct (Z.ltb_spec ((2 - my_num) mod 4294967296) 3); cbn [assert bind].
  - split; [split; [lia|intros; do 2 eexists; split; reflexivity]|lia].
  - split; [split; [intros (a & b & _ & Hb); discriminate Hb|lia]|].
    intros _. right. reflexivity.
  - split; [split; [intros (a & b & Ha & _); discriminate Ha|lia]|].
    intros _. left. reflexivity.
  - split; [split; [intros (a & b & Ha & _); discriminate Ha|lia]|].
    intros _. left. reflexivity.
Qed.

Lemma X12_witness :
  ((exists a b, SplitIndex.AstraShare_split_index 1 2 = Ok a /\
                SplitIndex.AstraShare_split_index 2 2 = Ok b)
   <-> 0 <= 2 <= 1) /\
  (~ 0 <= 2 <= 1 ->
   SplitIndex.AstraShare_split_index 1 2 = AssertFail "res < 3" \/
   SplitIndex.AstraShare_split_index 2 2 = AssertFail "res < 3").
Proof. apply (X12_split_index_guard 2). lia. Defined.

(* ===================================================================== *)
(** * Further properties: random shares *)
(* ===================================================================== *)

(** X13.  [from_rep3] turns a replicated sharing, in which limb 1 of
    every party repeats limb 0 of the party one place down the ring,
    into a well-formed Astra sharing of the same value. *)
Theorem X13_from_rep3 {D : Z2k} (x0 x1 x2 : FixedVec) :
  limb1 x1 = limb0 x0 -> limb1 x2 = limb0 x1 -> limb1 x0 = limb0 x2 ->
  exists h p1 p2,
    Random.from_rep3 x0 0 = Ok h /\
    Random.from_rep3 x1 1 = Ok p1 /\
    Random.from_rep3 x2 2 = Ok p2 /\
    well_formed (mkSharing h p1 p2 p1 p2) /\
    shared_value (mkSharing h p1 p2 p1 p2)
    = Z2.wrap (limb0 x0 + limb0 x1 + limb0 x2).
Proof.
  intros H10 H21 H02.
  exists x0, x1, (mkVec (limb1 x2) (limb0 x2)).
  destruct x0 as [a0 b0], x1 as [a1 b1], x2 as [a2 b2].
  cbn [limb0 limb1] in *. subst.
  repeat split. unfold shared_value. cbn [online1 online2 limb0 limb1].
  f_equal. lia.
Qed.

Lemma X13_witness :
  exists h p1 p2,
    Random.from_rep3 (mkVec 1 3) 0 = Ok h /\
    Random.from_rep3 (mkVec 2 1) 1 = Ok p1 /\
    Random.from_rep3 (mkVec 3 2) 2 = Ok p2 /\
    @well_formed (mkSharing h p1 p2 p1 p2) /\
    @shared_value Z2_64 (mkSharing h p1 p2 p1 p2)
    = @Z2.wrap Z2_64 (limb0 (mkVec 1 3) + limb0 (mkVec 2 1) + limb0 (mkVec 3 2)).
Proof.
  apply (@X13_from_rep3 Z2_64 (mkVec 1 3) (mkVec 2 1) (mkVec 3 2));
    reflexivity.
Defined.

Section RandomShares.
Context {D : Z2k} {C : StreamCipher}.

Lemma length_pack (x : FixedVec) :
  Z.of_nat (length (Random.pack x)) = 2 * Z2.size.
Proof.
  unfold Random.pack. rewrite length_app, Nat2Z.inj_add,
    !Z2Facts.length_to_bytes. lia.
Qed.

Lemma consume_at (a b c : list byte) (cap : Z) (b0 b1 : BitBuffer) :
  OSB.consume (mkOSB (mkOS (a ++ b ++ c) (Z.of_nat (length a)) cap) b0 b1)
              (Z.of_nat (length b))
  = Ok (b, mkOSB (mkOS (a ++ b ++ c)
                       (Z.of_nat (length a) + Z.of_nat (length b)) cap)
                 b0 (mkBits 0 (bb_buffer b1))).
Proof.
  unfold OSB.consume. cbn [osb_stream osb_bits0 osb_bits1 os_ptr].
  unfold OS.get_length. cbn [os_data]. rewrite !length_app.
  destruct (Z.gtb_spec (Z.of_nat (length a) + Z.of_nat (length b))
              (Z.of_nat (length a + (length b + length c)))); [lia|].
  cbn [throw_if bind]. rewrite consume_no_check_at. reflexivity.
Qed.

Lemma unpack_pack (x : FixedVec) (cap : Z) :
  Random.unpack (mkOS (Random.pack x) 0 cap)
  = Ok (mkVec (Z2.wrap (limb0 x)) (Z2.wrap (limb1 x)),
        mkOS (Random.pack x) (2 * Z2.size) cap).
Proof.
  unfold Random.unpack, Random.pack.
  pose proof (consume_at [] (Z2.to_bytes (limb0 x)) (Z2.to_bytes (limb1 x)) cap
                (mkBits 0 0) (mkBits 0 0)) as H0.
  rewrite Z2Facts.length_to_bytes in H0. cbn [app length Z.of_nat] in H0.
  rewrite H0. cbn [bind bb_buffer Z.add].
  pose proof (consume_at (Z2.to_bytes (limb0 x)) (Z2.to_bytes (limb1 x)) [] cap
                (mkBits 0 0) (mkBits 0 0)) as H1.
  rewrite !Z2Facts.length_to_bytes, app_nil_r in H1.
  rewrite H1. cbn [bind osb_stream].
  rewrite !Z2Facts.of_bytes_to_bytes.
  replace (Z2.size + Z2.size) with (2 * Z2.size) by lia. reflexivity.
Qed.

(** The record [store(value)] appends to a tape is read back by
    [read<U>()]. *)
Lemma read_share_store_value (my_num : Z) (file rest : list byte)
      (x : FixedVec) :
  0 < my_num -> Z.of_nat N_BITS < 2 ^ 31 ->
  exists record,
    Random.store_value my_num file x = file ++ record /\
    Random.read_share (record ++ rest)
    = Ok (mkVec (Z2.wrap (limb0 x)) (Z2.wrap (limb1 x)), rest).
Proof.
  intros Hpos Hbits. pose proof (size_fits Hbits) as Hfit.
  pose proof Z2Facts.size_nonneg as Hs.
  unfold Random.store_value, AstraPrep.store.
  destruct (Z.gtb_spec my_num 0); [|lia].
  set (w := mkOS (Random.pack x) 0 (Z.of_nat (length (Random.pack x)))).
  exists (OS.output w []). split.
  - unfold OS.output. now rewrite app_nil_l.
  - unfold Random.read_share, AstraOnline.read.
    rewrite input_output
      by (unfold OS.get_length, w; cbn [os_data]; rewrite length_pack; lia).
    cbn [bind]. subst w. cbn [os_data].
    rewrite unpack_pack. cbn [bind].
    unfold OS.left, OS.get_length. cbn [os_data os_ptr].
    rewrite length_pack, Z.sub_diag. reflexivity.
Qed.

Lemma wrap_get (G : PRNG) : Z2.wrap (fst (Prng.get G)) = fst (Prng.get G).
Proof. unfold Prng.get. cbn [fst]. apply Z2Facts.wrap_wrap. Qed.
End RandomShares.

(** X14.  [get_random] on the three preprocessing parties, their
    generators being correlated, yields a well-formed sharing and leaves
    the generators correlated; the helper writes nothing, and each of the
    other two appends one record to its tape from which
    [AstraOnlineBase::get_random] reads the very same share. *)
Theorem X14_get_random {D : Z2k} {C : StreamCipher}
        (p0 p1 p2 : AstraPrepProtocol) :
  prep_my_num p0 = 0 -> prep_my_num p1 = 1 -> prep_my_num p2 = 2 ->
  paired (prng_protocol p0) (prng_protocol p1) (prng_protocol p2) ->
  Z.of_nat N_BITS < 2 ^ 31 ->
  exists h s1 s2 q0 q1 q2 r1 r2,
    Random.get_random p0 = Ok (h, q0) /\
    Random.get_random p1 = Ok (s1, q1) /\
    Random.get_random p2 = Ok (s2, q2) /\
    well_formed (mkSharing h s1 s2 s1 s2) /\
    paired (prng_protocol q0) (prng_protocol q1) (prng_protocol q2) /\
    prep_file q0 = prep_file p0 /\
    prep_file q1 = prep_file p1 ++ r1 /\
    prep_file q2 = prep_file p2 ++ r2 /\
    (forall a rest, on_prep a = r1 ++ rest ->
       exists a', Random.online_get_random a = Ok (s1, a') /\ on_prep a' = rest) /\
    (forall a rest, on_prep a = r2 ++ rest ->
       exists a', Random.online_get_random a = Ok (s2, a') /\ on_prep a' = rest).
Proof.
  intros H0 H1 H2 (P10 & P21 & P02) Hbits.
  destruct p0 as [b0 n0 os0 osp0 [g00 g01] f0].
  destruct p1 as [b1 n1 os1 osp1 [g10 g11] f1].
  destruct p2 as [b2 n2 os2 osp2 [g20 g21] f2].
  cbn [prep_my_num prng_protocol shared_prngs0 shared_prngs1 prep_file] in *.
  subst n0 n1 n2 g11 g21 g01.
  unfold Random.get_random, Random.shared_prngs_get, Random.rep_index,
    Replicated.get_at.
  cbn [prep_my_num prng_protocol prep_base prep_os prep_os_prep prep_file
       shared_prngs0 shared_prngs1 Z.eqb Z.sub Z.opp Z.add Z.pos_sub orb bind
       Pos.eqb Pos.pred_double].
  destruct (Prng.get g00) as [v0 g00'] eqn:E0.
  destruct (Prng.get g10) as [v1 g10'] eqn:E1.
  destruct (Prng.get g20) as [v2 g20'] eqn:E2.
  cbn [bind shared_prngs0 shared_prngs1].
  rewrite ?E0, ?E1, ?E2. cbn [bind shared_prngs0 shared_prngs1].
  destruct (read_share_store_value 1 f1 [] (mkVec v1 v0)) as (r1 & Hr1 & _);
    [lia|exact Hbits|].
  destruct (read_share_store_value 2 f2 [] (mkVec v1 v2)) as (r2 & Hr2 & _);
    [lia|exact Hbits|].
  assert (W0 : Z2.wrap v0 = v0)
    by (replace v0 with (fst (Prng.get g00)) by (now rewrite E0); apply wrap_get).
  assert (W1 : Z2.wrap v1 = v1)
    by (replace v1 with (fst (Prng.get g10)) by (now rewrite E1); apply wrap_get).
  assert (W2 : Z2.wrap v2 = v2)
    by (replace v2 with (fst (Prng.get g20)) by (now rewrite E2); apply wrap_get).
  do 6 eexists. exists r1, r2.
  split; [reflexivity|]. split; [reflexivity|]. split; [reflexivity|].
  cbn [prng_protocol prep_file shared_prngs0 shared_prngs1].
  split; [repeat split|]. split; [repeat split|].
  split; [reflexivity|]. split; [exact Hr1|]. split; [exact Hr2|].
  split.
  - intros a rest Ha. unfold Random.online_get_random. rewrite Ha.
    destruct (read_share_store_value 1 f1 rest (mkVec v1 v0))
      as (r1' & Hr1' & Hread); [lia|exact Hbits|].
    rewrite Hr1 in Hr1'. apply app_inv_head in Hr1'. subst r1'.
    rewrite Hread. cbn [bind limb0 limb1]. rewrite W0, W1.
    eexists; split; reflexivity.
  - intros a rest Ha. unfold Random.online_get_random. rewrite Ha.
    destruct (read_share_store_value 2 f2 rest (mkVec v1 v2))
      as (r2' & Hr2' & Hread); [lia|exact Hbits|].
    rewrite Hr2 in Hr2'. apply app_inv_head in Hr2'. subst r2'.
    rewrite Hread. cbn [bind limb0 limb1]. rewrite W1, W2.
    eexists; split; reflexivity.
Qed.

Lemma X14_witness :
  let seeds := fun i : Z => i + 11 in
  let p0 := System.prep_create 0 (@Replicated.setup seeds 0) in
  let p1 := System.prep_create 1 (@Replicated.setup seeds 1) in
  let p2 := System.prep_create 2 (@Replicated.setup seeds 2) in
  exists h s1 s2 q0 q1 q2 r1 r2,
    @Random.get_random Z2_64 counter_cipher p0 = Ok (h, q0) /\
    @Random.get_random Z2_64 counter_cipher p1 = Ok (s1, q1) /\
    @Random.get_random Z2_64 counter_cipher p2 = Ok (s2, q2) /\
    well_formed (mkSharing h s1 s2 s1 s2) /\
    paired (prng_protocol q0) (prng_protocol q1) (prng_protocol q2) /\
    prep_file q0 = prep_file p0 /\
    prep_file q1 = prep_file p1 ++ r1 /\
    prep_file q2 = prep_file p2 ++ r2 /\
    (forall a rest, on_prep a = r1 ++ rest ->
       exists a', @Random.online_get_random Z2_64 a = Ok (s1, a')
                  /\ on_prep a' = rest) /\
    (forall a rest, on_prep a = r2 ++ rest ->
       exists a', @Random.online_get_random Z2_64 a = Ok (s2, a')
                  /\ on_prep a' = rest).
Proof.
  intros seeds p0 p1 p2.
  apply (@X14_get_random Z2_64 counter_cipher p0 p1 p2);
    [reflexivity|reflexivity|reflexivity|repeat split|vm_compute; reflexivity].
Defined.
